(** * CopilotClaw: the chat-session orchestrator of the Telegram bot

    A shallow embedding of [src/utils.ts] and of the session state machine
    of [src/index.ts], followed by the properties of the specification
    (C1 to C10) and by further properties of the code (X1 to X26).

    Conventions of the embedding.
    - A JavaScript string is the list of its UTF-16 code units, each a
      number of type [N]; [length], [slice] and [lastIndexOf] count code
      units, as they do in the source.
    - A JavaScript number that holds an array index, a string length or a
      count is an integer of type [Z]; these are exact in the double
      format. The number that [parseInt] returns is a [JsString.number]:
      the integer that the digits denote, rounded to the double format
      from 2^53 on, an infinity from 2^1024 on, or NaN.
    - [undefined] and [null] are [None]; an optional field is an [option].
    - [Map<number, ChatState>] is a [gmap Z ChatState].
    - What the outside world answers to a call (an error, a handle, a
      random draw) is an argument of the handler, or the answer of an
      oracle.
    - Module [Async] has the handlers of messages, of the idle event and
      of the resets as the async functions that they are: a handler runs
      up to the next call that it awaits and goes on when the call has
      settled, by resolving or by rejecting, and the handlers of other
      messages and events run in between. Every awaited call can reject,
      the messages to Telegram included.
    - Modules [Index], [Commands] and [Handlers] have each handler run
      alone, from its start to its end with no other handler in between,
      and with every message to the chat delivered: a function from the
      state before it to the state after it and the list of the calls it
      made. Of the calls to Telegram only [getFile] fails there; the calls
      to the Copilot SDK and [process.chdir] can all fail. For the
      handlers that [Async] has, [AloneSpec] shows that the functions of
      [Index] are those handlers run so.
    - The event sequencer has a model of its own, in which the start and
      the end of a handler are separate steps and what the handler does
      in between is left out. *)

From stdpp Require Import base numbers list option gmap strings.
From Stdlib Require DecimalNat.

Local Open Scope Z_scope.

(* ================================================================== *)
(** * Part I: definitions                                              *)
(* ================================================================== *)

(** ** JavaScript strings *)

Module JsString.

Abbreviation code_unit := N (only parsing).
Abbreviation jsstring := (list N) (only parsing).

(** An ASCII literal of the source as a list of code units. *)
Definition lit (s : string) : jsstring :=
  Ascii.N_of_ascii <$> String.list_ascii_of_string s.

(** [s.length] *)
Definition len (s : jsstring) : Z := Z.of_nat (length s).

(** Truthiness of an optional string: [undefined] and [''] are falsy. *)
Definition truthy (o : option jsstring) : bool :=
  match o with
  | Some (_ :: _) => true
  | _ => false
  end.

(** The clamping of a relative index of [String.prototype.slice]. *)
Definition clampIndex (l i : Z) : Z :=
  if i <? 0 then Z.max (l + i) 0 else Z.min i l.

(** [s.slice(from, to)] *)
Definition slice (s : jsstring) (from to : Z) : jsstring :=
  let l := len s in
  let a := clampIndex l from in
  let b := clampIndex l to in
  take (Z.to_nat (Z.max (b - a) 0)) (drop (Z.to_nat a) s).

(** [s.slice(from)] *)
Definition sliceFrom (s : jsstring) (from : Z) : jsstring :=
  slice s from (len s).

(** Greatest index of [c] in [s] counted from [i]; -1 when absent. *)
Fixpoint lastIndexFrom (c : code_unit) (s : jsstring) (i : Z) : Z :=
  match s with
  | [] => -1
  | x :: rest =>
      let r := lastIndexFrom c rest (i + 1) in
      if 0 <=? r then r else if N.eqb x c then i else -1
  end.

(** [s.lastIndexOf(c)] for a one-unit search string. *)
Definition lastIndexOf (s : jsstring) (c : code_unit) : Z :=
  lastIndexFrom c s 0.

(** [s.startsWith(p)] *)
Fixpoint startsWith (s p : jsstring) : bool :=
  match p, s with
  | [], _ => true
  | _ :: _, [] => false
  | y :: p', x :: s' => N.eqb x y && startsWith s' p'
  end.

(** [parts.join(sep)] *)
Fixpoint join (sep : jsstring) (parts : list jsstring) : jsstring :=
  match parts with
  | [] => []
  | [p] => p
  | p :: rest => p ++ sep ++ join sep rest
  end.

Definition LF : code_unit := 10%N.

(** The code units of [WhiteSpace] and [LineTerminator], which
    [parseInt] skips at the start of its input. *)
Definition isStrWhiteSpaceChar (c : code_unit) : bool :=
  (  (9 <=? c) && (c <=? 13)
  || (c =? 32) || (c =? 160) || (c =? 5760)
  || (8192 <=? c) && (c <=? 8202)
  || (c =? 8232) || (c =? 8233) || (c =? 8239) || (c =? 8287)
  || (c =? 12288) || (c =? 65279))%N.

Fixpoint trimStart (s : jsstring) : jsstring :=
  match s with
  | c :: rest => if isStrWhiteSpaceChar c then trimStart rest else s
  | [] => []
  end.

(** The value of a decimal digit, when the unit is one. *)
Definition digitValue (c : code_unit) : option Z :=
  if ((48 <=? c) && (c <=? 57))%N then Some (Z.of_N c - 48) else None.

(** The values of the longest prefix of decimal digits. *)
Fixpoint digitsPrefix (s : jsstring) : list Z :=
  match s with
  | c :: rest =>
      match digitValue c with
      | Some d => d :: digitsPrefix rest
      | None => []
      end
  | [] => []
  end.

Definition decimalValue (ds : list Z) : Z :=
  fold_left (fun acc d => 10 * acc + d) ds 0.

(** The steps of [parseInt(s, 10)] up to the integer that the input
    denotes ([mathInt] in ECMA-262, with its sign): leading white space
    is skipped, one sign is read, then the longest run of digits; what
    follows the digits is ignored.  [None] when no digit is read, for
    which [parseInt] returns [NaN]. *)
Definition mathInt10 (s : jsstring) : option Z :=
  let s := trimStart s in
  let '(sign, s) :=
    match s with
    | 45%N :: rest => (-1, rest)
    | 43%N :: rest => (1, rest)
    | _ => (1, s)
    end in
  match digitsPrefix s with
  | [] => None
  | ds => Some (sign * decimalValue ds)
  end.

(** A Number that holds an integer, an infinity or [NaN]: the values
    that [parseInt] returns and that remain when an integer is
    subtracted from them.  The zero with a sign is the zero: the code
    compares these numbers and reads array entries with them, for which
    the two zeros are the same. *)
Inductive number : Type :=
| NaN
| Infinity (negative : bool)
| Finite (value : Z).

(** The Number value of an integer.  Up to 2^53 it is the integer.
    Beyond, the double format keeps 53 significant bits: the value is
    the nearest multiple of [2 ^ e], where [e] is what the integer has
    of bits above 53, the even multiple on a tie, and an infinity when
    that is 2^1024 or more. *)
Definition toNumber (z : Z) : number :=
  let a := Z.abs z in
  if a <? 2 ^ 53 then Finite z
  else
    let e := Z.log2 a - 52 in
    let q := a / 2 ^ e in
    let r := a mod 2 ^ e in
    let up := (2 * r >? 2 ^ e) || ((2 * r =? 2 ^ e) && Z.odd q) in
    let v := (if up then q + 1 else q) * 2 ^ e in
    if v >=? 2 ^ 1024 then Infinity (z <? 0) else Finite (Z.sgn z * v).

(** [parseInt(s, 10)]: the Number value of the integer read.  ECMA-262
    allows an implementation to read zeros for the digits after the
    twentieth; V8 does not, and neither does this definition. *)
Definition parseInt10 (s : jsstring) : number :=
  match mathInt10 s with
  | Some v => toNumber v
  | None => NaN
  end.

(** [x - k] for an integer [k] that the double format holds: the exact
    difference, made a Number. *)
Definition minus (x : number) (k : Z) : number :=
  match x with
  | Finite v => toNumber (v - k)
  | _ => x
  end.

(** [isNaN(x)], [x < k] and [x >= k] for an integer [k]. *)
Definition isNaN (x : number) : bool :=
  match x with
  | NaN => true
  | _ => false
  end.

Definition lessThan (x : number) (k : Z) : bool :=
  match x with
  | NaN => false
  | Infinity negative => negative
  | Finite v => v <? k
  end.

Definition atLeast (x : number) (k : Z) : bool :=
  match x with
  | NaN => false
  | Infinity negative => negb negative
  | Finite v => v >=? k
  end.

(** The decimal digits of a [Decimal.uint], most significant first. *)
Fixpoint uintUnits (d : Decimal.uint) : jsstring :=
  match d with
  | Decimal.Nil => []
  | Decimal.D0 r => 48%N :: uintUnits r
  | Decimal.D1 r => 49%N :: uintUnits r
  | Decimal.D2 r => 50%N :: uintUnits r
  | Decimal.D3 r => 51%N :: uintUnits r
  | Decimal.D4 r => 52%N :: uintUnits r
  | Decimal.D5 r => 53%N :: uintUnits r
  | Decimal.D6 r => 54%N :: uintUnits r
  | Decimal.D7 r => 55%N :: uintUnits r
  | Decimal.D8 r => 56%N :: uintUnits r
  | Decimal.D9 r => 57%N :: uintUnits r
  end.

(** [String(n)] for a natural number, as a template literal prints it. *)
Definition ofNat (n : nat) : jsstring := uintUnits (Nat.to_uint n).

End JsString.

Import JsString.

(** ** src/utils.ts *)

Module Utils.

(** [sessionEmojis]: the pool of session markers. *)
Definition sessionEmojis : list jsstring :=
  [ [55357; 56629]; [55357; 57314]; [55357; 56628]; [55357; 57315];
    [55357; 57313]; [55357; 57312]; [10024]; [55357; 56613];
    [55356; 57119]; [55357; 56960]; [55358; 56800]; [55357; 56596];
    [55356; 57263]; [9989]; [55357; 56602]; [9889; 65039];
    [55356; 57096]; [55356; 57152] ]%N.

(** The first entry of [available] that is not in [used]: the loop
    [for (const e of availableEmojis) if (!usedEmojis.has(e)) return e]. *)
Fixpoint firstUnused (used : gset jsstring) (available : list jsstring)
  : option jsstring :=
  match available with
  | [] => None
  | e :: rest =>
      if decide (e ∈ used) then firstUnused used rest else Some e
  end.

(** [pickSessionEmoji(usedEmojis, availableEmojis)].  [rnd] is the
    value of [Math.floor(Math.random() * availableEmojis.length)];
    an index outside the array reads [undefined]. *)
Definition pickSessionEmoji (used : gset jsstring)
    (available : list jsstring) (rnd : nat) : option jsstring :=
  match firstUnused used available with
  | Some e => Some e
  | None => available !! rnd
  end.

(** [parseModelIndex(indexStr, maxIndex)], for a bound that is an
    integer.  The number returned is -1 or [index], which is then finite
    and an integer. *)
Definition parseModelIndex (indexStr : option jsstring) (maxIndex : Z) : Z :=
  if negb (truthy indexStr) then -1
  else
    let index := minus (parseInt10 (default [] indexStr)) 1 in
    if isNaN index || lessThan index 0 || atLeast index maxIndex then -1
    else
      match index with
      | Finite i => i
      | _ => -1                        (* not reached *)
      end.

(** [parseDirectoryIndex(indexStr, maxIndex)] *)
Definition parseDirectoryIndex (indexStr : option jsstring) (maxIndex : Z)
  : Z :=
  if negb (truthy indexStr) then -1
  else
    let index := minus (parseInt10 (default [] indexStr)) 1 in
    if isNaN index || lessThan index 0 || atLeast index maxIndex then -1
    else
      match index with
      | Finite i => i
      | _ => -1                        (* not reached *)
      end.

(** One turn of the loop of [splitLongMessage]: the chunk cut from the
    front of [remaining].  The test [lastNewline > maxLen * 0.8] is on
    integers [5 * lastNewline > 4 * maxLen]. *)
Definition nextChunk (remaining : jsstring) (maxLen : Z) : jsstring :=
  let chunk := slice remaining 0 maxLen in
  if len remaining >? maxLen then
    let lastNewline := lastIndexOf chunk LF in
    if 5 * lastNewline >? 4 * maxLen
    then slice remaining 0 (lastNewline + 1)
    else chunk
  else chunk.

(** The [while (remaining.length > 0)] loop of [splitLongMessage], with
    a bound on the number of turns: [None] when the bound is reached
    before the loop ends. *)
Fixpoint splitLoop (fuel : nat) (remaining : jsstring) (maxLen : Z)
    (chunks : list jsstring) : option (list jsstring) :=
  match fuel with
  | O => None
  | S fuel' =>
      if len remaining >? 0 then
        let chunk := nextChunk remaining maxLen in
        splitLoop fuel' (sliceFrom remaining (len chunk)) maxLen
                  (chunks ++ [chunk])
      else Some chunks
  end.

(** [splitLongMessage(text, maxLen)] *)
Definition splitLongMessage (fuel : nat) (text : jsstring) (maxLen : Z)
  : option (list jsstring) :=
  splitLoop fuel text maxLen [].

(** What makes a list of chunks a correct split of [text]. *)
Definition splits (maxLen : Z) (chunks : list jsstring) (text : jsstring)
  : Prop :=
  Forall (fun c => c <> [] /\ len c <= maxLen) chunks
  /\ concat chunks = text.

End Utils.

(** ** src/index.ts: the per-chat state and its handlers *)

Module Index.
Import Utils.

(** Handles of the Copilot SDK: a client process and a session in it. *)
Abbreviation ClientHandle := nat (only parsing).
Abbreviation SessionHandle := nat (only parsing).

(** [event.type] of a [SessionEvent], as [handleSessionEvent] switches
    on it; [other_event] is every type its [default] case takes. *)
Inductive SessionEventType : Type :=
| assistant_message
| assistant_message_delta
| tool_execution_start
| tool_execution_complete
| session_idle
| other_event.

Record SessionEvent : Type := mkEvent {
  ev_type : SessionEventType;
  ev_id : jsstring;
}.

(** [interface ChatState].  The fields [toolStartMessages],
    [recentModels] and [availableDirs] are left out: no function of this
    module reads or writes them.  They are kept apart, in
    [Commands.Extra]. *)
Record ChatState : Type := mkChatState {
  client : option ClientHandle;
  session : option SessionHandle;
  dir : option jsstring;
  model : jsstring;
  busy : bool;
  queue : list jsstring;
  resetting : bool;
  images : option (list jsstring);
  emoji : option jsstring;
  currentPrompt : option jsstring;
  awaitingFinal : option bool;
  pendingCompletion : option bool;
  eventQueue : option (list SessionEvent);
  processingEvents : option bool;
  originalMessageId : option Z;
  turnCount : option Z;
}.

(** Assignments [state.f = v]. *)
Definition set_client (v : option ClientHandle) (st : ChatState) : ChatState :=
  {| client := v; session := session st; dir := dir st;
     model := model st; busy := busy st; queue := queue st;
     resetting := resetting st; images := images st; emoji := emoji st;
     currentPrompt := currentPrompt st;
     awaitingFinal := awaitingFinal st;
     pendingCompletion := pendingCompletion st;
     eventQueue := eventQueue st;
     processingEvents := processingEvents st;
     originalMessageId := originalMessageId st;
     turnCount := turnCount st |}.

Definition set_session (v : option SessionHandle) (st : ChatState) : ChatState :=
  {| client := client st; session := v; dir := dir st; model := model st;
     busy := busy st; queue := queue st; resetting := resetting st;
     images := images st; emoji := emoji st;
     currentPrompt := currentPrompt st;
     awaitingFinal := awaitingFinal st;
     pendingCompletion := pendingCompletion st;
     eventQueue := eventQueue st;
     processingEvents := processingEvents st;
     originalMessageId := originalMessageId st;
     turnCount := turnCount st |}.

Definition set_dir (v : option jsstring) (st : ChatState) : ChatState :=
  {| client := client st; session := session st; dir := v;
     model := model st; busy := busy st; queue := queue st;
     resetting := resetting st; images := images st; emoji := emoji st;
     currentPrompt := currentPrompt st;
     awaitingFinal := awaitingFinal st;
     pendingCompletion := pendingCompletion st;
     eventQueue := eventQueue st;
     processingEvents := processingEvents st;
     originalMessageId := originalMessageId st;
     turnCount := turnCount st |}.

Definition set_model (v : jsstring) (st : ChatState) : ChatState :=
  {| client := client st; session := session st; dir := dir st;
     model := v; busy := busy st; queue := queue st;
     resetting := resetting st; images := images st; emoji := emoji st;
     currentPrompt := currentPrompt st;
     awaitingFinal := awaitingFinal st;
     pendingCompletion := pendingCompletion st;
     eventQueue := eventQueue st;
     processingEvents := processingEvents st;
     originalMessageId := originalMessageId st;
     turnCount := turnCount st |}.

Definition set_busy (v : bool) (st : ChatState) : ChatState :=
  {| client := client st; session := session st; dir := dir st;
     model := model st; busy := v; queue := queue st;
     resetting := resetting st; images := images st; emoji := emoji st;
     currentPrompt := currentPrompt st;
     awaitingFinal := awaitingFinal st;
     pendingCompletion := pendingCompletion st;
     eventQueue := eventQueue st;
     processingEvents := processingEvents st;
     originalMessageId := originalMessageId st;
     turnCount := turnCount st |}.

Definition set_queue (v : list jsstring) (st : ChatState) : ChatState :=
  {| client := client st; session := session st; dir := dir st;
     model := model st; busy := busy st; queue := v;
     resetting := resetting st; images := images st; emoji := emoji st;
     currentPrompt := currentPrompt st;
     awaitingFinal := awaitingFinal st;
     pendingCompletion := pendingCompletion st;
     eventQueue := eventQueue st;
     processingEvents := processingEvents st;
     originalMessageId := originalMessageId st;
     turnCount := turnCount st |}.

Definition set_resetting (v : bool) (st : ChatState) : ChatState :=
  {| client := client st; session := session st; dir := dir st;
     model := model st; busy := busy st; queue := queue st;
     resetting := v; images := images st; emoji := emoji st;
     currentPrompt := currentPrompt st;
     awaitingFinal := awaitingFinal st;
     pendingCompletion := pendingCompletion st;
     eventQueue := eventQueue st;
     processingEvents := processingEvents st;
     originalMessageId := originalMessageId st;
     turnCount := turnCount st |}.

Definition set_images (v : option (list jsstring)) (st : ChatState) : ChatState :=
  {| client := client st; session := session st; dir := dir st;
     model := model st; busy := busy st; queue := queue st;
     resetting := resetting st; images := v; emoji := emoji st;
     currentPrompt := currentPrompt st;
     awaitingFinal := awaitingFinal st;
     pendingCompletion := pendingCompletion st;
     eventQueue := eventQueue st;
     processingEvents := processingEvents st;
     originalMessageId := originalMessageId st;
     turnCount := turnCount st |}.

Definition set_emoji (v : option jsstring) (st : ChatState) : ChatState :=
  {| client := client st; session := session st; dir := dir st;
     model := model st; busy := busy st; queue := queue st;
     resetting := resetting st; images := images st; emoji := v;
     currentPrompt := currentPrompt st;
     awaitingFinal := awaitingFinal st;
     pendingCompletion := pendingCompletion st;
     eventQueue := eventQueue st;
     processingEvents := processingEvents st;
     originalMessageId := originalMessageId st;
     turnCount := turnCount st |}.

Definition set_currentPrompt (v : option jsstring) (st : ChatState) : ChatState :=
  {| client := client st; session := session st; dir := dir st;
     model := model st; busy := busy st; queue := queue st;
     resetting := resetting st; images := images st; emoji := emoji st;
     currentPrompt := v; awaitingFinal := awaitingFinal st;
     pendingCompletion := pendingCompletion st;
     eventQueue := eventQueue st;
     processingEvents := processingEvents st;
     originalMessageId := originalMessageId st;
     turnCount := turnCount st |}.

Definition set_awaitingFinal (v : option bool) (st : ChatState) : ChatState :=
  {| client := client st; session := session st; dir := dir st;
     model := model st; busy := busy st; queue := queue st;
     resetting := resetting st; images := images st; emoji := emoji st;
     currentPrompt := currentPrompt st; awaitingFinal := v;
     pendingCompletion := pendingCompletion st;
     eventQueue := eventQueue st;
     processingEvents := processingEvents st;
     originalMessageId := originalMessageId st;
     turnCount := turnCount st |}.

Definition set_pendingCompletion (v : option bool) (st : ChatState) : ChatState :=
  {| client := client st; session := session st; dir := dir st;
     model := model st; busy := busy st; queue := queue st;
     resetting := resetting st; images := images st; emoji := emoji st;
     currentPrompt := currentPrompt st;
     awaitingFinal := awaitingFinal st; pendingCompletion := v;
     eventQueue := eventQueue st;
     processingEvents := processingEvents st;
     originalMessageId := originalMessageId st;
     turnCount := turnCount st |}.

Definition set_eventQueue (v : option (list SessionEvent)) (st : ChatState) : ChatState :=
  {| client := client st; session := session st; dir := dir st;
     model := model st; busy := busy st; queue := queue st;
     resetting := resetting st; images := images st; emoji := emoji st;
     currentPrompt := currentPrompt st;
     awaitingFinal := awaitingFinal st;
     pendingCompletion := pendingCompletion st; eventQueue := v;
     processingEvents := processingEvents st;
     originalMessageId := originalMessageId st;
     turnCount := turnCount st |}.

Definition set_processingEvents (v : option bool) (st : ChatState) : ChatState :=
  {| client := client st; session := session st; dir := dir st;
     model := model st; busy := busy st; queue := queue st;
     resetting := resetting st; images := images st; emoji := emoji st;
     currentPrompt := currentPrompt st;
     awaitingFinal := awaitingFinal st;
     pendingCompletion := pendingCompletion st;
     eventQueue := eventQueue st; processingEvents := v;
     originalMessageId := originalMessageId st;
     turnCount := turnCount st |}.

Definition set_originalMessageId (v : option Z) (st : ChatState) : ChatState :=
  {| client := client st; session := session st; dir := dir st;
     model := model st; busy := busy st; queue := queue st;
     resetting := resetting st; images := images st; emoji := emoji st;
     currentPrompt := currentPrompt st;
     awaitingFinal := awaitingFinal st;
     pendingCompletion := pendingCompletion st;
     eventQueue := eventQueue st;
     processingEvents := processingEvents st; originalMessageId := v;
     turnCount := turnCount st |}.

Definition set_turnCount (v : option Z) (st : ChatState) : ChatState :=
  {| client := client st; session := session st; dir := dir st;
     model := model st; busy := busy st; queue := queue st;
     resetting := resetting st; images := images st; emoji := emoji st;
     currentPrompt := currentPrompt st;
     awaitingFinal := awaitingFinal st;
     pendingCompletion := pendingCompletion st;
     eventQueue := eventQueue st;
     processingEvents := processingEvents st;
     originalMessageId := originalMessageId st; turnCount := v |}.

(** [const chatStates = new Map<number, ChatState>()] *)
Abbreviation ChatStates := (gmap Z ChatState) (only parsing).

(** What the environment fixes before the bot runs. *)
Record Config : Type := mkConfig {
  telegramToken : jsstring;       (* process.env.TELEGRAM_BOT_TOKEN *)
  ownerChatId : option Z;         (* process.env.OWNER_CHAT_ID, parsed *)
  defaultModel : jsstring;        (* process.env.COPILOT_MODEL || 'gpt-5-mini' *)
}.

(** An error value, by the text of its [message]. *)
Inductive JsError : Type :=
| ErrorMessage (message : jsstring)
  (* `無法切換到工作目錄 ${directory}: ${message}` *)
| CannotChdir (directory message : jsstring).

(** How a call into the outside world ends. *)
Inductive Outcome : Type :=
| Resolves
| Rejects (err : JsError).

(** How a function of the bot ends. *)
Inductive Completion : Type :=
| Returned
| Thrown (err : JsError).

(** The texts the modelled handlers send to the chat, one constructor
    per literal of the source. *)
Inductive BotText : Type :=
| TxtNotOwner                          (* sendNotOwnerMessage *)
| TxtNoSession                         (* '請先用 /dirs 查看並選擇工作目錄。' *)
| TxtPleaseWait                        (* '⚠️ 正在重新啟動 Copilot session，請稍後再試。' *)
| TxtQueued                            (* '🕒 任務已加入等待佇列。' *)
| TxtSendError (err : JsError)         (* `❗ 發送提示時發生錯誤：${message}` *)
| TxtQueuedSendError (err : JsError)   (* `❗ 執行提示時發生錯誤：${message}` *)
| TxtImagesAdded (count : Z)           (* `✅ 已將圖片加入參考上下文（共 ${n} 張）。` *)
| TxtImageError                        (* '❗ 處理圖片時發生錯誤（已忽略）。' *)
| TxtResetNoSession                    (* '目前沒有正在運行的 session。...' *)
| TxtResetStarting                     (* '🔄 正在重新啟動 Copilot session...' *)
| TxtResetDone                         (* '✅ Copilot session 已重新啟動！...' *)
| TxtResetNoDir                        (* '❗ 重設失敗：找不到工作目錄。...' *)
| TxtResetFailed (err : JsError)       (* `❗ 重設失敗：${message}...` *)
| TxtCbResetStarting                   (* '⚙️ 正在重新啟動 Copilot session...' *)
| TxtCbResetDone                       (* '✅ Session 已重新啟動。' *)
| TxtCbResetFailed (err : JsError).    (* `❗ 重啟失敗：${message}` *)

(** The calls a handler makes into the outside world, in the order it
    makes them. *)
Inductive Effect : Type :=
| BotSendMessage (chatId : Z) (text : BotText)
| BotSendStatus (chatId : Z) (replyTo : option Z) (showCompletion : bool)
| BotSendWelcome (chatId : Z)
| BotAnswerCallbackQuery
| BotGetFile (fileId : jsstring)
| SessionSend (s : SessionHandle) (prompt : jsstring)
| SessionAbort (s : SessionHandle)
| SessionDestroy (s : SessionHandle)
| SessionOn (s : SessionHandle) (chatId : Z)
| ClientStop (c : ClientHandle)
| ClientStart (c : ClientHandle)
| ClientCreateSession (c : ClientHandle) (model : jsstring)
| ProcessChdir (directory : jsstring).

(** [isOwner(chatId)]: [!ownerChatId || chatId === ownerChatId] *)
Definition isOwner (cfg : Config) (chatId : Z) : bool :=
  match ownerChatId cfg with
  | None => true
  | Some o => (o =? 0) || (chatId =? o)
  end.

(** The emojis that the states of [chatStates] hold:
    [for (const s of chatStates.values()) if (s.emoji) used.add(s.emoji)] *)
Definition usedEmojis (cs : ChatStates) : gset jsstring :=
  list_to_set
    (omap (fun kv => if truthy (emoji kv.2) then emoji kv.2 else None)
          (map_to_list cs)).

(** [pickSessionEmoji()] of index.ts.  [rnd] is the value of
    [Math.floor(Math.random() * sessionEmojis.length)]. *)
Definition pickSessionEmoji (cs : ChatStates) (rnd : nat) : option jsstring :=
  match firstUnused (usedEmojis cs) sessionEmojis with
  | Some e => Some e
  | None => sessionEmojis !! rnd
  end.

(** [appendImagesToPrompt(prompt, images)] *)
Definition appendImagesToPrompt (prompt : jsstring)
    (images : option (list jsstring)) : jsstring :=
  match images with
  | None | Some [] => prompt
  | Some imgs =>
      let list :=
        join [LF]
             (imap (fun i u => ofNat (i + 1) ++ lit ". " ++ u) imgs) in
      prompt ++ [LF; LF; 21443; 32771; 22294; 29255; 65306; LF]%N ++ list
  end.

(** The object literal with which a handler creates the state of a chat
    it has not seen. *)
Definition freshState (model : jsstring) (emoji : option jsstring)
  : ChatState :=
  {| client := None; session := None; dir := None; model := model;
     busy := false; queue := []; resetting := false; images := Some [];
     emoji := emoji; currentPrompt := None;
     awaitingFinal := Some false; pendingCompletion := Some false;
     eventQueue := None; processingEvents := None;
     originalMessageId := None; turnCount := None |}.

(** *** startSession *)

(** What the outside world answers during one call of [startSession]. *)
Record StartEnv : Type := mkStartEnv {
  rndOnCreate : nat;               (* random draw of the pick at line 630 *)
  destroyOutcome : Outcome;        (* state.session.destroy() *)
  stopOutcome : Outcome;           (* state.client.stop() *)
  chdirOutcome : Outcome;          (* process.chdir(directory) *)
  newClient : ClientHandle;        (* new CopilotClient() *)
  clientStartOutcome : Outcome;    (* client.start() *)
  createSessionOutcome : SessionHandle + JsError;  (* client.createSession *)
  stopAfterFailure : Outcome;      (* client.stop() in the catch block *)
  rndOnAssign : nat;               (* random draw of the pick at line 716 *)
}.

(** Lines 618-641: the state of the chat is fetched, or created and
    stored; a truthy [model] argument replaces the model of an existing
    state. *)
Definition ensureState (cfg : Config) (rnd : nat) (cs : ChatStates)
    (chatId : Z) (model : option jsstring) : ChatStates :=
  match cs !! chatId with
  | None =>
      let m := if truthy model then default [] model else defaultModel cfg in
      <[chatId := freshState m (pickSessionEmoji cs rnd)]> cs
  | Some st =>
      if truthy model
      then <[chatId := set_model (default [] model) st]> cs
      else cs
  end.

(** Lines 646-675: an existing session is destroyed, an existing client
    stopped; what either call throws is logged and dropped. *)
Definition teardown (st : ChatState) : ChatState * list Effect :=
  let '(st, e1) :=
    match session st with
    | Some s => (set_session None st, [SessionDestroy s])
    | None => (st, [])
    end in
  let '(st, e2) :=
    match client st with
    | Some c => (set_client None st, [ClientStop c])
    | None => (st, [])
    end in
  (st, e1 ++ e2).

(** Lines 703-716: the assignments of the success path.  The emoji is
    picked last, against the states of all chats, this one included. *)
Definition storeSession (cs : ChatStates) (chatId : Z) (st : ChatState)
    (c : ClientHandle) (s : SessionHandle) (directory : jsstring)
    (rnd : nat) : ChatState :=
  let st := set_client (Some c) st in
  let st := set_session (Some s) st in
  let st := set_dir (Some directory) st in
  let st := set_busy false st in
  let st := set_queue [] st in
  let st := set_resetting false st in
  let st := set_awaitingFinal (Some false) st in
  let st := set_pendingCompletion (Some false) st in
  let st := set_eventQueue (Some []) st in
  let st := set_processingEvents (Some false) st in
  set_emoji (pickSessionEmoji (<[chatId := st]> cs) rnd) st.

(** [startSession(chatId, directory, model)] *)
Definition startSession (cfg : Config) (env : StartEnv) (cs : ChatStates)
    (chatId : Z) (directory : jsstring) (model : option jsstring)
  : ChatStates * list Effect * Completion :=
  let cs := ensureState cfg (rndOnCreate env) cs chatId model in
  match cs !! chatId with
  | None => (cs, [], Returned)          (* not reached: the state was stored *)
  | Some st =>
      let modelToUse := Index.model st in
      let '(st, eTeardown) := teardown st in
      let cs := <[chatId := st]> cs in
      match chdirOutcome env with
      | Rejects err =>
          let message :=
            match err with
            | ErrorMessage m => m
            | CannotChdir _ m => m
            end in
          (cs, eTeardown ++ [ProcessChdir directory],
           Thrown (CannotChdir directory message))
      | Resolves =>
          let c := newClient env in
          let eStart := eTeardown ++ [ProcessChdir directory; ClientStart c] in
          match clientStartOutcome env with
          | Rejects err => (cs, eStart ++ [ClientStop c], Thrown err)
          | Resolves =>
              match createSessionOutcome env with
              | inr err =>
                  (cs,
                   eStart ++ [ClientCreateSession c modelToUse; ClientStop c],
                   Thrown err)
              | inl s =>
                  let st :=
                    storeSession cs chatId st c s directory
                                 (rndOnAssign env) in
                  (<[chatId := st]> cs,
                   eStart ++ [ClientCreateSession c modelToUse;
                              SessionOn s chatId],
                   Returned)
              end
          end
      end
  end.

(** *** The [session.idle] case of handleSessionEvent *)

(** [(state.turnCount ?? 0) + 1] *)
Definition nextTurn (st : ChatState) : option Z :=
  Some (default 0 (turnCount st) + 1).

(** Lines 971-1014, run with no other handler in between and with the
    completion notice and the report of a failed send delivered.
    [sendOutcome] is how [state.session.send] ends, if it is called.
    [Async.handleSessionIdle] has the handler with its awaits. *)
Definition handleSessionIdle (sendOutcome : Outcome) (cs : ChatStates)
    (chatId : Z) : ChatStates * list Effect :=
  match cs !! chatId with
  | None => (cs, [])
  | Some st =>
      let st := set_busy false st in
      let st := set_currentPrompt None st in
      let '(st, eDone) :=
        match queue st with
        | [] =>
            if default false (awaitingFinal st)
            then (set_pendingCompletion (Some true) st, [])
            else (st, [BotSendStatus chatId (originalMessageId st) true])
        | _ :: _ => (st, [])
        end in
      match queue st with
      | [] => (<[chatId := st]> cs, eDone)
      | nextPrompt :: rest =>
          let st := set_queue rest st in
          match truthy (Some nextPrompt), session st with
          | true, Some s =>
              let st := set_busy true st in
              let st := set_currentPrompt (Some nextPrompt) st in
              let st := set_awaitingFinal (Some true) st in
              let st := set_pendingCompletion (Some false) st in
              let st := set_turnCount (nextTurn st) st in
              let promptToSend :=
                appendImagesToPrompt nextPrompt (images st) in
              match sendOutcome with
              | Resolves =>
                  (<[chatId := st]> cs,
                   eDone ++ [SessionSend s promptToSend])
              | Rejects err =>
                  let st := set_busy false st in
                  let st := set_currentPrompt None st in
                  let st := set_awaitingFinal (Some false) st in
                  (<[chatId := st]> cs,
                   eDone ++ [SessionSend s promptToSend;
                             BotSendMessage chatId (TxtQueuedSendError err)])
              end
          | _, _ => (<[chatId := st]> cs, eDone)
          end
      end
  end.

(** *** bot.on('message') *)

(** The fields of a Telegram message that the handler reads. *)
Record Message : Type := mkMessage {
  msg_chat_id : Z;                                  (* msg.chat.id *)
  msg_message_id : Z;                               (* msg.message_id *)
  msg_text : option jsstring;                       (* msg.text *)
  msg_caption : option jsstring;                    (* msg.caption *)
  msg_photo : option (list jsstring);               (* file_id of each size *)
  msg_document : option (option jsstring * jsstring);  (* mime_type, file_id *)
}.

(** What the outside world answers during one run of the handler. *)
Record MessageEnv : Type := mkMessageEnv {
  rndOnImage : nat;                          (* random draw at line 1824 *)
  getFile : jsstring -> jsstring + JsError;  (* file_path of bot.getFile *)
  sendOutcome : Outcome;                     (* state.session.send *)
}.

(** [msg.text || msg.caption] *)
Definition captionOrText (msg : Message) : option jsstring :=
  if truthy (msg_text msg) then msg_text msg else msg_caption msg.

Definition hasPhoto (msg : Message) : bool :=
  match msg_photo msg with
  | Some (_ :: _) => true
  | _ => false
  end.

Definition isImageDocument (msg : Message) : bool :=
  match msg_document msg with
  | Some (Some mime, _) => startsWith mime (lit "image/")
  | _ => false
  end.

(** `https://api.telegram.org/file/bot${telegramToken}/${file.file_path}` *)
Definition fileUrl (cfg : Config) (filePath : jsstring) : jsstring :=
  lit "https://api.telegram.org/file/bot" ++ telegramToken cfg
      ++ lit "/" ++ filePath.

(** The file whose URL the handler stores: the last photo size, or the
    image document. *)
Definition attachedFileId (msg : Message) : option jsstring :=
  if hasPhoto msg then last (default [] (msg_photo msg))
  else if isImageDocument msg then snd <$> msg_document msg
  else None.

(** Lines 1812-1853, run with no other handler in between and with the
    messages to the chat delivered: the state of the chat is created if
    it is missing, and the URL of the attached image is pushed on
    [state.images]; an error of [getFile] is reported and dropped. *)
Definition storeAttachment (cfg : Config) (env : MessageEnv)
    (cs : ChatStates) (msg : Message) : ChatStates * list Effect :=
  let chatId := msg_chat_id msg in
  let cs :=
    match cs !! chatId with
    | Some _ => cs
    | None =>
        <[chatId := freshState (defaultModel cfg)
                               (pickSessionEmoji cs (rndOnImage env))]> cs
    end in
  match cs !! chatId, attachedFileId msg with
  | Some st, Some fileId =>
      match getFile env fileId with
      | inl filePath =>
          let imgs := default [] (images st) ++ [fileUrl cfg filePath] in
          (<[chatId := set_images (Some imgs) st]> cs,
           [BotGetFile fileId;
            BotSendMessage chatId (TxtImagesAdded (Z.of_nat (length imgs)))])
      | inr _ =>
          (cs, [BotGetFile fileId; BotSendMessage chatId TxtImageError])
      end
  | _, _ => (cs, [])
  end.

(** Lines 1861-1912, with the messages to the chat delivered: the
    prompt is refused, queued or sent. *)
Definition dispatchPrompt (env : MessageEnv) (cs : ChatStates)
    (msg : Message) : ChatStates * list Effect :=
  let chatId := msg_chat_id msg in
  if negb (truthy (captionOrText msg)) then (cs, [])
  else
    let text := default [] (captionOrText msg) in
    if startsWith text (lit "/") then (cs, [])
    else
      match cs !! chatId with
      | None => (cs, [BotSendMessage chatId TxtNoSession])
      | Some st =>
          match session st, truthy (dir st) with
          | Some s, true =>
              if resetting st
              then (cs, [BotSendMessage chatId TxtPleaseWait])
              else
                let promptToSend := appendImagesToPrompt text (images st) in
                if busy st then
                  (<[chatId := set_queue (queue st ++ [text]) st]> cs,
                   [BotSendMessage chatId TxtQueued])
                else
                  let st := set_busy true st in
                  let st := set_currentPrompt (Some text) st in
                  let st := set_awaitingFinal (Some true) st in
                  let st := set_pendingCompletion (Some false) st in
                  let st :=
                    set_originalMessageId (Some (msg_message_id msg)) st in
                  let st := set_turnCount (nextTurn st) st in
                  match sendOutcome env with
                  | Resolves =>
                      (<[chatId := st]> cs, [SessionSend s promptToSend])
                  | Rejects err =>
                      let st := set_busy false st in
                      let st := set_currentPrompt None st in
                      let st := set_awaitingFinal (Some false) st in
                      (<[chatId := st]> cs,
                       [SessionSend s promptToSend;
                        BotSendMessage chatId (TxtSendError err)])
                  end
          | _, _ => (cs, [BotSendMessage chatId TxtNoSession])
          end
      end.

(** The handler of [bot.on('message')] run alone; [Async.onMessage] has
    the handler with its awaits. *)
Definition onMessage (cfg : Config) (env : MessageEnv) (cs : ChatStates)
    (msg : Message) : ChatStates * list Effect :=
  let chatId := msg_chat_id msg in
  if negb (isOwner cfg chatId) then
    (cs, [BotSendMessage chatId TxtNotOwner])
  else if hasPhoto msg || isImageDocument msg then
    let '(cs, eImage) := storeAttachment cfg env cs msg in
    let '(cs, ePrompt) := dispatchPrompt env cs msg in
    (cs, eImage ++ ePrompt)
  else dispatchPrompt env cs msg.

(** *** /reset and the [cmd_reset] button *)

(** What the outside world answers during one reset. *)
Record ResetEnv : Type := mkResetEnv {
  abortOutcome : Outcome;          (* state.session.abort() *)
  buttonDestroyOutcome : Outcome;  (* state.session.destroy() of cmd_reset *)
  startEnv : StartEnv;             (* the call of startSession *)
}.

(** The handler of [bot.onText(/^\/reset/)], lines 1349-1424, run alone
    and with its messages to the chat delivered; [Async.onReset] has the
    handler with its awaits. *)
Definition onReset (cfg : Config) (env : ResetEnv) (cs : ChatStates)
    (chatId : Z) : ChatStates * list Effect :=
  if negb (isOwner cfg chatId) then
    (cs, [BotSendMessage chatId TxtNotOwner])
  else
    match cs !! chatId with
    | None => (cs, [BotSendMessage chatId TxtResetNoSession])
    | Some st =>
        match session st with
        | None => (cs, [BotSendMessage chatId TxtResetNoSession])
        | Some s =>
            let currentDir := dir st in
            let currentModel := model st in
            let st := set_queue [] st in
            let st := set_resetting true st in
            let st := set_busy false st in
            let st := set_currentPrompt None st in
            let st := set_awaitingFinal (Some false) st in
            let st := set_pendingCompletion (Some false) st in
            let st := set_turnCount (Some 0) st in
            let cs := <[chatId := st]> cs in
            let eBegin :=
              [BotSendMessage chatId TxtResetStarting; SessionAbort s] in
            if truthy currentDir then
              let '(cs, eStart, completion) :=
                startSession cfg (startEnv env) cs chatId
                             (default [] currentDir) (Some currentModel) in
              match completion with
              | Returned =>
                  (cs, eBegin ++ eStart
                         ++ [BotSendMessage chatId TxtResetDone])
              | Thrown err =>
                  (cs, eBegin ++ eStart
                         ++ [BotSendMessage chatId (TxtResetFailed err)])
              end
            else
              (cs, eBegin ++ [BotSendMessage chatId TxtResetNoDir])
        end
    end.

(** The branch [query.data === 'cmd_reset'] of the handler of
    [bot.on('callback_query')], lines 1625-1666, for a query that has
    passed the checks at the head of the handler; run alone and with its
    messages to the chat delivered.  [Async.onResetButton] has the branch
    with its awaits. *)
Definition onResetButton (cfg : Config) (env : ResetEnv) (cs : ChatStates)
    (chatId : Z) : ChatStates * list Effect :=
  match cs !! chatId with
  | None => (cs, [BotAnswerCallbackQuery; BotSendWelcome chatId])
  | Some st =>
      match session st, truthy (dir st) with
      | Some s, true =>
          let currentDir := default [] (dir st) in
          let currentModel := model st in
          let st := set_queue [] st in
          let st := set_resetting true st in
          let st := set_busy false st in
          let st := set_turnCount (Some 0) st in
          let eBegin :=
            [BotAnswerCallbackQuery;
             BotSendMessage chatId TxtCbResetStarting; SessionDestroy s] in
          match buttonDestroyOutcome env with
          | Rejects err =>
              (<[chatId := set_resetting false st]> cs,
               eBegin ++ [BotSendMessage chatId (TxtCbResetFailed err)])
          | Resolves =>
              let st := set_session None st in
              let '(cs, eStart, completion) :=
                startSession cfg (startEnv env) (<[chatId := st]> cs)
                             chatId currentDir (Some currentModel) in
              let cs :=
                match cs !! chatId with
                | Some st => <[chatId := set_resetting false st]> cs
                | None => cs
                end in
              match completion with
              | Returned =>
                  (cs, eBegin ++ eStart
                         ++ [BotSendMessage chatId TxtCbResetDone])
              | Thrown err =>
                  (cs, eBegin ++ eStart
                         ++ [BotSendMessage chatId (TxtCbResetFailed err)])
              end
          end
      | _, _ => (cs, [BotAnswerCallbackQuery; BotSendWelcome chatId])
      end
  end.

(** *** Runs of handlers and what they show *)

(** The prompts that a list of effects hands to [session.send]. *)
Definition sentPrompts (effs : list Effect) : list jsstring :=
  omap (fun e => match e with
                 | SessionSend _ p => Some p
                 | _ => None
                 end) effs.

(** The texts that a list of effects sends to chat [chatId]. *)
Definition chatTexts (chatId : Z) (effs : list Effect) : list BotText :=
  omap (fun e => match e with
                 | BotSendMessage c t => if c =? chatId then Some t else None
                 | _ => None
                 end) effs.

(** A message submits a prompt when it has a text or caption that is
    not a command. *)
Definition isPrompt (msg : Message) : bool :=
  truthy (captionOrText msg)
  && negb (startsWith (default [] (captionOrText msg)) (lit "/")).

Definition promptText (msg : Message) : jsstring :=
  default [] (captionOrText msg).

(** A message that carries an image. *)
Definition hasImage (msg : Message) : bool :=
  hasPhoto msg || isImageDocument msg.

(** The handler of messages run on each message of a list in turn; the
    effects are kept per message. *)
Fixpoint onMessages (cfg : Config) (cs : ChatStates)
    (inputs : list (MessageEnv * Message))
  : ChatStates * list (list Effect) :=
  match inputs with
  | [] => (cs, [])
  | (env, msg) :: rest =>
      let '(cs, effs) := onMessage cfg env cs msg in
      let '(cs, more) := onMessages cfg cs rest in
      (cs, effs :: more)
  end.

(** One [session.idle] event handled per outcome of a list, in turn;
    the effects are kept per event. *)
Fixpoint onIdles (outs : list Outcome) (cs : ChatStates) (chatId : Z)
  : ChatStates * list (list Effect) :=
  match outs with
  | [] => (cs, [])
  | out :: rest =>
      let '(cs, effs) := handleSessionIdle out cs chatId in
      let '(cs, more) := onIdles rest cs chatId in
      (cs, effs :: more)
  end.

(** The chat has a live session: a session handle and a directory. *)
Definition liveSession (st : ChatState) : Prop :=
  is_Some (session st) /\ truthy (dir st) = true.

(** The chat has no session: no state, no handle or no directory. *)
Definition noSession (cs : ChatStates) (chatId : Z) : Prop :=
  match cs !! chatId with
  | None => True
  | Some st => session st = None \/ truthy (dir st) = false
  end.

(** The state that the handler of messages leaves when it accepts the
    prompt of [msg] for an idle chat and the send succeeds: the
    assignments of lines 1894-1901. *)
Definition accepted (msg : Message) (st : ChatState) : ChatState :=
  set_turnCount (nextTurn st)
    (set_originalMessageId (Some (msg_message_id msg))
       (set_pendingCompletion (Some false)
          (set_awaitingFinal (Some true)
             (set_currentPrompt (Some (promptText msg))
                (set_busy true st))))).

(** The state that it leaves when the send fails: the assignments of
    lines 1908-1910 on top. *)
Definition rolledBack (msg : Message) (st : ChatState) : ChatState :=
  set_awaitingFinal (Some false)
    (set_currentPrompt None (set_busy false (accepted msg st))).

(** The state that /reset prepares before it restarts the session: the
    assignments of lines 1373-1379. *)
Definition resetPrepared (st : ChatState) : ChatState :=
  set_turnCount (Some 0)
    (set_pendingCompletion (Some false)
       (set_awaitingFinal (Some false)
          (set_currentPrompt None
             (set_busy false (set_resetting true (set_queue [] st)))))).

(** The inputs are prompts of chat [chatId]. *)
Definition promptsOf (chatId : Z) (inputs : list (MessageEnv * Message))
  : Prop :=
  Forall (fun input => msg_chat_id input.2 = chatId
                       /\ isPrompt input.2 = true) inputs.

(** The prompt queue of a chat; a chat without state has none. *)
Definition queueOf (cs : ChatStates) (chatId : Z) : list jsstring :=
  match cs !! chatId with
  | Some st => queue st
  | None => []
  end.

(** Every chat that has a state is one that the bot serves. *)
Definition servedOnly (cfg : Config) (cs : ChatStates) : Prop :=
  forall chatId st, cs !! chatId = Some st -> isOwner cfg chatId = true.

(** Every prompt waiting in the queue of every chat is a non-empty
    string: the only [queue.push] is on a truthy text. *)
Definition queuesHoldPrompts (cs : ChatStates) : Prop :=
  forall chatId st, cs !! chatId = Some st ->
                    Forall (fun p => p <> []) (queue st).

End Index.

(** ** src/index.ts: the event sequencer

    [enqueueSessionEvent] and [processEventQueue] for one chat.  The drain
    loop is an async function: it gives up control at
    [await handleSessionEvent(...)], and an event that arrives meanwhile is
    enqueued by another run of [enqueueSessionEvent].  A world holds, next
    to the states of the chats, the handlers that have been started and
    have not settled, each of them awaited by one suspended drain loop, and
    the trace of the starts and ends of handlers.  What a handler does in
    between is not part of this model. *)

Module Sequencer.
Import Index.

Inductive Action : Type :=
| Started (e : SessionEvent)
| Finished (e : SessionEvent) (threw : bool).

Record World : Type := mkWorld {
  states : gmap Z ChatState;
  inflight : list SessionEvent;
  trace : list Action;
}.

(** The head of the loop of [processEventQueue]: while the queue is not
    empty its first event is shifted and its handler started; otherwise
    the loop ends and [processingEvents] is cleared. *)
Definition drainNext (chatId : Z) (w : World) : World :=
  match states w !! chatId with
  | None => w
  | Some st =>
      match default [] (eventQueue st) with
      | e :: rest =>
          {| states := <[chatId := set_eventQueue (Some rest) st]> (states w);
             inflight := inflight w ++ [e];
             trace := trace w ++ [Started e] |}
      | [] =>
          {| states :=
               <[chatId := set_processingEvents (Some false) st]> (states w);
             inflight := inflight w;
             trace := trace w |}
      end
  end.

(** [processEventQueue(bot, chatId)] up to its first [await]. *)
Definition processEventQueue (chatId : Z) (w : World) : World :=
  match states w !! chatId with
  | None => w
  | Some st =>
      match eventQueue st with
      | None => w
      | Some _ =>
          if default false (processingEvents st) then w
          else
            drainNext chatId
              {| states :=
                   <[chatId := set_processingEvents (Some true) st]>
                     (states w);
                 inflight := inflight w;
                 trace := trace w |}
      end
  end.

(** [enqueueSessionEvent(bot, chatId, event)] *)
Definition enqueueSessionEvent (chatId : Z) (event : SessionEvent)
    (w : World) : World :=
  match states w !! chatId with
  | None => w
  | Some st =>
      let q := default [] (eventQueue st) ++ [event] in
      processEventQueue chatId
        {| states := <[chatId := set_eventQueue (Some q) st]> (states w);
           inflight := inflight w;
           trace := trace w |}
  end.

(** The [i]-th handler in flight settles, by returning or by throwing;
    the drain loop that awaited it catches what it threw and goes to the
    head of the loop. *)
Definition settle (chatId : Z) (i : nat) (threw : bool) (w : World)
  : option World :=
  match inflight w !! i with
  | None => None
  | Some e =>
      Some (drainNext chatId
              {| states := states w;
                 inflight := delete i (inflight w);
                 trace := trace w ++ [Finished e threw] |})
  end.

(** What can happen to the sequencer of a chat. *)
Inductive Input : Type :=
| Enqueue (event : SessionEvent)
| Settle (i : nat) (threw : bool)
| StartSession (env : StartEnv) (directory : jsstring)
               (model : option jsstring).

Definition step (cfg : Config) (chatId : Z) (w : World) (input : Input)
  : option World :=
  match input with
  | Enqueue event => Some (enqueueSessionEvent chatId event w)
  | Settle i threw => settle chatId i threw w
  | StartSession env directory model =>
      Some {| states :=
                (startSession cfg env (states w) chatId directory model).1.1;
              inflight := inflight w;
              trace := trace w |}
  end.

Fixpoint run (cfg : Config) (chatId : Z) (w : World) (inputs : list Input)
  : option World :=
  match inputs with
  | [] => Some w
  | input :: rest =>
      match step cfg chatId w input with
      | Some w' => run cfg chatId w' rest
      | None => None
      end
  end.

Definition isSessionStart (input : Input) : bool :=
  match input with
  | StartSession _ _ _ => true
  | _ => false
  end.

(** The events a list of inputs enqueues, in order. *)
Definition enqueued (inputs : list Input) : list SessionEvent :=
  omap (fun i => match i with
                 | Enqueue e => Some e
                 | _ => None
                 end) inputs.

(** The events whose handlers a trace starts, in order. *)
Definition started (tr : list Action) : list SessionEvent :=
  omap (fun a => match a with
                 | Started e => Some e
                 | _ => None
                 end) tr.

(** A trace in which no handler starts before the one started before it
    has ended: a run of pairs start-end, then the start of the handler
    [open] that is still running, if any. *)
Definition sequential (tr : list Action) (open : option SessionEvent)
  : Prop :=
  exists ended : list (SessionEvent * bool),
    tr = flat_map (fun d => [Started d.1; Finished d.1 d.2]) ended
         ++ match open with
            | Some e => [Started e]
            | None => []
            end.

(** The event queue of the chat. *)
Definition pending (chatId : Z) (w : World) : list SessionEvent :=
  match states w !! chatId with
  | Some st => default [] (eventQueue st)
  | None => []
  end.

(** No drain loop is running for the chat. *)
Definition quiescent (chatId : Z) (w : World) : Prop :=
  inflight w = [] /\ trace w = []
  /\ exists st, states w !! chatId = Some st
                /\ default false (processingEvents st) = false.

(** At most one handler is in flight, the trace is sequential, and
    [processingEvents] is set exactly while a handler is in flight. *)
Definition wellSequenced (chatId : Z) (w : World) : Prop :=
  exists st,
    states w !! chatId = Some st
    /\ match inflight w with
       | [] => default false (processingEvents st) = false
               /\ sequential (trace w) None
       | [e] => processingEvents st = Some true
                /\ is_Some (eventQueue st)
                /\ sequential (trace w) (Some e)
       | _ => False
       end.

End Sequencer.


(** ** Concrete runs

    The configuration, answers of the outside world, messages and states
    of the examples and of the instances of the theorems. *)

Module Scenario.
Import Utils Index Sequencer.

Definition cfg : Config :=
  {| telegramToken := lit "TOKEN"; ownerChatId := None;
     defaultModel := lit "gpt-5-mini" |}.

(** The same bot reserved to chat 1. *)
Definition cfgOwned : Config :=
  {| telegramToken := lit "TOKEN"; ownerChatId := Some 1;
     defaultModel := lit "gpt-5-mini" |}.

(** Every call of [startSession] succeeds; the session is number 7. *)
Definition startOk : StartEnv :=
  {| rndOnCreate := 0; destroyOutcome := Resolves; stopOutcome := Resolves;
     chdirOutcome := Resolves; newClient := 1;
     clientStartOutcome := Resolves; createSessionOutcome := inl 7%nat;
     stopAfterFailure := Resolves; rndOnAssign := 0 |}.

(** The creation of the session fails. *)
Definition startFails : StartEnv :=
  {| rndOnCreate := 0; destroyOutcome := Resolves; stopOutcome := Resolves;
     chdirOutcome := Resolves; newClient := 2;
     clientStartOutcome := Resolves;
     createSessionOutcome := inr (ErrorMessage (lit "spawn failed"));
     stopAfterFailure := Resolves; rndOnAssign := 0 |}.

Definition resetOk : ResetEnv :=
  {| abortOutcome := Resolves; buttonDestroyOutcome := Resolves;
     startEnv := startOk |}.

Definition resetFails : ResetEnv :=
  {| abortOutcome := Resolves; buttonDestroyOutcome := Resolves;
     startEnv := startFails |}.

Definition msgEnv (out : Outcome) : MessageEnv :=
  {| rndOnImage := 0;
     getFile := fun _ => inl (lit "photos/file_1.jpg");
     sendOutcome := out |}.

(** A text message of chat [chatId]. *)
Definition textMessage (chatId : Z) (text : string) : Message :=
  {| msg_chat_id := chatId; msg_message_id := 100;
     msg_text := Some (lit text); msg_caption := None;
     msg_photo := None; msg_document := None |}.

(** A photo of chat [chatId] with a caption. *)
Definition photoMessage (chatId : Z) (caption : string) : Message :=
  {| msg_chat_id := chatId; msg_message_id := 101;
     msg_text := None; msg_caption := Some (lit caption);
     msg_photo := Some [lit "small"; lit "large"]; msg_document := None |}.

(** Chat 1 after its session has started in directory /w with model m. *)
Definition started1 : gmap Z ChatState :=
  (startSession cfg startOk ∅ 1 (lit "/w") (Some (lit "m"))).1.1.

(** The state of chat 1 in [started1]. *)
Definition state1 : ChatState :=
  {| client := Some 1%nat; session := Some 7%nat;
     dir := Some (lit "/w"); model := lit "m"; busy := false;
     queue := []; resetting := false; images := Some [];
     emoji := Some [55357; 57314]%N; currentPrompt := None;
     awaitingFinal := Some false; pendingCompletion := Some false;
     eventQueue := Some []; processingEvents := Some false;
     originalMessageId := None; turnCount := None |}.

(** Chat 1 after a /reset during which the new session could not be
    created. *)
Definition failedReset1 : gmap Z ChatState :=
  (onReset cfg resetFails started1 1).1.

(** Chat 1 in the middle of a reset, its session still in place. *)
Definition midReset1 : gmap Z ChatState :=
  <[1 := set_resetting true state1]> started1.

(** Chat 1 busy with its first prompt. *)
Definition busy1 : gmap Z ChatState :=
  (onMessage cfg (msgEnv Resolves) started1 (textMessage 1 "task1")).1.

(** The state of chat 1 in [busy1]. *)
Definition busyState1 : ChatState :=
  accepted (textMessage 1 "task1") state1.

(** Two more prompts for chat 1. *)
Definition twoPrompts : list (MessageEnv * Message) :=
  [(msgEnv Resolves, textMessage 1 "task2");
   (msgEnv Resolves, textMessage 1 "task3")].

(** Seventeen chats, numbered from 100, that hold the first seventeen
    markers of the pool. *)
Definition seventeenChats : gmap Z ChatState :=
  list_to_map
    (imap (fun i e => (100 + Z.of_nat i, set_emoji (Some e) state1))
          (take 17 sessionEmojis)).

(** Two events of the session of chat 1. *)
Definition eventA : SessionEvent :=
  {| ev_type := assistant_message; ev_id := lit "a" |}.

Definition eventB : SessionEvent :=
  {| ev_type := session_idle; ev_id := lit "b" |}.

Definition world1 : World :=
  {| states := started1; inflight := []; trace := [] |}.

End Scenario.

(** ** More of the JavaScript library *)

Module JsLib.

(** [s.trimEnd()] and [s.trim()]: the white space of [trim] is the one
    that [parseInt] skips. *)
Definition trimEnd (s : jsstring) : jsstring :=
  reverse (trimStart (reverse s)).

Definition trim (s : jsstring) : jsstring := trimEnd (trimStart s).

(** [s.replace(pat, rep)] for a string pattern and a replacement
    without [$]: the first occurrence of [pat] is replaced. *)
Fixpoint replaceFirst (pat rep s : jsstring) : jsstring :=
  if startsWith s pat then rep ++ drop (length pat) s
  else match s with
       | [] => []
       | c :: rest => c :: replaceFirst pat rep rest
       end.

(** [s.split(sep)] for a separator of one code unit. *)
Fixpoint split (sep : code_unit) (s : jsstring) : list jsstring :=
  match s with
  | [] => [[]]
  | c :: rest =>
      if N.eqb c sep then [] :: split sep rest
      else match split sep rest with
           | p :: ps => (c :: p) :: ps
           | [] => [[c]]
           end
  end.

(** [array.indexOf(x)] counted from [i]: the first position of [x], or
    -1. *)
Fixpoint indexFrom (x : jsstring) (l : list jsstring) (i : Z) : Z :=
  match l with
  | [] => -1
  | y :: rest => if decide (y = x) then i else indexFrom x rest (i + 1)
  end.

Definition indexOf (l : list jsstring) (x : jsstring) : Z := indexFrom x l 0.

(** [`${n}`] for an integer. *)
Definition ofZ (n : Z) : jsstring :=
  if n <? 0 then 45%N :: ofNat (Z.to_nat (- n)) else ofNat (Z.to_nat n).

(** [o || d] for an optional string. *)
Definition orElse (o : option jsstring) (d : jsstring) : jsstring :=
  if truthy o then default [] o else d.

(** Truthiness of an optional number: [undefined] and [0] are falsy. *)
Definition truthyNumber (o : option Z) : bool :=
  match o with
  | Some n => negb (n =? 0)
  | None => false
  end.

End JsLib.

(** ** src/utils.ts: the helpers of the chat target and of the
    directory patterns *)

Module UtilsRest.
Import JsLib.

(** [msg.chat] and [msg.from], by the fields that [formatChatTarget]
    reads. *)
Record Chat : Type := mkChat {
  chat_id : Z;
  chat_type : jsstring;
  chat_title : option jsstring;
  chat_username : option jsstring;
}.

Record User : Type := mkUser {
  first_name : option jsstring;
  last_name : option jsstring;
  username : option jsstring;
}.

(** ['未知'] *)
Definition unknownTarget : jsstring := [26410; 30693]%N.

(** [formatChatTarget(msg)].  A private chat without [msg.from] falls
    out of the conditional, to the [return] of the last line. *)
Definition formatChatTarget (chat : Chat) (from : option User) : jsstring :=
  if bool_decide (chat_type chat = lit "private") then
    match from with
    | Some user =>
        let name :=
          trim (orElse (first_name user) []
                ++ (if truthy (last_name user)
                    then lit " " ++ default [] (last_name user)
                    else [])) in
        if truthy (Some name) then name
        else if truthy (username user)
             then lit "@" ++ default [] (username user)
             else unknownTarget
    | None => unknownTarget
    end
  else if truthy (chat_title chat) then default [] (chat_title chat)
  else if truthy (chat_username chat)
       then lit "@" ++ default [] (chat_username chat)
       else lit "chatId: " ++ ofZ (chat_id chat).

(** [loadDirectoryPatterns(dirname)].  [envValue] is
    [process.env.DIRECTORY_PATTERNS]; [file] is the array that
    [directories.json] holds, each entry printed by [String], and [None]
    when the file cannot be read, is not JSON or holds no array. *)
Definition loadDirectoryPatterns (envValue : option jsstring)
    (file : option (list jsstring)) : list jsstring :=
  if truthy envValue && (len (trim (default [] envValue)) >? 0) then
    List.filter (fun p => len p >? 0)
                (trim <$> split 44%N (default [] envValue))
  else
    match file with
    | Some patterns => patterns
    | None => []
    end.

(** [availableModels]: the list of the models, which index.ts starts
    from. *)
Definition availableModels : list jsstring :=
  [ lit "claude-sonnet-4.5"; lit "claude-haiku-4.5"; lit "claude-opus-4.5";
    lit "claude-sonnet-4"; lit "gpt-5.2-codex"; lit "gpt-5.1-codex-max";
    lit "gpt-5.1-codex"; lit "gpt-5.2"; lit "gpt-5.1"; lit "gpt-5";
    lit "gpt-5.1-codex-mini"; lit "gpt-5-mini"; lit "gpt-4.1";
    lit "gemini-3-pro-preview" ].

End UtilsRest.

(** ** src/index.ts: models, directories, tool messages and the final
    message *)

Module Commands.
Import Utils Index JsLib.

(** *** The fields of the state that [Index.ChatState] leaves out *)

(** [interface ToolStartMessage] *)
Record ToolStartMessage : Type := mkToolStart {
  messageId : Z;
  toolCallId : jsstring;
  toolName : jsstring;
  eventId : jsstring;
  resultKey : option jsstring;
  paramsText : option jsstring;
}.

(** [Map<string, ToolStartMessage>]: the entries, in the order in which
    their keys were first set. *)
Abbreviation ToolMap := (list (jsstring * ToolStartMessage)) (only parsing).

(** [map.get(k)] *)
Fixpoint mapGet (k : jsstring) (m : ToolMap) : option ToolStartMessage :=
  match m with
  | [] => None
  | (k', v) :: rest => if decide (k' = k) then Some v else mapGet k rest
  end.

(** [map.set(k, v)]: the value of an existing key is replaced where it
    stands, a new key goes to the end. *)
Fixpoint mapSet (k : jsstring) (v : ToolStartMessage) (m : ToolMap)
  : ToolMap :=
  match m with
  | [] => [(k, v)]
  | (k', v') :: rest =>
      if decide (k' = k) then (k, v) :: rest
      else (k', v') :: mapSet k v rest
  end.

(** [map.delete(k)] *)
Fixpoint mapDelete (k : jsstring) (m : ToolMap) : ToolMap :=
  match m with
  | [] => []
  | (k', v') :: rest =>
      if decide (k' = k) then rest else (k', v') :: mapDelete k rest
  end.

(** The fields [toolStartMessages], [recentModels] and [availableDirs]
    of the state of a chat.  The state object of a chat is created once
    and never replaced, so these fields are kept in a map of their own,
    beside [chatStates]; a chat without an entry has none of them set. *)
Record Extra : Type := mkExtra {
  toolStartMessages : option ToolMap;
  recentModels : option (list jsstring);
  availableDirs : option (list jsstring);
}.

Definition noExtra : Extra :=
  {| toolStartMessages := None; recentModels := None;
     availableDirs := None |}.

Abbreviation Extras := (gmap Z Extra) (only parsing).

Definition extraOf (xs : Extras) (chatId : Z) : Extra :=
  default noExtra (xs !! chatId).

Definition set_toolStartMessages (v : option ToolMap) (x : Extra) : Extra :=
  {| toolStartMessages := v; recentModels := recentModels x;
     availableDirs := availableDirs x |}.

Definition set_recentModels (v : option (list jsstring)) (x : Extra)
  : Extra :=
  {| toolStartMessages := toolStartMessages x; recentModels := v;
     availableDirs := availableDirs x |}.

Definition set_availableDirs (v : option (list jsstring)) (x : Extra)
  : Extra :=
  {| toolStartMessages := toolStartMessages x;
     recentModels := recentModels x; availableDirs := v |}.


(** *** Recent models and the keyboards *)

(** [addToRecentModels(state, newModel)] *)
Definition addToRecentModels (x : Extra) (newModel : jsstring) : Extra :=
  let recent := default [] (recentModels x) in
  let filtered := filter (fun m => m <> newModel) recent in
  let filtered := newModel :: filtered in
  set_recentModels (Some (take 2 filtered)) x.

(** A button of an inline keyboard. *)
Record Button : Type := mkButton {
  text : jsstring;
  callback_data : jsstring;
}.

(** [{ text: '🧠 切換模型', callback_data: 'cmd_model' }] *)
Definition switchButton : Button :=
  {| text := [55358; 56800; 32; 20999; 25563; 27169; 22411]%N;
     callback_data := lit "cmd_model" |}.

(** [{ text: '📂 選取專案', callback_data: 'cmd_dirs' }] *)
Definition dirsButton : Button :=
  {| text := [55357; 56514; 32; 36984; 21462; 23560; 26696]%N;
     callback_data := lit "cmd_dirs" |}.

(** [{ text: '🔄 重新開始', callback_data: 'cmd_reset' }] *)
Definition resetButton : Button :=
  {| text := [55357; 56580; 32; 37325; 26032; 38283; 22987]%N;
     callback_data := lit "cmd_reset" |}.

(** The body of the loop of [buildModelSwitchRow]: the button of one
    recent model, when the model is in the list of the models. *)
Definition quickButton (models : list jsstring) (m : jsstring)
  : option Button :=
  let modelIndex := indexOf models m in
  if modelIndex =? -1 then None
  else
    let shortName :=
      replaceFirst (lit ".") [] (replaceFirst (lit "claude-") [] m) in
    Some {| text := 9889%N :: shortName;
            callback_data := lit "set_model:" ++ ofZ modelIndex |}.

(** [buildModelSwitchRow(chatId, currentModel)].  [models] is the value
    of the variable [availableModels]. *)
Definition buildModelSwitchRow (models : list jsstring) (cs : ChatStates)
    (xs : Extras) (chatId : Z) (currentModel : option jsstring)
  : list Button :=
  let recent :=
    match cs !! chatId with
    | Some _ => default [] (recentModels (extraOf xs chatId))
    | None => []
    end in
  let modelsToShow :=
    take 2 (filter (fun m => Some m <> currentModel) recent) in
  switchButton :: omap (quickButton models) modelsToShow.

(** The loop [for (let i = 0; i < n; i += 2)] that lays the buttons of
    a list out in rows of two; [mk i a] is the button of the entry [a]
    at position [i]. *)
Fixpoint rowsOfTwo {A : Type} (mk : Z -> A -> Button) (i : Z) (l : list A)
  : list (list Button) :=
  match l with
  | [] => []
  | [a] => [[mk i a]]
  | a :: b :: rest => [mk i a; mk (i + 1) b] :: rowsOfTwo mk (i + 2) rest
  end.

(** The keyboard of /dirs and of the [cmd_dirs] button.  [basename] is
    [path.basename]. *)
Definition dirsKeyboard (basename : jsstring -> jsstring)
    (dirs : list jsstring) : list (list Button) :=
  rowsOfTwo (fun i d => {| text := basename d;
                           callback_data := lit "set_dir:" ++ ofZ i |})
            0 dirs.

(** The keyboard of /model and of the [cmd_model] button: the current
    model carries the prefix ['✓ ']. *)
Definition modelsKeyboard (models : list jsstring)
    (currentModel : jsstring) : list (list Button) :=
  rowsOfTwo (fun i m =>
               {| text := (if decide (m = currentModel)
                           then [10003; 32]%N else []) ++ m;
                  callback_data := lit "set_model:" ++ ofZ i |})
            0 models.

(** *** Tool messages *)

(** [findToolStartMessage(state, toolCallId, parentId)] *)
Definition findToolStartMessage (x : Extra)
    (callId parentId : option jsstring) : option ToolStartMessage :=
  match toolStartMessages x with
  | None => None
  | Some m =>
      match (if truthy callId then mapGet (default [] callId) m
             else None) with
      | Some entry => Some entry
      | None =>
          if truthy parentId then
            List.find (fun entry =>
                         bool_decide (eventId entry = default [] parentId))
                      m.*2
          else None
      end
  end.

(** Lines 873-884 of the [tool.execution_start] case: the start message
    is stored under the id of the tool call, or under the id of the
    event when the call has none.  [sentId] is the id of the message
    just sent, [key] the result key just generated, [params] the text of
    the parameters. *)
Definition storeToolStart (x : Extra) (evId : jsstring)
    (callId : option jsstring) (name : jsstring) (key : jsstring)
    (params : option jsstring) (sentId : Z) : Extra :=
  let m := default [] (toolStartMessages x) in
  let toolKey := orElse callId evId in
  set_toolStartMessages
    (Some (mapSet toolKey
                  {| messageId := sentId;
                     toolCallId := orElse callId toolKey;
                     toolName := name;
                     eventId := evId;
                     resultKey := Some key;
                     paramsText := params |}
                  m)) x.

(** Lines 892 and 965-968 of the [tool.execution_complete] case: the
    start message that the case finds, and the state once the case has
    dropped it. *)
Definition completeTool (x : Extra) (callId parentId : option jsstring)
  : option ToolStartMessage * Extra :=
  let startEntry := findToolStartMessage x callId parentId in
  match startEntry with
  | Some entry =>
      (startEntry,
       set_toolStartMessages
         (mapDelete (toolCallId entry) <$> toolStartMessages x) x)
  | None => (None, x)
  end.

(** *** What the handlers below send *)

(** The texts of [answerCallbackQuery]. *)
Inductive Toast : Type :=
| ToastNoDirs                      (* '目前沒有設定任何工作目錄' *)
| ToastBadDir                      (* '無效的目錄編號' *)
| ToastDir (name : jsstring)       (* `選擇：${path.basename(dir)}` *)
| ToastBadModel                    (* '無效的模型編號' *)
| ToastModel (m : jsstring).       (* `選擇：${selectedModel}` *)

(** The texts of the messages, one constructor per literal. *)
Inductive CmdText : Type :=
| TxtNoDirs                        (* '目前沒有設定任何工作目錄。請設定...' *)
| TxtChooseDir                     (* '請選擇工作目錄：' *)
| TxtDirChosen (d : jsstring)      (* `✅ 已選擇工作目錄：${dir}` *)
| TxtStartFailed (err : JsError)   (* `❗ 無法啟動 Copilot session：${message}` *)
| TxtModelList (current : jsstring)    (* `可選擇的 AI 模型：...目前使用：${currentModel}` *)
| TxtChooseModel (current : jsstring)  (* `請選擇 AI 模型（目前：${currentModel}）` *)
| TxtBadModel                      (* '無效的模型編號。請使用 /model 查看可用模型。' *)
| TxtModelNoSessionCmd (m : jsstring)  (* `✅ 已設定模型為：${m}\n請使用 /dirs 查看並選擇...` *)
| TxtModelNoSession (m : jsstring)     (* `✅ 已設定模型為：${m}\n請使用 /dirs 選擇...` *)
| TxtModelSwitched (m : jsstring)      (* `✅ 已切換模型為：${m}\nSession 已重新啟動。` *)
| TxtModelSwitchFailed (err : JsError) (* `❗ 切換模型失敗：${message}` *)
| TxtModelSet (m : jsstring).          (* `✅ 已設定模型為：${m}` *)

(** The calls into the outside world: those of [Index.Effect], and the
    ones that carry a text, a keyboard or a toast. *)
Inductive Call : Type :=
| Core (e : Effect)
| Answer (toast : Toast)
| Send (chatId : Z) (t : CmdText) (keyboard : list (list Button))
| SendRaw (chatId : Z) (t : jsstring) (replyTo : option Z)
| SendLong (chatId : Z) (t : jsstring).

(** *** sendLongMessage *)

(** The header that [sendLongMessage] puts before the text. *)
Definition longHeader (basename : jsstring -> jsstring)
    (state : option ChatState) : jsstring :=
  let robot : jsstring := [55358; 56598; 32]%N in
  let emoji :=
    match state with
    | Some st => if truthy (Index.emoji st)
                 then default [] (Index.emoji st) ++ lit " " else robot
    | None => robot
    end in
  let dirName :=
    match state with
    | Some st => if truthy (dir st) then basename (default [] (dir st))
                 else []
    | None => []
    end in
  if truthy (Some dirName)
  then emoji ++ lit "Copilot " ++ [8729%N] ++ lit " " ++ dirName ++ [LF; LF]
  else emoji ++ lit "Copilot" ++ [LF; LF].

(** The loop of [sendLongMessage], with a bound on the number of turns:
    the chunks handed to [bot.sendMessage], each with the message it
    replies to. *)
Fixpoint sendLoop (fuel : nat) (remaining : jsstring) (isFirst : bool)
    (replyToMessageId : option Z) : option (list (jsstring * option Z)) :=
  match fuel with
  | O => None
  | S fuel' =>
      if len remaining >? 0 then
        let maxLen := 4096 in
        let chunk := slice remaining 0 maxLen in
        let chunk :=
          if len remaining >? maxLen then
            let lastNewline := lastIndexOf chunk LF in
            if 5 * lastNewline >? 4 * maxLen
            then slice remaining 0 (lastNewline + 1)
            else chunk
          else chunk in
        let options :=
          if isFirst && truthyNumber replyToMessageId
          then replyToMessageId else None in
        match sendLoop fuel' (sliceFrom remaining (len chunk)) false
                       replyToMessageId with
        | Some sent => Some ((chunk, options) :: sent)
        | None => None
        end
      else Some []
  end.

(** [sendLongMessage(bot, chatId, text, replyToMessageId)] *)
Definition sendLongMessage (fuel : nat) (basename : jsstring -> jsstring)
    (cs : ChatStates) (chatId : Z) (t : jsstring)
    (replyToMessageId : option Z) : option (list Call) :=
  let t := longHeader basename (cs !! chatId) ++ t in
  match sendLoop fuel t true replyToMessageId with
  | Some sent => Some ((fun cr => SendRaw chatId cr.1 cr.2) <$> sent)
  | None => None
  end.

(** *** The [assistant.message] cases of handleSessionEvent *)

(** Lines 801-816.  [content] is [event.data.content] when it is a
    string. *)
Definition handleAssistantMessage (cs : ChatStates) (chatId : Z)
    (content : option jsstring) : ChatStates * list Call :=
  match cs !! chatId with
  | None => (cs, [])
  | Some st =>
      let eText :=
        match content with
        | Some c => if len (trim c) >? 0 then [SendLong chatId c] else []
        | None => []
        end in
      let st := set_awaitingFinal (Some false) st in
      if default false (pendingCompletion st)
         && (Z.of_nat (length (queue st)) =? 0)
      then
        let st := set_pendingCompletion (Some false) st in
        (<[chatId := st]> cs,
         eText ++ [Core (BotSendStatus chatId (originalMessageId st) true)])
      else (<[chatId := st]> cs, eText)
  end.

(** Lines 817-827.  [deltaContent] is [event.data.deltaContent] when it
    is a string. *)
Definition handleAssistantDelta (cs : ChatStates) (chatId : Z)
    (deltaContent : option jsstring) : ChatStates * list Call :=
  match cs !! chatId with
  | None => (cs, [])
  | Some _ =>
      match deltaContent with
      | Some d =>
          if len (trim d) >? 0 then (cs, [SendRaw chatId d None])
          else (cs, [])
      | None => (cs, [])
      end
  end.

End Commands.

(** ** src/index.ts: the commands and buttons of directories and models *)

Module Handlers.
Import Utils Index JsLib Commands.

(** What the outside world answers during one run of a handler of this
    part. *)
Record QueryEnv : Type := mkQueryEnv {
  dirsOnDisk : list jsstring;      (* getAvailableDirectories() *)
  resetEnv : ResetEnv;             (* the calls of a reset or a start *)
}.

(** The object literal of /dirs, /model and their buttons: a state
    without emoji. *)
Definition bareState (m : jsstring) : ChatState := freshState m None.

(** Lines 1181-1224 of /dirs, and the same lines of the [cmd_dirs]
    button: the list is stored in the state of the chat, which is
    created if it is missing, and shown as a keyboard. *)
Definition showDirs (cfg : Config) (basename : jsstring -> jsstring)
    (env : QueryEnv) (cs : ChatStates) (xs : Extras) (chatId : Z)
  : ChatStates * Extras * list Call :=
  let availableDirectories := dirsOnDisk env in
  match availableDirectories with
  | [] => (cs, xs, [Send chatId TxtNoDirs []])
  | _ :: _ =>
      let cs :=
        match cs !! chatId with
        | Some _ => cs
        | None => <[chatId := bareState (defaultModel cfg)]> cs
        end in
      let xs :=
        <[chatId := set_availableDirs (Some availableDirectories)
                                      (extraOf xs chatId)]> xs in
      (cs, xs,
       [Send chatId TxtChooseDir (dirsKeyboard basename availableDirectories)])
  end.

(** The handler of [bot.onText(/^\/dirs/)]. *)
Definition onDirs (cfg : Config) (basename : jsstring -> jsstring)
    (env : QueryEnv) (cs : ChatStates) (xs : Extras) (chatId : Z)
  : ChatStates * Extras * list Call :=
  if negb (isOwner cfg chatId) then
    (cs, xs, [Core (BotSendMessage chatId TxtNotOwner)])
  else showDirs cfg basename env cs xs chatId.

(** The handler of [bot.onText(/^\/model(?:\s+(\d+))?/)], lines
    1228-1346.  [indexStr] is [match?.[1]], [models] the value of the
    variable [availableModels]. *)
Definition onModel (cfg : Config) (models : list jsstring) (env : QueryEnv)
    (cs : ChatStates) (xs : Extras) (chatId : Z)
    (indexStr : option jsstring) : ChatStates * Extras * list Call :=
  if negb (isOwner cfg chatId) then
    (cs, xs, [Core (BotSendMessage chatId TxtNotOwner)])
  else if negb (truthy indexStr) then
    let currentModel :=
      match cs !! chatId with
      | Some st => orElse (Some (model st)) (defaultModel cfg)
      | None => defaultModel cfg
      end in
    (cs, xs,
     [Send chatId (TxtModelList currentModel)
           (modelsKeyboard models currentModel)])
  else
    let invalid := (cs, xs, [Send chatId TxtBadModel []]) in
    let index := minus (parseInt10 (default [] indexStr)) 1 in
    if isNaN index || lessThan index 0
       || atLeast index (Z.of_nat (length models))
    then invalid
    else
      match index with
      | NaN | Infinity _ => invalid        (* not reached *)
      | Finite i =>
          match models !! Z.to_nat i with
          | None => invalid                (* not reached *)
          | Some selectedModel =>
              match cs !! chatId with
              | None =>
                  (<[chatId := bareState selectedModel]> cs, xs,
                   [Send chatId (TxtModelNoSessionCmd selectedModel) [];
                    Core (BotSendStatus chatId None false)])
              | Some st =>
                  let oldModel := model st in
                  let xs :=
                    if truthy (Some oldModel)
                       && negb (bool_decide (oldModel = selectedModel))
                    then <[chatId := addToRecentModels (extraOf xs chatId)
                                                      oldModel]> xs
                    else xs in
                  let st := set_model selectedModel st in
                  let cs := <[chatId := st]> cs in
                  match session st, truthy (dir st) with
                  | Some _, true =>
                      let '(cs, eStart, completion) :=
                        startSession cfg (startEnv (resetEnv env)) cs chatId
                                     (default [] (dir st))
                                     (Some selectedModel) in
                      match completion with
                      | Returned =>
                          (cs, xs,
                           (Core <$> eStart)
                           ++ [Send chatId (TxtModelSwitched selectedModel)
                                    [[dirsButton]
                                     ++ buildModelSwitchRow
                                          models cs xs chatId
                                          (Some selectedModel)
                                     ++ [resetButton]];
                               Core (BotSendStatus chatId None false)])
                      | Thrown err =>
                          (cs, xs,
                           (Core <$> eStart)
                           ++ [Send chatId (TxtModelSwitchFailed err) []])
                      end
                  | _, _ =>
                      (cs, xs,
                       [Send chatId (TxtModelSet selectedModel) [];
                        Core (BotSendStatus chatId None false)])
                  end
              end
          end
    end.

(** The branch [query.data?.startsWith('set_dir:')] of the handler of
    [bot.on('callback_query')], lines 1669-1710.  [index] is the integer
    that [parseInt] reads.  The branch tests it against the length of an
    array and reads the array with it, and an array has fewer than 2^32
    entries: below 2^53 the Number that [parseInt] returns is that
    integer, and from 2^53 on both are refused
    (NumberSpec.parseInt10_against_length). *)
Definition onSetDir (cfg : Config) (basename : jsstring -> jsstring)
    (env : QueryEnv) (cs : ChatStates) (xs : Extras) (chatId : Z)
    (data : jsstring) : ChatStates * Extras * list Call :=
  let indexStr := replaceFirst (lit "set_dir:") [] data in
  let index := mathInt10 indexStr in
  let stored :=
    match cs !! chatId with
    | Some _ => availableDirs (extraOf xs chatId)
    | None => None
    end in
  let '(availableDirectories, xs) :=
    match stored with
    | Some (d :: ds) => (d :: ds, xs)
    | _ =>
        (dirsOnDisk env,
         match cs !! chatId with
         | Some _ =>
             <[chatId := set_availableDirs (Some (dirsOnDisk env))
                                           (extraOf xs chatId)]> xs
         | None => xs
         end)
    end in
  match availableDirectories with
  | [] => (cs, xs, [Answer ToastNoDirs; Send chatId TxtNoDirs []])
  | _ :: _ =>
      let invalid := (cs, xs, [Answer ToastBadDir]) in
      match index with
      | None => invalid
      | Some index =>
          if (index <? 0)
             || (index >=? Z.of_nat (length availableDirectories))
          then invalid
          else
            match availableDirectories !! Z.to_nat index with
            | None => invalid              (* not reached *)
            | Some d =>
                let '(cs, eStart, completion) :=
                  startSession cfg (startEnv (resetEnv env)) cs chatId d
                               None in
                match completion with
                | Returned =>
                    (cs, xs,
                     [Answer (ToastDir (basename d))] ++ (Core <$> eStart)
                     ++ [Send chatId (TxtDirChosen d) [];
                         Core (BotSendStatus chatId None false)])
                | Thrown err =>
                    (cs, xs,
                     [Answer (ToastDir (basename d))] ++ (Core <$> eStart)
                     ++ [Send chatId (TxtStartFailed err) []])
                end
            end
      end
  end.

(** The branch [query.data?.startsWith('set_model:')], lines
    1713-1779.  [index] is the integer that [parseInt] reads, as in
    [onSetDir]. *)
Definition onSetModel (cfg : Config) (models : list jsstring)
    (env : QueryEnv) (cs : ChatStates) (xs : Extras) (chatId : Z)
    (data : jsstring) : ChatStates * Extras * list Call :=
  let indexStr := replaceFirst (lit "set_model:") [] data in
  let invalid := (cs, xs, [Answer ToastBadModel]) in
  match mathInt10 indexStr with
  | None => invalid
  | Some index =>
      if (index <? 0) || (index >=? Z.of_nat (length models)) then invalid
      else
        match models !! Z.to_nat index with
        | None => invalid                  (* not reached *)
        | Some selectedModel =>
            let eAnswer := [Answer (ToastModel selectedModel)] in
            match cs !! chatId with
            | None =>
                (<[chatId := bareState selectedModel]> cs, xs,
                 eAnswer
                 ++ [Send chatId (TxtModelNoSession selectedModel) [];
                     Core (BotSendStatus chatId None false)])
            | Some st =>
                let oldModel := model st in
                let xs :=
                  if truthy (Some oldModel)
                     && negb (bool_decide (oldModel = selectedModel))
                  then <[chatId := addToRecentModels (extraOf xs chatId)
                                                    oldModel]> xs
                  else xs in
                let st := set_model selectedModel st in
                let cs := <[chatId := st]> cs in
                match session st, truthy (dir st) with
                | Some _, true =>
                    let '(cs, eStart, completion) :=
                      startSession cfg (startEnv (resetEnv env)) cs chatId
                                   (default [] (dir st))
                                   (Some selectedModel) in
                    match completion with
                    | Returned =>
                        (cs, xs,
                         eAnswer ++ (Core <$> eStart)
                         ++ [Send chatId (TxtModelSwitched selectedModel)
                                  [[dirsButton]
                                   ++ buildModelSwitchRow
                                        models cs xs chatId
                                        (Some selectedModel)
                                   ++ [resetButton]];
                             Core (BotSendStatus chatId None false)])
                    | Thrown err =>
                        (cs, xs,
                         eAnswer ++ (Core <$> eStart)
                         ++ [Send chatId (TxtModelSwitchFailed err) []])
                    end
                | _, _ =>
                    (cs, xs,
                     eAnswer
                     ++ [Send chatId (TxtModelSet selectedModel) [];
                         Core (BotSendStatus chatId None false)])
                end
            end
        end
  end.

(** The handler of [bot.on('callback_query')], lines 1453-1780, for a
    query that has a message and is not older than the bot; a chat id
    of zero is falsy, and the handler returns at once.  The branches of
    the tool results and of the shutdown are outside the model: for
    their queries the result is [None]. *)
Definition onCallbackQuery (cfg : Config) (basename : jsstring -> jsstring)
    (models : list jsstring) (env : QueryEnv) (cs : ChatStates)
    (xs : Extras) (chatId : Z) (data : option jsstring)
  : option (ChatStates * Extras * list Call) :=
  let d := default [] data in
  let equals (s : string) := bool_decide (data = Some (lit s)) in
  let begins (s : string) :=
    match data with
    | Some d => startsWith d (lit s)
    | None => false
    end in
  if chatId =? 0 then Some (cs, xs, [])
  else if negb (isOwner cfg chatId) then
    Some (cs, xs, [Core BotAnswerCallbackQuery;
                   Core (BotSendMessage chatId TxtNotOwner)])
  else if begins "show_full:" || begins "show_result:"
          || begins "show_params:" || equals "shutdown" then None
  else if equals "cmd_dirs" then
    let '(cs, xs, calls) := showDirs cfg basename env cs xs chatId in
    Some (cs, xs, Core BotAnswerCallbackQuery :: calls)
  else if equals "cmd_status" then
    Some (cs, xs, [Core BotAnswerCallbackQuery;
                   Core (BotSendStatus chatId None false)])
  else if equals "cmd_help" then
    Some (cs, xs, [Core BotAnswerCallbackQuery;
                   Core (BotSendWelcome chatId)])
  else if equals "cmd_model" then
    let currentModel :=
      match cs !! chatId with
      | Some st => orElse (Some (model st)) (defaultModel cfg)
      | None => defaultModel cfg
      end in
    Some (cs, xs,
          [Core BotAnswerCallbackQuery;
           Send chatId (TxtChooseModel currentModel)
                (modelsKeyboard models currentModel)])
  else if equals "cmd_reset" then
    let '(cs, effs) := onResetButton cfg (resetEnv env) cs chatId in
    Some (cs, xs, Core <$> effs)
  else if begins "set_dir:" then
    Some (onSetDir cfg basename env cs xs chatId d)
  else if begins "set_model:" then
    Some (onSetModel cfg models env cs xs chatId d)
  else Some (cs, xs, []).

(** *** Runs of the bot *)

(** What can come in: a message, a command, a button, and the two
    events of a session that end a turn. *)
Inductive BotInput : Type :=
| InMessage (env : MessageEnv) (msg : Message)
| InDirs (env : QueryEnv) (chatId : Z)
| InModel (env : QueryEnv) (chatId : Z) (indexStr : option jsstring)
| InReset (env : ResetEnv) (chatId : Z)
| InCallback (env : QueryEnv) (chatId : Z) (data : option jsstring)
| InIdle (out : Outcome) (chatId : Z)
| InAssistantMessage (chatId : Z) (content : option jsstring).

(** The handler of one input; [None] for a button outside the model. *)
Definition botStep (cfg : Config) (basename : jsstring -> jsstring)
    (models : list jsstring) (cs : ChatStates) (xs : Extras)
    (input : BotInput) : option (ChatStates * Extras * list Call) :=
  match input with
  | InMessage env msg =>
      let '(cs, effs) := onMessage cfg env cs msg in
      Some (cs, xs, Core <$> effs)
  | InDirs env chatId => Some (onDirs cfg basename env cs xs chatId)
  | InModel env chatId indexStr =>
      Some (onModel cfg models env cs xs chatId indexStr)
  | InReset env chatId =>
      let '(cs, effs) := onReset cfg env cs chatId in
      Some (cs, xs, Core <$> effs)
  | InCallback env chatId data =>
      onCallbackQuery cfg basename models env cs xs chatId data
  | InIdle out chatId =>
      let '(cs, effs) := handleSessionIdle out cs chatId in
      Some (cs, xs, Core <$> effs)
  | InAssistantMessage chatId content =>
      let '(cs, calls) := handleAssistantMessage cs chatId content in
      Some (cs, xs, calls)
  end.

(** The inputs handled one after the other; the calls are kept per
    input. *)
Fixpoint botRun (cfg : Config) (basename : jsstring -> jsstring)
    (models : list jsstring) (cs : ChatStates) (xs : Extras)
    (inputs : list BotInput)
  : option (ChatStates * Extras * list (list Call)) :=
  match inputs with
  | [] => Some (cs, xs, [])
  | input :: rest =>
      match botStep cfg basename models cs xs input with
      | None => None
      | Some (cs, xs, calls) =>
          match botRun cfg basename models cs xs rest with
          | None => None
          | Some (cs, xs, more) => Some (cs, xs, calls :: more)
          end
      end
  end.

(** The chat that an input belongs to. *)
Definition chatOf (input : BotInput) : Z :=
  match input with
  | InMessage _ msg => msg_chat_id msg
  | InDirs _ chatId => chatId
  | InModel _ chatId _ => chatId
  | InReset _ chatId => chatId
  | InCallback _ chatId _ => chatId
  | InIdle _ chatId => chatId
  | InAssistantMessage chatId _ => chatId
  end.


(** What a handler does to the map of the states: nothing, or it sets
    the state of its chat. *)
Definition touches (chatId : Z) (cs cs' : ChatStates) : Prop :=
  cs' = cs \/ exists st, cs' = <[chatId := st]> cs.

(** The same for the map of the other fields. *)
Definition touchesExtra (chatId : Z) (xs xs' : Extras) : Prop :=
  xs' = xs \/ exists x, xs' = <[chatId := x]> xs.

(** Every chat that had a state still has one, and its reference
    images are those it had, with more behind them or none. *)
Definition imagesGrow (cs cs' : ChatStates) : Prop :=
  forall chatId st,
    cs !! chatId = Some st ->
    exists st', cs' !! chatId = Some st'
                /\ default [] (images st) `prefix_of` default [] (images st').


End Handlers.

(** ** More states and answers for the examples *)

Module Fixtures.
Import Utils Index JsLib UtilsRest Commands Handlers Scenario.

(** A stand-in for [path.basename]: what follows the last slash. *)
Definition lastSegment (p : jsstring) : jsstring :=
  sliceFrom p (lastIndexOf p 47%N + 1).

(** Two directories are configured, and every call succeeds. *)
Definition queryOk : QueryEnv :=
  {| dirsOnDisk := [lit "/srv/app"; lit "/srv/web"]; resetEnv := resetOk |}.

(** The same directories; the creation of a session fails. *)
Definition queryFails : QueryEnv :=
  {| dirsOnDisk := [lit "/srv/app"; lit "/srv/web"];
     resetEnv := resetFails |}.

(** Chat 1 with a session and the model gpt-5. *)
Definition stateGpt : ChatState := set_model (lit "gpt-5") state1.

Definition startedGpt : gmap Z ChatState := {[1 := stateGpt]}.

(** Chat 1 has used claude-sonnet-4.5 and gpt-4.1 before. *)
Definition recentOf1 : gmap Z Extra :=
  {[1 := set_recentModels
           (Some [lit "claude-sonnet-4.5"; lit "gpt-4.1"]) noExtra]}.

(** Chat 1 busy with a prompt, two more waiting. *)
Definition busyQueued : gmap Z ChatState :=
  {[1 := set_queue [lit "task2"; lit "task3"] busyState1]}.

(** Chat 1 after its model switch could not restart the session: the
    session is gone, the prompts still wait. *)
Definition strandedQueue : gmap Z ChatState :=
  (onSetModel cfg availableModels queryFails busyQueued ∅ 1
              (lit "set_model:12")).1.1.


(** A day of the bot reserved to chat 1: the chat picks its second
    directory, sends two prompts, sees the first answered, switches the
    model and resets; a stranger writes in between. *)
Definition day1 : list BotInput :=
  [ InDirs queryOk 1;
    InCallback queryOk 1 (Some (lit "set_dir:1"));
    InMessage (msgEnv Resolves) (textMessage 1 "task1");
    InMessage (msgEnv Resolves) (textMessage 1 "task2");
    InMessage (msgEnv Resolves) (textMessage 2 "hello");
    InAssistantMessage 1 (Some (lit "done"));
    InIdle Resolves 1;
    InCallback queryOk 1 (Some (lit "set_model:12"));
    InModel queryFails 1 (Some (lit "1"));
    InCallback queryOk 2 (Some (lit "cmd_dirs"));
    InReset resetOk 1 ].

(** Chat 1 after it has sent a photo with a caption. *)
Definition afterPhoto : gmap Z ChatState :=
  (onMessage cfg (msgEnv Resolves) started1 (photoMessage 1 "look")).1.

(** Then the answer comes, and chat 1 resets, picks another directory
    and another model. *)
Definition afterwards : list BotInput :=
  [ InAssistantMessage 1 (Some (lit "seen"));
    InIdle Resolves 1;
    InReset resetOk 1;
    InCallback queryOk 1 (Some (lit "set_dir:0"));
    InCallback queryOk 1 (Some (lit "set_model:3")) ].

End Fixtures.

(** ** src/index.ts: the handlers with their suspension points

    A handler is an async function.  It runs until it awaits a call into
    the outside world, and goes on when the call has settled; handlers
    of other messages, buttons and events run in between.  A [Task] is
    what is left of a handler to run: its synchronous stretches read and
    assign the chat states, and each awaited call carries what the
    handler does once the call has resolved or rejected.

    A handler holds the state object of its chat in a local variable
    across its awaits.  That object is created once and never replaced
    or removed from [chatStates], so it is the object that the map holds
    for the chat when the handler goes on: where the source reads or
    writes [state] after an await, the task reads or writes the state of
    the chat in the map of that moment.  (For a map without a state of
    the chat, which no run reaches, the writes are dropped.)

    What is decided without an await stays an argument of the handler:
    the random draws, the handle of a new client, the outcome of
    [process.chdir].

    A task that ends in [Throw] is a handler whose promise rejects.  The
    loop of [processEventQueue] catches what the handler of an event
    throws; nothing in the source catches what the handler of a message,
    a command or a button throws. *)

Module Async.
Import Utils Index.

Inductive Task : Type :=
| Return                                   (* the handler returns *)
| Throw (err : JsError)                    (* the handler throws *)
| Get (k : ChatStates -> Task)             (* reads of chatStates *)
| Put (cs : ChatStates) (t : Task)         (* assignments to the states *)
| Did (e : Effect) (t : Task)              (* a call that is not awaited *)
| Await (e : Effect) (k : Outcome -> Task)
| AwaitFile (fileId : jsstring) (k : jsstring + JsError -> Task)
                                           (* await bot.getFile(fileId) *)
| AwaitSession (c : ClientHandle) (model : jsstring)
               (k : SessionHandle + JsError -> Task).
                                           (* await client.createSession *)

(** [await call], then [onResolve], or [onReject] on what it threw. *)
Definition await (e : Effect) (onResolve : Task) (onReject : JsError -> Task)
  : Task :=
  Await e (fun o => match o with
                    | Resolves => onResolve
                    | Rejects err => onReject err
                    end).

(** [await bot.sendMessage(chatId, text); return;] outside any [try]. *)
Definition say (chatId : Z) (text : BotText) : Task :=
  await (BotSendMessage chatId text) Return Throw.

(** Assignments to the state object of the chat. *)
Definition modify (chatId : Z) (f : ChatState -> ChatState) (next : Task)
  : Task :=
  Get (fun cs => match cs !! chatId with
                 | Some st => Put (<[chatId := f st]> cs) next
                 | None => next
                 end).

(** *** startSession *)

(** [startSession(chatId, directory, model)]; [onReturn] and [onThrow]
    are what the caller does when the call returns and when it throws.
    Of [env] the task reads what is decided without an await: the two
    random draws, the outcome of [process.chdir] and the handle of the
    new client. *)
Definition startSession (cfg : Config) (env : StartEnv) (chatId : Z)
    (directory : jsstring) (model : option jsstring)
    (onReturn : Task) (onThrow : JsError -> Task) : Task :=
  Get (fun cs =>
    let cs := ensureState cfg (rndOnCreate env) cs chatId model in
    Put cs
      match cs !! chatId with
      | None => onReturn                   (* not reached *)
      | Some st =>
          let modelToUse := Index.model st in
          (* lines 676-730 *)
          let create : Task :=
            match chdirOutcome env with
            | Rejects err =>
                let message :=
                  match err with
                  | ErrorMessage m => m
                  | CannotChdir _ m => m
                  end in
                Did (ProcessChdir directory)
                    (onThrow (CannotChdir directory message))
            | Resolves =>
                let c := newClient env in
                let failed err := Await (ClientStop c) (fun _ => onThrow err) in
                Did (ProcessChdir directory)
                  (await (ClientStart c)
                     (AwaitSession c modelToUse (fun r =>
                        match r with
                        | inr err => failed err
                        | inl s =>
                            Did (SessionOn s chatId)
                              (Get (fun cs =>
                                 match cs !! chatId with
                                 | Some st =>
                                     Put (<[chatId :=
                                              storeSession cs chatId st c s
                                                directory (rndOnAssign env)]>
                                            cs)
                                         onReturn
                                 | None => onReturn
                                 end))
                        end))
                     failed)
            end in
          (* lines 661-675 *)
          let stopClient : Task :=
            Get (fun cs =>
              match cs !! chatId with
              | Some st =>
                  match client st with
                  | Some c =>
                      Await (ClientStop c)
                            (fun _ => modify chatId (set_client None) create)
                  | None => create
                  end
              | None => create
              end) in
          (* lines 646-660 *)
          match session st with
          | Some s =>
              Await (SessionDestroy s)
                    (fun _ => modify chatId (set_session None) stopClient)
          | None => stopClient
          end
      end).

(** *** The [session.idle] case of handleSessionEvent *)

(** Lines 1008-1010 and 1908-1910: a prompt that could not be sent is
    taken back. *)
Definition rollBack (st : ChatState) : ChatState :=
  set_awaitingFinal (Some false) (set_currentPrompt None (set_busy false st)).

(** Lines 991-1013: the next prompt of the queue is sent. *)
Definition sendNext (chatId : Z) : Task :=
  Get (fun cs =>
    match cs !! chatId with
    | None => Return
    | Some st =>
        match queue st with
        | [] => Return
        | nextPrompt :: rest =>
            let st := set_queue rest st in
            match truthy (Some nextPrompt), session st with
            | true, Some s =>
                let st := set_busy true st in
                let st := set_currentPrompt (Some nextPrompt) st in
                let st := set_awaitingFinal (Some true) st in
                let st := set_pendingCompletion (Some false) st in
                let st := set_turnCount (nextTurn st) st in
                let promptToSend :=
                  appendImagesToPrompt nextPrompt (images st) in
                Put (<[chatId := st]> cs)
                  (await (SessionSend s promptToSend) Return
                     (fun err =>
                        await (BotSendMessage chatId (TxtQueuedSendError err))
                              (modify chatId rollBack Return)
                              Throw))
            | _, _ => Put (<[chatId := st]> cs) Return
            end
        end
    end).

(** Lines 971-1014.  [processEventQueue] calls the handler in the
    synchronous stretch in which the event arrives, when no other event
    of the chat is being handled (lines 756-773), and catches what it
    throws (line 774). *)
Definition handleSessionIdle (chatId : Z) : Task :=
  Get (fun cs =>
    match cs !! chatId with
    | None => Return
    | Some st =>
        let st := set_busy false st in
        let st := set_currentPrompt None st in
        match queue st with
        | [] =>
            if default false (awaitingFinal st)
            then Put (<[chatId := set_pendingCompletion (Some true) st]> cs)
                     (sendNext chatId)
            else Put (<[chatId := st]> cs)
                     (await (BotSendStatus chatId (originalMessageId st) true)
                            (sendNext chatId) Throw)
        | _ :: _ => Put (<[chatId := st]> cs) (sendNext chatId)
        end
    end).

(** *** bot.on('message') *)

(** Lines 1812-1859: the state of the chat is created if it is missing,
    the file of the image is asked for, and its URL is pushed on
    [state.images]; what [getFile] or the acknowledgement throws is
    caught and reported.  [next] is the rest of the handler. *)
Definition storeAttachment (cfg : Config) (rnd : nat) (msg : Message)
    (next : Task) : Task :=
  let chatId := msg_chat_id msg in
  let failed : Task := await (BotSendMessage chatId TxtImageError) next Throw in
  Get (fun cs =>
    let cs :=
      match cs !! chatId with
      | Some _ => cs
      | None =>
          <[chatId := freshState (defaultModel cfg)
                                 (pickSessionEmoji cs rnd)]> cs
      end in
    Put cs
      match attachedFileId msg with
      | None => next                       (* not reached *)
      | Some fileId =>
          AwaitFile fileId (fun r =>
            match r with
            | inr _ => failed
            | inl filePath =>
                Get (fun cs =>
                  match cs !! chatId with
                  | None => next           (* not reached *)
                  | Some st =>
                      let imgs :=
                        default [] (images st) ++ [fileUrl cfg filePath] in
                      Put (<[chatId := set_images (Some imgs) st]> cs)
                        (await (BotSendMessage chatId
                                  (TxtImagesAdded (Z.of_nat (length imgs))))
                               next (fun _ => failed))
                  end)
            end)
      end).

(** Lines 1861-1912: the prompt is refused, queued or sent. *)
Definition dispatchPrompt (msg : Message) : Task :=
  let chatId := msg_chat_id msg in
  if negb (truthy (captionOrText msg)) then Return
  else
    let text := default [] (captionOrText msg) in
    if startsWith text (lit "/") then Return
    else
      Get (fun cs =>
        match cs !! chatId with
        | None => say chatId TxtNoSession
        | Some st =>
            match session st, truthy (dir st) with
            | Some s, true =>
                if resetting st then say chatId TxtPleaseWait
                else
                  let promptToSend := appendImagesToPrompt text (images st) in
                  if busy st then
                    Put (<[chatId := set_queue (queue st ++ [text]) st]> cs)
                        (say chatId TxtQueued)
                  else
                    Put (<[chatId := accepted msg st]> cs)
                      (await (SessionSend s promptToSend) Return
                         (fun err =>
                            await (BotSendMessage chatId (TxtSendError err))
                                  (modify chatId rollBack Return)
                                  Throw))
            | _, _ => say chatId TxtNoSession
            end
        end).

(** The handler of [bot.on('message')]; [rnd] is the random draw of
    line 1824. *)
Definition onMessage (cfg : Config) (rnd : nat) (msg : Message) : Task :=
  let chatId := msg_chat_id msg in
  if negb (isOwner cfg chatId) then say chatId TxtNotOwner
  else if hasPhoto msg || isImageDocument msg then
    storeAttachment cfg rnd msg (dispatchPrompt msg)
  else dispatchPrompt msg.

(** *** /reset and the [cmd_reset] button *)

(** The handler of [bot.onText(/^\/reset/)], lines 1349-1424. *)
Definition onReset (cfg : Config) (env : StartEnv) (chatId : Z) : Task :=
  if negb (isOwner cfg chatId) then say chatId TxtNotOwner
  else
    Get (fun cs =>
      match cs !! chatId with
      | None => say chatId TxtResetNoSession
      | Some st =>
          match session st with
          | None => say chatId TxtResetNoSession
          | Some _ =>
              let currentDir := dir st in
              let currentModel := model st in
              (* the catch block of lines 1420-1423 *)
              let failed err := say chatId (TxtResetFailed err) in
              (* lines 1394-1419 *)
              let restart : Task :=
                if truthy currentDir then
                  startSession cfg env chatId (default [] currentDir)
                    (Some currentModel)
                    (await (BotSendMessage chatId TxtResetDone) Return failed)
                    failed
                else
                  await (BotSendMessage chatId TxtResetNoDir) Return failed in
              Put (<[chatId := resetPrepared st]> cs)
                (await (BotSendMessage chatId TxtResetStarting)
                   (Get (fun cs =>
                      match cs !! chatId with
                      | Some st =>
                          match session st with
                          | Some s => Await (SessionAbort s) (fun _ => restart)
                          | None => restart
                          end
                      | None => restart
                      end))
                   Throw)
          end
      end).

(** What [state.session.destroy()] throws when [state.session] is
    [null], in the words of V8. *)
Definition destroyOfNull : JsError :=
  ErrorMessage (lit "Cannot read properties of null (reading 'destroy')").

(** The branch [query.data === 'cmd_reset'] of the handler of
    [bot.on('callback_query')], lines 1625-1666, for a query that has
    passed the checks at the head of the handler. *)
Definition onResetButton (cfg : Config) (env : StartEnv) (chatId : Z)
  : Task :=
  let welcome : Task := await (BotSendWelcome chatId) Return Throw in
  await BotAnswerCallbackQuery
    (Get (fun cs =>
       match cs !! chatId with
       | None => welcome
       | Some st =>
           match session st, truthy (dir st) with
           | Some _, true =>
               let currentDir := default [] (dir st) in
               let currentModel := model st in
               let st := set_queue [] st in
               let st := set_resetting true st in
               let st := set_busy false st in
               let st := set_turnCount (Some 0) st in
               (* the catch block of lines 1660-1664 *)
               let failed err :=
                 modify chatId (set_resetting false)
                        (say chatId (TxtCbResetFailed err)) in
               Put (<[chatId := st]> cs)
                 (await (BotSendMessage chatId TxtCbResetStarting)
                    (Get (fun cs =>
                       match cs !! chatId ≫= session with
                       | None => failed destroyOfNull
                       | Some s =>
                           await (SessionDestroy s)
                             (modify chatId (set_session None)
                                (startSession cfg env chatId currentDir
                                   (Some currentModel)
                                   (modify chatId (set_resetting false)
                                      (await (BotSendMessage chatId
                                                             TxtCbResetDone)
                                             Return failed))
                                   failed))
                             failed
                       end))
                    Throw)
           | _, _ => welcome
           end
       end))
    Throw.

(** *** Running tasks *)

(** A task run up to its next awaited call, or to its end: the states
    it leaves, the calls it made without awaiting them, and what is left
    of it, which is [Return], [Throw] or an awaited call. *)
Fixpoint advance (t : Task) (cs : ChatStates)
  : ChatStates * list Effect * Task :=
  match t with
  | Get k => advance (k cs) cs
  | Put cs' t' => advance t' cs'
  | Did e t' =>
      let '(cs', effs, t'') := advance t' cs in (cs', e :: effs, t'')
  | _ => (cs, [], t)
  end.

(** How a handler ends once the last call that it awaits outside any
    [try] has settled. *)
Definition settled (o : Outcome) : Task :=
  match o with
  | Resolves => Return
  | Rejects err => Throw err
  end.

(** From the states [cs] the task makes the call [e] and nothing else:
    it assigns nothing before the call, and when the call has settled it
    ends, having assigned nothing to the states of that moment. *)
Definition onlyCalls (t : Task) (cs : ChatStates) (e : Effect) : Prop :=
  exists k,
    advance t cs = (cs, [], Await e k)
    /\ forall o cs', advance (k o) cs' = (cs', [], settled o).

(** What the outside world answers to an awaited call. *)
Inductive Answer : Type :=
| Settled (o : Outcome)
| FileIs (r : jsstring + JsError)
| SessionIs (r : SessionHandle + JsError).

(** The task that awaits goes on with the answer. *)
Definition resume (t : Task) (a : Answer) : option Task :=
  match t, a with
  | Await _ k, Settled o => Some (k o)
  | AwaitFile _ k, FileIs r => Some (k r)
  | AwaitSession _ _ k, SessionIs r => Some (k r)
  | _, _ => None
  end.

(** The call that a task awaits. *)
Definition callOf (t : Task) : list Effect :=
  match t with
  | Await e _ => [e]
  | AwaitFile fileId _ => [BotGetFile fileId]
  | AwaitSession c model _ => [ClientCreateSession c model]
  | _ => []
  end.

Definition awaits (t : Task) : bool :=
  match t with
  | Await _ _ | AwaitFile _ _ | AwaitSession _ _ _ => true
  | _ => false
  end.

Definition errorOf (t : Task) : list JsError :=
  match t with
  | Throw err => [err]
  | _ => []
  end.

(** The bot between two stretches of its handlers: the chat states, the
    handlers that await a call, in the order in which they began to
    wait, the calls made so far and the errors that handlers have
    thrown. *)
Record World : Type := mkWorld {
  chats : gmap Z ChatState;
  waiting : list Task;
  calls : list Effect;
  thrown : list JsError;
}.

(** A task runs up to its next awaited call. *)
Definition launch (t : Task) (w : World) : World :=
  let '(cs, effs, t') := advance t (chats w) in
  {| chats := cs;
     waiting := waiting w ++ (if awaits t' then [t'] else []);
     calls := calls w ++ effs ++ callOf t';
     thrown := thrown w ++ errorOf t' |}.

(** What happens to the bot: a handler starts, or the call that the
    [i]-th waiting handler awaits settles. *)
Inductive Happening : Type :=
| Arrives (handler : Task)
| Settles (i : nat) (a : Answer).

Definition happen (w : World) (h : Happening) : option World :=
  match h with
  | Arrives handler => Some (launch handler w)
  | Settles i a =>
      match waiting w !! i with
      | None => None
      | Some t =>
          match resume t a with
          | None => None
          | Some t' =>
              Some (launch t' {| chats := chats w;
                                 waiting := delete i (waiting w);
                                 calls := calls w;
                                 thrown := thrown w |})
          end
      end
  end.

(** The bot after a list of happenings, in their order; there is none
    when a happening names no waiting handler, or answers a call with
    the wrong kind of answer. *)
Fixpoint proceed (w : World) (hs : list Happening) : option World :=
  match hs with
  | [] => Some w
  | h :: rest =>
      match happen w h with
      | Some w' => proceed w' rest
      | None => None
      end
  end.

(** The bot at rest with the chat states [cs]. *)
Definition atRest (cs : gmap Z ChatState) : World :=
  {| chats := cs; waiting := []; calls := []; thrown := [] |}.

(** *** A handler alone *)

(** What the outside world answers to each call. *)
Record Oracle : Type := mkOracle {
  answerCall : Effect -> Outcome;
  answerFile : jsstring -> jsstring + JsError;
  answerCreate : ClientHandle -> jsstring -> SessionHandle + JsError;
}.

(** The task run to its end with no other handler in between: the
    states it leaves, its calls, and how it ends. *)
Fixpoint alone (o : Oracle) (t : Task) (cs : ChatStates)
  : ChatStates * list Effect * Completion :=
  match t with
  | Return => (cs, [], Returned)
  | Throw err => (cs, [], Thrown err)
  | Get k => alone o (k cs) cs
  | Put cs' t' => alone o t' cs'
  | Did e t' =>
      let '(cs', effs, c) := alone o t' cs in (cs', e :: effs, c)
  | Await e k =>
      let '(cs', effs, c) := alone o (k (answerCall o e)) cs in
      (cs', e :: effs, c)
  | AwaitFile fileId k =>
      let '(cs', effs, c) := alone o (k (answerFile o fileId)) cs in
      (cs', BotGetFile fileId :: effs, c)
  | AwaitSession cl model k =>
      let '(cs', effs, c) := alone o (k (answerCreate o cl model)) cs in
      (cs', ClientCreateSession cl model :: effs, c)
  end.

(** What is left of a call of [startSession] for its caller: [onReturn]
    when the call has returned, [onThrow] when it has thrown. *)
Definition after (c : Completion) (onReturn : Task)
    (onThrow : JsError -> Task) : Task :=
  match c with
  | Returned => onReturn
  | Thrown err => onThrow err
  end.

(** A caller of [startSession] run alone, from the result [r] of the
    call: the rest of the caller runs from the states that the call has
    left, and its calls follow those of the call. *)
Definition sequel (o : Oracle)
    (r : ChatStates * list Effect * Completion)
    (onReturn : Task) (onThrow : JsError -> Task)
  : ChatStates * list Effect * Completion :=
  let '(cs, effs, c) := r in
  let '(cs', effs', c') := alone o (after c onReturn onThrow) cs in
  (cs', effs ++ effs', c').

(** *** What a task is seen to do *)

(** Whether a call is a call to Telegram. *)
Definition toTelegram (e : Effect) : bool :=
  match e with
  | BotSendMessage _ _ | BotSendStatus _ _ _ | BotSendWelcome _
  | BotAnswerCallbackQuery => true
  | _ => false
  end.

(** Every call to Telegram succeeds. *)
Definition delivers (o : Oracle) : Prop :=
  forall e, toTelegram e = true -> answerCall o e = Resolves.

(** The calls that [startSession] awaits are answered as [env] says. *)
Definition answersAs (o : Oracle) (env : StartEnv) : Prop :=
  answerCall o (ClientStart (newClient env)) = clientStartOutcome env
  /\ forall model, answerCreate o (newClient env) model
                   = createSessionOutcome env.

(** From any states the task reports that the image could not be
    handled and assigns nothing; once the report is delivered [rest]
    holds of what is left of the task, and if the report is rejected the
    task throws. *)
Definition reportsImageError (chatId : Z) (t : Task) (rest : Task -> Prop)
  : Prop :=
  forall cs, exists k,
    advance t cs = (cs, [], Await (BotSendMessage chatId TxtImageError) k)
    /\ rest (k Resolves)
    /\ forall err cs', advance (k (Rejects err)) cs' = (cs', [], Throw err).

(** The task [t], started in the states [cs], leaves the states [cs0]
    and asks Telegram for the file [fileId].  When the path of the file
    arrives, the URL of the file is pushed on the images that the chat
    has at that moment, nothing else is assigned, and the number of
    images is reported to the chat.  [rest] holds of what is left of the
    task when that message is delivered; when the file or the message
    fails, the failure is reported first. *)
Definition storesImage (cfg : Config) (chatId : Z) (fileId : jsstring)
    (t : Task) (cs cs0 : ChatStates) (rest : Task -> Prop) : Prop :=
  exists k,
    advance t cs = (cs0, [], AwaitFile fileId k)
    /\ (forall err, reportsImageError chatId (k (inr err)) rest)
    /\ forall filePath cs1 st1,
         cs1 !! chatId = Some st1 ->
         let imgs := default [] (images st1) ++ [fileUrl cfg filePath] in
         exists k1,
           advance (k (inl filePath)) cs1
           = (<[chatId := set_images (Some imgs) st1]> cs1, [],
              Await (BotSendMessage chatId
                       (TxtImagesAdded (Z.of_nat (length imgs)))) k1)
           /\ rest (k1 Resolves)
           /\ forall err, reportsImageError chatId (k1 (Rejects err)) rest.

End Async.

(** ** Concrete runs of the handlers with their suspension points *)

Module AsyncScenario.
Import Utils Index Async Scenario.

(** Every call succeeds: the file of an image is photos/file_1.jpg and
    a new session is number 7. *)
Definition allGood : Oracle :=
  {| answerCall := fun _ => Resolves;
     answerFile := fun _ => inl (lit "photos/file_1.jpg");
     answerCreate := fun _ _ => inl 7%nat |}.

(** [session.send] rejects; the messages to the chat are delivered. *)
Definition sendFails : Oracle :=
  {| answerCall := fun e =>
       match e with
       | SessionSend _ _ => Rejects (ErrorMessage (lit "session closed"))
       | _ => Resolves
       end;
     answerFile := fun _ => inl (lit "photos/file_1.jpg");
     answerCreate := fun _ _ => inl 7%nat |}.

(** [session.send] rejects, and so does [bot.sendMessage]. *)
Definition sendAndReportFail : Oracle :=
  {| answerCall := fun e =>
       match e with
       | SessionSend _ _ => Rejects (ErrorMessage (lit "session closed"))
       | BotSendMessage _ _ =>
           Rejects (ErrorMessage (lit "ETELEGRAM: 429 Too Many Requests"))
       | _ => Resolves
       end;
     answerFile := fun _ => inl (lit "photos/file_1.jpg");
     answerCreate := fun _ _ => inl 7%nat |}.

(** Only [bot.sendMessage] rejects. *)
Definition chatUnreachable : Oracle :=
  {| answerCall := fun e =>
       match e with
       | BotSendMessage _ _ =>
           Rejects (ErrorMessage (lit "ETELEGRAM: 429 Too Many Requests"))
       | _ => Resolves
       end;
     answerFile := fun _ => inl (lit "photos/file_1.jpg");
     answerCreate := fun _ _ => inl 7%nat |}.

(** The URL under which the image of the examples is stored. *)
Definition imageUrl : jsstring :=
  lit "https://api.telegram.org/file/botTOKEN/photos/file_1.jpg".

(** Chat 1 once the final message of its first turn has arrived: the
    turn is open, [awaitingFinal] is false. *)
Definition answered1 : gmap Z ChatState :=
  <[1 := set_awaitingFinal (Some false) busyState1]> started1.

(** Chat 1 busy with its first prompt, one prompt waiting and one image
    stored. *)
Definition queuedWithImage : gmap Z ChatState :=
  <[1 := set_images (Some [imageUrl]) (set_queue [lit "task2"] busyState1)]>
    started1.

(** Chat 1 with a session, idle, one image stored. *)
Definition idleWithImage : gmap Z ChatState :=
  <[1 := set_images (Some [imageUrl]) state1]> started1.

(** Chat 1 busy with its first prompt, two prompts waiting. *)
Definition twoWaiting : gmap Z ChatState :=
  <[1 := set_queue [lit "task2"; lit "task3"] busyState1]> started1.

(** The text that [session.send] gets for the prompt [prompt] of a chat
    whose only image is [imageUrl]. *)
Definition withImageUrl (prompt : string) : jsstring :=
  lit prompt ++ [10; 10; 21443; 32771; 22294; 29255; 65306; 10]%N
      ++ lit "1. https://api.telegram.org/file/botTOKEN/photos/file_1.jpg".


(** The session of chat 1 becomes idle after the final message of the
    turn; while the handler of the event awaits the delivery of the
    completion notice, the chat sends two prompts; then the notice is
    delivered. *)
Definition promptsDuringIdle : list Happening :=
  [ Arrives (handleSessionIdle 1);
    Arrives (onMessage cfg 0 (textMessage 1 "task2"));
    Arrives (onMessage cfg 0 (textMessage 1 "task3"));
    Settles 0 (Settled Resolves) ].        (* the completion notice *)

(** Chat 1, busy, sends a photo with the caption "first" and then the
    text "second"; then the file of the photo arrives and the count of
    images is delivered. *)
Definition photoThenText : list Happening :=
  [ Arrives (onMessage cfg 0 (photoMessage 1 "first"));
    Arrives (onMessage cfg 0 (textMessage 1 "second"));
    Settles 0 (FileIs (inl (lit "photos/file_1.jpg")));
    Settles 1 (Settled Resolves) ].        (* the count of images *)

End AsyncScenario.

(* ================================================================== *)
(** * Part II: properties                                              *)
(* ================================================================== *)

Module UtilsSpec.
Import Utils.

Example split_custom :
  splitLongMessage 12 (lit "Hello world") 5
  = Some [lit "Hello"; lit " worl"; lit "d"].
Proof. reflexivity. Qed.

Example split_empty : splitLongMessage 1 [] 4096 = Some [].
Proof. reflexivity. Qed.

Example parse_examples :
  parseModelIndex (Some (lit "12")) 14 = 11
  /\ parseModelIndex (Some (lit "0")) 10 = -1
  /\ parseModelIndex (Some (lit "11")) 10 = -1
  /\ parseModelIndex (Some (lit "abc")) 10 = -1
  /\ parseModelIndex (Some []) 10 = -1
  /\ parseModelIndex None 10 = -1
  /\ parseDirectoryIndex (Some (lit "3")) 5 = 2.
Proof. repeat split; reflexivity. Qed.

(** The cases of the test suite on a newline near the end of the first
    4096 code units and on a text without newline. *)
Example split_on_newline :
  let text :=
    replicate (N.to_nat 3500) 65%N ++ [LF] ++ replicate (N.to_nat 1000) 66%N in
  splitLongMessage (S (length text)) text 4096
  = Some [replicate (N.to_nat 3500) 65%N ++ [LF];
          replicate (N.to_nat 1000) 66%N].
Proof. vm_compute. reflexivity. Qed.

Example split_forced :
  let text := replicate (N.to_nat 5000) 65%N in
  option_map (List.map len) (splitLongMessage (S (length text)) text 4096)
  = Some [4096; 904].
Proof. vm_compute. reflexivity. Qed.

Example pick_examples :
  pickSessionEmoji ∅ sessionEmojis 0 = Some [55357; 56629]%N
  /\ pickSessionEmoji {[ [55357; 56629]%N; [55357; 57314]%N ]}
                      sessionEmojis 0
     = Some [55357; 56628]%N
  /\ pickSessionEmoji (list_to_set sessionEmojis) sessionEmojis 17
     = Some [55356; 57152]%N.
Proof. repeat split; vm_compute; reflexivity. Qed.

End UtilsSpec.

(** ** Splitting a long message *)

Module SplitSpec.
Import Utils.

Lemma len_nonneg (s : jsstring) : 0 <= len s.
Proof. unfold len. lia. Qed.

Lemma len_nil_iff (s : jsstring) : len s = 0 <-> s = [].
Proof. unfold len. destruct s; simpl; split; intros; try done; lia. Qed.

(** A prefix cut by [slice] is a [take]. *)
Lemma slice_prefix (s : jsstring) (n : Z) :
  0 <= n -> slice s 0 n = take (Z.to_nat n) s.
Proof.
  intros Hn. unfold slice, clampIndex.
  assert (Hl := len_nonneg s).
  replace (0 <? 0) with false by reflexivity.
  destruct (n <? 0) eqn:E; [lia|].
  rewrite (Z.min_l 0) by lia. change (Z.to_nat 0) with 0%nat.
  rewrite drop_0, Z.sub_0_r, Z.max_l by lia.
  destruct (Z.le_gt_cases n (len s)).
  - by rewrite Z.min_l by lia.
  - rewrite Z.min_r by lia. unfold len in *.
    rewrite Nat2Z.id, !take_ge; [done | lia | lia].
Qed.

(** The rest taken by [sliceFrom] is a [drop]. *)
Lemma sliceFrom_suffix (s : jsstring) (k : Z) :
  0 <= k <= len s -> sliceFrom s k = drop (Z.to_nat k) s.
Proof.
  intros Hk. unfold sliceFrom, slice, clampIndex.
  destruct (k <? 0) eqn:E; [lia|].
  destruct (len s <? 0) eqn:E'; [lia|].
  rewrite (Z.min_l k), Z.min_id, Z.max_l by lia.
  apply take_ge. rewrite length_drop. unfold len in *. lia.
Qed.

Lemma lastIndexFrom_range (c : code_unit) (s : jsstring) (i : Z) :
  lastIndexFrom c s i = -1
  \/ i <= lastIndexFrom c s i < i + len s.
Proof.
  revert i. induction s as [|x s IH]; intros i; simpl; [by left|].
  unfold len in *. simpl length.
  destruct (IH (i + 1)) as [E | E].
  - rewrite E. simpl. destruct (N.eqb x c); [right; lia | by left].
  - destruct (0 <=? lastIndexFrom c s (i + 1)) eqn:G.
    + right. lia.
    + destruct (N.eqb x c); [right; lia | by left].
Qed.

Lemma lastIndexOf_lt (s : jsstring) (c : code_unit) :
  lastIndexOf s c < len s.
Proof.
  unfold lastIndexOf.
  destruct (lastIndexFrom_range c s 0) as [E | E];
    [rewrite E; assert (H := len_nonneg s) |]; lia.
Qed.

(** Each turn of the loop cuts a non-empty prefix of at most [maxLen]
    units. *)
Lemma nextChunk_take (remaining : jsstring) (maxLen : Z) :
  1 <= maxLen -> remaining <> [] ->
  exists k : nat,
    nextChunk remaining maxLen = take k remaining
    /\ (1 <= k <= length remaining)%nat /\ Z.of_nat k <= maxLen.
Proof.
  intros Hm Hne.
  assert (Hpos : 0 < len remaining).
  { assert (H := len_nonneg remaining).
    assert (len remaining <> 0) by (by rewrite len_nil_iff). lia. }
  unfold nextChunk.
  rewrite (slice_prefix remaining maxLen) by lia.
  destruct (len remaining >? maxLen) eqn:Hlong.
  - set (chunk := take (Z.to_nat maxLen) remaining).
    assert (Hchunk : len chunk = maxLen).
    { unfold len, chunk. rewrite length_take. unfold len in *. lia. }
    assert (Hlt := lastIndexOf_lt chunk LF). rewrite Hchunk in Hlt.
    destruct (5 * lastIndexOf chunk LF >? 4 * maxLen) eqn:Hnl.
    + rewrite slice_prefix by lia.
      exists (Z.to_nat (lastIndexOf chunk LF + 1)).
      split; [done|]. unfold len in *. lia.
    + exists (Z.to_nat maxLen). split; [done|]. unfold len in *. lia.
  - exists (length remaining). split.
    + rewrite !take_ge; [done | lia | unfold len in *; lia].
    + unfold len in *. lia.
Qed.

Lemma splitLoop_total (maxLen : Z) (Hm : 1 <= maxLen) (fuel : nat) :
  forall remaining acc,
    (length remaining < fuel)%nat ->
    exists chunks,
      splitLoop fuel remaining maxLen acc = Some (acc ++ chunks)
      /\ splits maxLen chunks remaining.
Proof.
  induction fuel as [|fuel IH]; intros remaining acc Hf; [lia|].
  simpl. destruct (decide (remaining = [])) as [-> | Hne].
  - exists []. rewrite app_nil_r. repeat split; constructor.
  - assert (Hpos : (len remaining >? 0) = true).
    { apply Z.gtb_lt. assert (H := len_nonneg remaining).
      assert (len remaining <> 0) by (by rewrite len_nil_iff). lia. }
    rewrite Hpos.
    destruct (nextChunk_take remaining maxLen Hm Hne)
      as (k & Hk & Hrange & Hle).
    rewrite Hk.
    assert (Hlen : len (take k remaining) = Z.of_nat k).
    { unfold len. rewrite length_take. lia. }
    rewrite Hlen, sliceFrom_suffix, Nat2Z.id by (unfold len; lia).
    assert (Hrest : (length (drop k remaining) < fuel)%nat)
      by (rewrite length_drop; lia).
    destruct (IH (drop k remaining) (acc ++ [take k remaining]) Hrest)
      as (chunks & Hrun & Hall & Hcat).
    exists (take k remaining :: chunks). split.
    + rewrite Hrun. by rewrite <- app_assoc.
    + split.
      * constructor; [|done]. split; [|lia].
        intros E. apply (f_equal length) in E.
        rewrite length_take in E. simpl in E. lia.
      * simpl. rewrite Hcat. apply take_drop.
Qed.

(** More turns than needed change nothing. *)
Lemma splitLoop_fuel_mono (maxLen : Z) (fuel : nat) :
  forall remaining acc res fuel',
    splitLoop fuel remaining maxLen acc = Some res ->
    (fuel <= fuel')%nat ->
    splitLoop fuel' remaining maxLen acc = Some res.
Proof.
  induction fuel as [|fuel IH]; intros remaining acc res fuel' Hrun Hle;
    [done|].
  destruct fuel' as [|fuel']; [lia|].
  simpl in *. destruct (len remaining >? 0); [|done].
  apply IH; [done | lia].
Qed.

(** C9. For [maxLen >= 1] the loop of [splitLongMessage] ends within
    [text.length + 1] tests of its condition, and the chunks it returns
    are non-empty, at most [maxLen] code units long, and concatenate to
    [text]. *)
Theorem splitLongMessage_roundtrip (text : jsstring) (maxLen : Z) :
  1 <= maxLen ->
  exists chunks,
    (forall fuel, (length text < fuel)%nat ->
                  splitLongMessage fuel text maxLen = Some chunks)
    /\ Forall (fun c => c <> [] /\ len c <= maxLen) chunks
    /\ concat chunks = text.
Proof.
  intros Hm.
  destruct (splitLoop_total maxLen Hm (S (length text)) text []
              (Nat.lt_succ_diag_r _))
    as (chunks & Hrun & Hall & Hcat).
  exists chunks. split; [|done].
  intros fuel Hf. unfold splitLongMessage.
  apply (splitLoop_fuel_mono maxLen (S (length text))); [done | lia].
Qed.

(** The theorem at the custom-length case of the test suite. *)
Lemma splitLongMessage_roundtrip_witness :
  1 <= 5
  /\ exists chunks,
       (forall fuel, (length (lit "Hello world") < fuel)%nat ->
          splitLongMessage fuel (lit "Hello world") 5 = Some chunks)
       /\ Forall (fun c => c <> [] /\ len c <= 5) chunks
       /\ concat chunks = lit "Hello world".
Proof.
  split; [lia | apply (splitLongMessage_roundtrip (lit "Hello world") 5); lia].
Defined.

(** With [maxLen = 0] every chunk is empty and the loop never ends on a
    non-empty text: no number of turns suffices. *)
Lemma splitLongMessage_zero_diverges (text : jsstring) (fuel : nat) :
  text <> [] -> splitLongMessage fuel text 0 = None.
Proof.
  intros Hne. unfold splitLongMessage. generalize (@nil jsstring).
  induction fuel as [|fuel IH]; intros acc; [done|].
  simpl. destruct text as [|x rest]; [done|].
  replace (len (x :: rest) >? 0) with true
    by (unfold len; simpl length; symmetry; apply Z.gtb_lt; lia).
  assert (Hc : nextChunk (x :: rest) 0 = []).
  { unfold nextChunk. rewrite slice_prefix by lia. simpl.
    replace (len (x :: rest) >? 0) with true
      by (unfold len; simpl length; symmetry; apply Z.gtb_lt; lia).
    reflexivity. }
  rewrite Hc. change (len []) with 0.
  rewrite sliceFrom_suffix by (unfold len; simpl length; lia).
  apply IH.
Qed.

End SplitSpec.

(** ** Numbers beyond 2^53 *)

Module NumberSpec.

Lemma geb_lt (a b : Z) : (a >=? b) = false -> a < b.
Proof. rewrite Z.geb_leb. apply Z.leb_gt. Qed.

Lemma geb_ge (a b : Z) : (a >=? b) = true -> b <= a.
Proof. rewrite Z.geb_leb. apply Z.leb_le. Qed.

Lemma toNumber_small (z : Z) : Z.abs z < 2 ^ 53 -> toNumber z = Finite z.
Proof.
  intros H. unfold toNumber. cbv zeta.
  destruct (Z.abs z <? 2 ^ 53) eqn:E; [done|].
  apply Z.ltb_ge in E. lia.
Qed.

Lemma toNumber_53 : toNumber (2 ^ 53) = Finite (2 ^ 53).
Proof. vm_compute. reflexivity. Qed.

(** What an integer of 2^53 or more is rounded to is 2^53 or more. *)
Lemma rounded_large (a : Z) :
  2 ^ 53 <= a ->
  let e := Z.log2 a - 52 in
  let q := a / 2 ^ e in
  forall up : bool, 2 ^ 53 <= (if up then q + 1 else q) * 2 ^ e.
Proof.
  intros Ha e q up.
  assert (Hlog : 53 <= Z.log2 a) by (apply Z.log2_le_pow2; lia).
  assert (He : 1 <= e) by (unfold e; lia).
  assert (Hpos : 0 < 2 ^ e) by (apply Z.pow_pos_nonneg; lia).
  assert (Hq : 2 ^ 52 <= q).
  { unfold q. apply Z.div_le_lower_bound; [lia|].
    rewrite <- Z.pow_add_r by lia.
    replace (e + 52) with (Z.log2 a) by (unfold e; lia).
    apply Z.log2_spec. lia. }
  assert (H2 : 2 <= 2 ^ e).
  { change 2 with (2 ^ 1) at 1. apply Z.pow_le_mono_r; lia. }
  destruct up; nia.
Qed.

Lemma toNumber_large (z : Z) :
  2 ^ 53 <= z ->
  toNumber z = Infinity false
  \/ exists w, toNumber z = Finite w /\ 2 ^ 53 <= w.
Proof.
  intros H. unfold toNumber. cbv zeta.
  rewrite Z.abs_eq by lia.
  destruct (z <? 2 ^ 53) eqn:E; [apply Z.ltb_lt in E; lia|].
  set (up := _ || _).
  pose proof (rounded_large z H up) as Hv. cbv zeta in Hv.
  destruct (_ >=? 2 ^ 1024).
  - left. f_equal. apply Z.ltb_ge. lia.
  - right. eexists. split; [reflexivity|].
    rewrite Z.sgn_pos by lia. lia.
Qed.

Lemma toNumber_large_neg (z : Z) :
  z <= - 2 ^ 53 ->
  toNumber z = Infinity true
  \/ exists w, toNumber z = Finite w /\ w <= - 2 ^ 53.
Proof.
  intros H. unfold toNumber. cbv zeta.
  rewrite Z.abs_neq by lia.
  destruct (- z <? 2 ^ 53) eqn:E; [apply Z.ltb_lt in E; lia|].
  set (up := _ || _).
  assert (Ha : 2 ^ 53 <= - z) by lia.
  pose proof (rounded_large (- z) Ha up) as Hv. cbv zeta in Hv.
  destruct (_ >=? 2 ^ 1024).
  - left. f_equal. apply Z.ltb_lt. lia.
  - right. eexists. split; [reflexivity|].
    rewrite Z.sgn_neg by lia. lia.
Qed.

(** A Number made from an integer is on the side of 2^53, and of
    -2^53, that the integer is on. *)
Lemma toNumber_sides (z : Z) :
  match toNumber z with
  | NaN => False
  | Infinity negative => if negative then z <= - 2 ^ 53 else 2 ^ 53 <= z
  | Finite w =>
      (Z.abs z < 2 ^ 53 /\ w = z) \/ (2 ^ 53 <= z /\ 2 ^ 53 <= w)
      \/ (z <= - 2 ^ 53 /\ w <= - 2 ^ 53)
  end.
Proof.
  destruct (Z_lt_le_dec (Z.abs z) (2 ^ 53)) as [Hs | Hl].
  - rewrite toNumber_small by done. by left.
  - destruct (Z_le_gt_dec 0 z) as [Hp | Hn].
    + assert (H : 2 ^ 53 <= z) by lia.
      destruct (toNumber_large z H) as [-> | (w & -> & Hw)]; [done|].
      right. by left.
    + assert (H : z <= - 2 ^ 53) by lia.
      destruct (toNumber_large_neg z H) as [-> | (w & -> & Hw)]; [done|].
      right. by right.
Qed.

(** [parseInt(s, 10) - 1] where the tests of the parsers pass: it is a
    finite number within the bound, and for a bound below 2^53 it is the
    integer read, less one. *)
Lemma index_in_range (v bound : Z) :
  let index := minus (toNumber v) 1 in
  isNaN index || lessThan index 0 || atLeast index bound = false ->
  exists i, index = Finite i /\ 0 <= i < bound
            /\ (bound < 2 ^ 53 -> i = v - 1).
Proof.
  intros index Htests. subst index.
  apply orb_false_iff in Htests as [Htests Hhi].
  apply orb_false_iff in Htests as [Hnan Hlo].
  destruct (minus (toNumber v) 1) as [|neg|i] eqn:Hm; [done | |].
  { destruct neg; simpl in *; done. }
  simpl in Hlo, Hhi. apply Z.ltb_ge in Hlo.
  assert (Hi : i < bound) by (by apply geb_lt).
  exists i. split; [done|]. split; [lia|]. intros Hb.
  pose proof (toNumber_sides v) as Hv.
  destruct (toNumber v) as [|neg|w] eqn:Hw; [done | by simpl in Hm |].
  simpl in Hm. pose proof (toNumber_sides (w - 1)) as Hw1.
  rewrite Hm in Hw1. lia.
Qed.

(** The same without the subtraction, as the branches of the buttons
    have it: for a bound up to 2^53, and the length of an array is
    below 2^32, the tests on the Number that [parseInt] returns are the
    tests on the integer read, and where they pass the Number is that
    integer. *)
Lemma parseInt10_against_length (s : jsstring) (bound : Z) :
  bound <= 2 ^ 53 ->
  match mathInt10 s with
  | None => isNaN (parseInt10 s) = true
  | Some v =>
      if (v <? 0) || (v >=? bound)
      then lessThan (parseInt10 s) 0 || atLeast (parseInt10 s) bound = true
      else parseInt10 s = Finite v
  end.
Proof.
  intros Hb. unfold parseInt10. destruct (mathInt10 s) as [v|]; [|done].
  pose proof (toNumber_sides v) as Hv.
  destruct (v <? 0) eqn:E1; simpl.
  - apply Z.ltb_lt in E1.
    destruct (toNumber v) as [|[|]|w]; simpl; try done; try lia.
  - apply Z.ltb_ge in E1. destruct (v >=? bound) eqn:E2.
    + apply geb_ge in E2.
      destruct (toNumber v) as [|[|]|w]; simpl; try done; try lia.
    + apply geb_lt in E2. apply toNumber_small. lia.
Qed.

End NumberSpec.

(** ** Parsing a one-based selection *)

Module ParseSpec.
Import Utils NumberSpec.

(** The two parsers are the same function. *)
Lemma parseDirectoryIndex_parseModelIndex indexStr maxIndex :
  parseDirectoryIndex indexStr maxIndex = parseModelIndex indexStr maxIndex.
Proof. reflexivity. Qed.

(** What the parser returns, by cases. *)
Lemma parseModelIndex_cases (indexStr : option jsstring) (maxIndex : Z) :
  parseModelIndex indexStr maxIndex = -1
  \/ exists s v i,
       indexStr = Some s /\ mathInt10 s = Some v
       /\ minus (toNumber v) 1 = Finite i
       /\ parseModelIndex indexStr maxIndex = i
       /\ 0 <= i < maxIndex
       /\ (maxIndex < 2 ^ 53 -> i = v - 1).
Proof.
  unfold parseModelIndex.
  destruct indexStr as [[|c s]|]; simpl negb; cbv iota; [by left | | by left].
  change (default [] (Some (c :: s))) with (c :: s).
  unfold parseInt10.
  destruct (mathInt10 (c :: s)) as [v|] eqn:Hp; [|by left].
  destruct (isNaN (minus (toNumber v) 1) || lessThan (minus (toNumber v) 1) 0
            || atLeast (minus (toNumber v) 1) maxIndex) eqn:Htests;
    [by left|].
  destruct (index_in_range v maxIndex Htests) as (i & Hi & Hr & Heq).
  right. exists (c :: s), v, i. rewrite Hi. done.
Qed.

(** The tests of the parser pass for a selection in range, when the
    bound is at most 2^53. *)
Lemma parseModelIndex_accepts_value (s : jsstring) (v maxIndex : Z) :
  s <> [] -> mathInt10 s = Some v ->
  1 <= v <= maxIndex -> maxIndex <= 2 ^ 53 ->
  parseModelIndex (Some s) maxIndex = v - 1.
Proof.
  intros Hs Hv Hr Hb. unfold parseModelIndex.
  destruct s as [|c s]; [done|]. simpl negb. cbv iota.
  change (default [] (Some (c :: s))) with (c :: s).
  unfold parseInt10. rewrite Hv.
  assert (Hnum : toNumber v = Finite v).
  { destruct (Z_lt_le_dec v (2 ^ 53)) as [Hlt | Hge].
    - apply toNumber_small. lia.
    - replace v with (2 ^ 53) by lia. apply toNumber_53. }
  rewrite Hnum. simpl. rewrite toNumber_small by lia.
  simpl. destruct (v - 1 <? 0) eqn:E1; [apply Z.ltb_lt in E1; lia|].
  destruct (v - 1 >=? maxIndex) eqn:E2; [apply geb_ge in E2; lia | done].
Qed.

(** C10, as the code has it. Both parsers return -1 or an index [i] with
    [0 <= i < maxIndex]: the result, when it is not -1, is a position
    of every list whose length is the bound.  The index is
    [parseInt(indexStr, 10) - 1] in double arithmetic; for a bound
    below 2^53 that is the integer that the input denotes, less one,
    and every such integer from 1 to the bound is accepted. *)
Theorem parse_index_in_range (indexStr : option jsstring) (maxIndex : Z)
    (A : Type) (l : list A) :
  let answers (r : Z) :=
    (r = -1
     \/ (0 <= r < maxIndex
         /\ exists s v, indexStr = Some s /\ mathInt10 s = Some v
                        /\ minus (toNumber v) 1 = Finite r
                        /\ (maxIndex < 2 ^ 53 -> r = v - 1)))
    /\ (forall s v, indexStr = Some s -> s <> [] -> mathInt10 s = Some v ->
                    1 <= v <= maxIndex -> maxIndex < 2 ^ 53 -> r = v - 1) in
  let selects (r : Z) := r = -1 \/ is_Some (l !! Z.to_nat r) in
  answers (parseModelIndex indexStr maxIndex)
  /\ answers (parseDirectoryIndex indexStr maxIndex)
  /\ selects (parseModelIndex indexStr (Z.of_nat (length l)))
  /\ selects (parseDirectoryIndex indexStr (Z.of_nat (length l))).
Proof.
  intros answers selects.
  assert (H : answers (parseModelIndex indexStr maxIndex)).
  { unfold answers. split.
    - destruct (parseModelIndex_cases indexStr maxIndex)
        as [E | (s & v & i & Hs & Hv & Hm & E & Hr & Heq)]; [by left|].
      right. rewrite E. split; [lia|]. by exists s, v.
    - intros s v -> Hs Hv Hr Hb.
      apply parseModelIndex_accepts_value; [done | done | done | lia]. }
  assert (H' : selects (parseModelIndex indexStr (Z.of_nat (length l)))).
  { unfold selects.
    destruct (parseModelIndex_cases indexStr (Z.of_nat (length l)))
      as [E | (s & v & i & Hs & Hv & Hm & E & Hr & Heq)]; [by left|].
    right. rewrite E. apply lookup_lt_is_Some. lia. }
  split; [exact H|]. split; [by rewrite parseDirectoryIndex_parseModelIndex|].
  split; [exact H'|]. by rewrite parseDirectoryIndex_parseModelIndex.
Qed.

(** C10 as stated fails from 2^53 on. For the bound 2^53 and the input
    9007199254740993, which is 2^53 + 1, [parseInt] returns 2^53, the
    nearest double, and both parsers return 2^53 - 1, which is not the
    integer that the input denotes, less one. *)
Lemma parse_index_counterexample :
  mathInt10 (lit "9007199254740993") = Some (2 ^ 53 + 1)
  /\ parseInt10 (lit "9007199254740993") = Finite (2 ^ 53)
  /\ parseModelIndex (Some (lit "9007199254740993")) (2 ^ 53) = 2 ^ 53 - 1
  /\ parseDirectoryIndex (Some (lit "9007199254740993")) (2 ^ 53)
     = 2 ^ 53 - 1
  /\ 2 ^ 53 - 1 < (2 ^ 53 + 1) - 1.
Proof. repeat split; vm_compute; reflexivity. Qed.

(** The theorem at the thirteenth model of fourteen. *)
Lemma parse_index_in_range_witness :
  parseModelIndex (Some (lit "13")) 14 = 12
  /\ parseDirectoryIndex (Some (lit "13")) 14 = 12.
Proof.
  destruct (parse_index_in_range (Some (lit "13")) 14 unit [])
    as ((_ & H1) & (_ & H2) & _).
  split; [apply (H1 (lit "13") 13) | apply (H2 (lit "13") 13)];
    done || (vm_compute; reflexivity) || lia.
Defined.

(** *** Every selection in range is accepted *)

Lemma decimalValue_uint (d : Decimal.uint) :
  forall acc : nat,
    fold_left (fun a x => 10 * a + x) (digitsPrefix (uintUnits d))
              (Z.of_nat acc)
    = Z.of_nat (Nat.of_uint_acc d acc).
Proof.
  induction d; intros acc; simpl; [done | ..];
    rewrite <- IHd; f_equal; rewrite Nat.tail_mul_spec; lia.
Qed.

Lemma mathInt10_uint (d : Decimal.uint) :
  d <> Decimal.Nil ->
  mathInt10 (uintUnits d) = Some (Z.of_nat (Nat.of_uint d)).
Proof.
  intros Hd. unfold Nat.of_uint. rewrite <- decimalValue_uint.
  destruct d; [done | ..]; unfold mathInt10; simpl;
    f_equal; unfold decimalValue; simpl;
    by destruct (fold_left _ _ _).
Qed.

Lemma to_uint_not_Nil (n : nat) : Nat.to_uint n <> Decimal.Nil.
Proof.
  rewrite <- (DecimalNat.Unsigned.of_to n) at 1.
  rewrite DecimalNat.Unsigned.to_of. unfold Decimal.unorm.
  by destruct (Decimal.nzhead (Nat.to_uint n)).
Qed.

(** [parseInt] reads back the decimal print of a natural number. *)
Lemma mathInt10_ofNat (n : nat) : mathInt10 (ofNat n) = Some (Z.of_nat n).
Proof.
  unfold ofNat. rewrite mathInt10_uint by apply to_uint_not_Nil.
  by rewrite DecimalNat.Unsigned.of_to.
Qed.

Lemma ofNat_truthy (n : nat) : truthy (Some (ofNat n)) = true.
Proof.
  unfold ofNat. pose proof (to_uint_not_Nil n) as Hn.
  by destruct (Nat.to_uint n).
Qed.

(** The one-based print of a position of the list selects that
    position. *)
Lemma parseModelIndex_accepts (n : nat) (maxIndex : Z) :
  Z.of_nat n < maxIndex -> maxIndex <= 2 ^ 53 ->
  parseModelIndex (Some (ofNat (S n))) maxIndex = Z.of_nat n.
Proof.
  intros Hn Hb.
  rewrite (parseModelIndex_accepts_value (ofNat (S n)) (Z.of_nat (S n)));
    [lia | | apply mathInt10_ofNat | lia | done].
  pose proof (ofNat_truthy (S n)) as Ht. by destruct (ofNat (S n)).
Qed.

Example parse_roundtrip_examples :
  mathInt10 (ofNat 14) = Some 14
  /\ parseInt10 (ofNat 14) = Finite 14
  /\ parseModelIndex (Some (ofNat 14)) 14 = 13
  /\ parseModelIndex (Some (ofNat 15)) 14 = -1
  /\ parseInt10 (lit "  +7 dirs") = Finite 7
  /\ parseInt10 (lit "dirs") = NaN
  /\ parseModelIndex (Some (lit "-3")) 14 = -1.
Proof. repeat split; reflexivity. Qed.

End ParseSpec.

(** ** Session markers *)

Module EmojiSpec.
Import Utils Index.

Lemma firstUnused_Some used available e :
  firstUnused used available = Some e -> e ∈ available /\ e ∉ used.
Proof.
  induction available as [|x rest IH]; simpl; [done|].
  destruct (decide (x ∈ used)) as [Hin | Hout].
  - intros H. destruct (IH H). split; [by right | done].
  - intros [= <-]. split; [by left | done].
Qed.

Lemma firstUnused_None used available :
  firstUnused used available = None -> forall e, e ∈ available -> e ∈ used.
Proof.
  induction available as [|x rest IH]; simpl; intros H e He.
  - by apply elem_of_nil in He.
  - destruct (decide (x ∈ used)) as [Hin | Hout]; [|done].
    apply elem_of_cons in He as [-> | He]; [done | by apply IH].
Qed.

Lemma firstUnused_is_Some used available e :
  e ∈ available -> e ∉ used -> is_Some (firstUnused used available).
Proof.
  intros He Hout.
  destruct (firstUnused used available) eqn:E; [by eexists|].
  by destruct (Hout (firstUnused_None _ _ E e He)).
Qed.

(** The marker picker of index.ts is the one of utils.ts on the markers
    that the chat states hold. *)
Lemma pickSessionEmoji_utils cs rnd :
  Index.pickSessionEmoji cs rnd
  = Utils.pickSessionEmoji (usedEmojis cs) sessionEmojis rnd.
Proof. reflexivity. Qed.

Lemma elem_of_usedEmojis (cs : gmap Z ChatState) (e : jsstring) :
  e ∈ usedEmojis cs
  <-> exists k st, cs !! k = Some st /\ emoji st = Some e /\ e <> [].
Proof.
  unfold usedEmojis. rewrite elem_of_list_to_set, list_elem_of_omap.
  split.
  - intros ([k st] & Hin & Hf). apply elem_of_map_to_list in Hin.
    simpl in Hf. exists k, st. destruct (emoji st) as [[|c r]|]; try done.
    simpl in Hf. injection Hf as <-. done.
  - intros (k & st & Hk & He & Hne). exists (k, st). split.
    + by apply elem_of_map_to_list.
    + simpl. rewrite He. destruct e; done.
Qed.

(** Only the [emoji] fields matter to the set of used markers. *)
Lemma usedEmojis_insert_same (cs : gmap Z ChatState) k st st' :
  cs !! k = Some st -> emoji st' = emoji st ->
  usedEmojis (<[k := st']> cs) = usedEmojis cs.
Proof.
  intros Hk He. apply set_eq. intros e. rewrite !elem_of_usedEmojis.
  split; intros (j & sj & Hj & Hej & Hne).
  - destruct (decide (j = k)) as [-> | Hjk].
    + rewrite lookup_insert_eq in Hj. injection Hj as <-.
      exists k, st. by rewrite <- He.
    + rewrite lookup_insert_ne in Hj by done. by exists j, sj.
  - destruct (decide (j = k)) as [-> | Hjk].
    + exists k, st'. rewrite lookup_insert_eq.
      rewrite Hk in Hj. injection Hj as <-. by rewrite He.
    + exists j, sj. by rewrite lookup_insert_ne.
Qed.

Lemma sessionEmojis_nonempty e : e ∈ sessionEmojis -> e <> [].
Proof.
  unfold sessionEmojis. intros H ->.
  repeat (apply elem_of_cons in H as [H | H]; [discriminate H|]).
  by apply elem_of_nil in H.
Qed.

(** While a marker of the pool is free the pick is a free marker of the
    pool; once none is, it is the marker at the drawn position. *)
Lemma pickSessionEmoji_spec (cs : gmap Z ChatState) rnd :
  ((exists e, e ∈ sessionEmojis /\ e ∉ usedEmojis cs) ->
   exists e, pickSessionEmoji cs rnd = Some e
             /\ e ∈ sessionEmojis /\ e ∉ usedEmojis cs)
  /\ ((forall e, e ∈ sessionEmojis -> e ∈ usedEmojis cs) ->
      (rnd < length sessionEmojis)%nat ->
      exists e, pickSessionEmoji cs rnd = Some e /\ e ∈ sessionEmojis).
Proof.
  unfold pickSessionEmoji. split.
  - intros (e & He & Hout).
    destruct (firstUnused_is_Some _ _ _ He Hout) as [e' He'].
    rewrite He'. exists e'. split; [done|].
    by apply firstUnused_Some.
  - intros Hall Hrnd.
    destruct (firstUnused (usedEmojis cs) sessionEmojis) as [e|] eqn:E.
    + apply firstUnused_Some in E as [He Hout]. by destruct (Hout (Hall e He)).
    + destruct (lookup_lt_is_Some_2 sessionEmojis rnd Hrnd) as [e He].
      exists e. split; [done|]. by eapply list_elem_of_lookup_2.
Qed.

End EmojiSpec.

(** ** Starting a session *)

Module StartSpec.
Import Utils Index EmojiSpec.

Lemma ensureState_is_Some cfg rnd (cs : gmap Z ChatState) chatId model :
  is_Some (ensureState cfg rnd cs chatId model !! chatId).
Proof.
  unfold ensureState. destruct (cs !! chatId) as [st|] eqn:E.
  - destruct (truthy model); [rewrite lookup_insert_eq | rewrite E]; by eexists.
  - rewrite lookup_insert_eq. by eexists.
Qed.

(** The states of the other chats are not touched. *)
Lemma ensureState_other cfg rnd (cs : gmap Z ChatState) chatId model other :
  other <> chatId ->
  ensureState cfg rnd cs chatId model !! other = cs !! other.
Proof.
  intros Hne. unfold ensureState. destruct (cs !! chatId) as [st|].
  - destruct (truthy model); [by rewrite lookup_insert_ne | done].
  - by rewrite lookup_insert_ne.
Qed.

Lemma teardown_emoji st : emoji (teardown st).1 = emoji st.
Proof.
  unfold teardown.
  destruct st as [c s d m b q r i e cp af pc eq pe om tc].
  destruct s, c; reflexivity.
Qed.

(** A call that returns has gone through the success path: the state of
    the chat after it is the stored session. *)
Lemma startSession_returned cfg env (cs : gmap Z ChatState) chatId
    directory model :
  (startSession cfg env cs chatId directory model).2 = Returned ->
  exists st0 s,
    ensureState cfg (rndOnCreate env) cs chatId model !! chatId = Some st0
    /\ createSessionOutcome env = inl s
    /\ (startSession cfg env cs chatId directory model).1.1
       = <[chatId :=
             storeSession
               (<[chatId := (teardown st0).1]>
                  (ensureState cfg (rndOnCreate env) cs chatId model))
               chatId (teardown st0).1 (newClient env) s directory
               (rndOnAssign env)]>
           (<[chatId := (teardown st0).1]>
              (ensureState cfg (rndOnCreate env) cs chatId model)).
Proof.
  unfold startSession.
  destruct (ensureState_is_Some cfg (rndOnCreate env) cs chatId model)
    as [st0 Hst0].
  rewrite Hst0. destruct (teardown st0) as [st1 eT] eqn:Ht.
  destruct (chdirOutcome env); [|done].
  destruct (clientStartOutcome env); [|done].
  destruct (createSessionOutcome env) as [s | err]; [|done].
  intros _. exists st0, s. by rewrite Ht.
Qed.

(** A call returns exactly when the directory switch, the start of the
    client and the creation of the session all succeed. *)
Lemma startSession_returns_iff cfg env (cs : gmap Z ChatState) chatId
    directory model :
  (startSession cfg env cs chatId directory model).2 = Returned
  <-> chdirOutcome env = Resolves /\ clientStartOutcome env = Resolves
      /\ exists s, createSessionOutcome env = inl s.
Proof.
  unfold startSession.
  destruct (ensureState_is_Some cfg (rndOnCreate env) cs chatId model)
    as [st0 Hst0].
  rewrite Hst0. destruct (teardown st0) as [st1 eT].
  destruct (chdirOutcome env); [|split; [done | by intros [? _]]].
  destruct (clientStartOutcome env);
    [|split; [done | by intros (_ & ? & _)]].
  destruct (createSessionOutcome env) as [s | err].
  - split; [intros _; eauto | done].
  - split; [done | by intros (_ & _ & [s ?])].
Qed.

Lemma storeSession_fields (cs : gmap Z ChatState) chatId st c s d rnd :
  let st' := storeSession cs chatId st c s d rnd in
  busy st' = false /\ queue st' = [] /\ resetting st' = false
  /\ eventQueue st' = Some [] /\ session st' = Some s
  /\ dir st' = Some d
  /\ emoji st' = pickSessionEmoji
       (<[chatId := set_emoji (emoji st) st']> cs) rnd.
Proof.
  destruct st as [c0 s0 d0 m b q r i e cp af pc eq pe om tc].
  repeat split; reflexivity.
Qed.

(** What a successful start leaves. When [startSession] returns, the
    state of the chat has [busy = false], an empty prompt queue,
    [resetting = false], an empty event queue, a session handle, and the
    given directory. Its marker is picked against the markers that the
    chat states hold at the moment of the pick, the marker that the chat
    itself held before, or was given at its creation a few lines earlier,
    included: if some marker of the pool is held by no state then, the new
    marker is one of the pool that no other chat holds; if every marker of
    the pool is held, it is the marker of the pool at the drawn
    position. *)
Theorem startSession_success cfg env (cs : gmap Z ChatState) chatId
    directory model :
  let result := startSession cfg env cs chatId directory model in
  let atPick := ensureState cfg (rndOnCreate env) cs chatId model in
  result.2 = Returned ->
  exists st',
    result.1.1 !! chatId = Some st'
    /\ busy st' = false /\ queue st' = [] /\ resetting st' = false
    /\ eventQueue st' = Some []
    /\ is_Some (session st') /\ dir st' = Some directory
    /\ ((exists e, e ∈ sessionEmojis /\ e ∉ usedEmojis atPick) ->
        exists e, emoji st' = Some e /\ e ∈ sessionEmojis
                  /\ forall other st, other <> chatId ->
                       result.1.1 !! other = Some st -> emoji st <> Some e)
    /\ ((forall e, e ∈ sessionEmojis -> e ∈ usedEmojis atPick) ->
        (rndOnAssign env < length sessionEmojis)%nat ->
        exists e, emoji st' = Some e /\ e ∈ sessionEmojis).
Proof.
  intros result atPick Hret. subst result.
  destruct (startSession_returned _ _ _ _ _ _ Hret)
    as (st0 & s & Hst0 & Hs & ->).
  fold atPick in Hst0 |- *.
  set (st1 := (teardown st0).1).
  set (cs1 := <[chatId := st1]> atPick).
  rewrite lookup_insert_eq. eexists. split; [reflexivity|].
  destruct (storeSession_fields cs1 chatId st1 (newClient env) s directory
                                (rndOnAssign env))
    as (Hb & Hq & Hr & Heq & Hses & Hd & Hemoji).
  split; [exact Hb|]. split; [exact Hq|]. split; [exact Hr|].
  split; [exact Heq|]. split; [rewrite Hses; by eexists|].
  split; [exact Hd|].
  assert (Hused :
    usedEmojis
      (<[chatId :=
           set_emoji (emoji st1)
             (storeSession cs1 chatId st1 (newClient env) s directory
                           (rndOnAssign env))]> cs1)
    = usedEmojis atPick).
  { unfold cs1. rewrite insert_insert_eq.
    apply (usedEmojis_insert_same atPick chatId st0); [done|].
    transitivity (emoji st1); [|apply teardown_emoji].
    by destruct (storeSession _ _ _ _ _ _ _). }
  destruct (pickSessionEmoji_spec
              (<[chatId :=
                   set_emoji (emoji st1)
                     (storeSession cs1 chatId st1 (newClient env) s
                                   directory (rndOnAssign env))]> cs1)
              (rndOnAssign env))
    as [Hfree Hfull].
  rewrite Hused, <- Hemoji in Hfree, Hfull. clear Hused Hemoji. split.
  - intros Hex. destruct (Hfree Hex) as (e & He & Hpool & Hout).
    exists e. split; [exact He|]. split; [exact Hpool|].
    intros other st Hne Hother Hsame.
    rewrite lookup_insert_ne in Hother by done.
    unfold cs1 in Hother. rewrite lookup_insert_ne in Hother by done.
    apply Hout. apply elem_of_usedEmojis. exists other, st.
    split; [exact Hother|]. split; [exact Hsame|].
    by apply sessionEmojis_nonempty.
  - intros Hall Hrnd. destruct (Hfull Hall Hrnd) as (e & He & Hpool).
    exists e. split; [exact He | exact Hpool].
Qed.

End StartSpec.

Module ScenarioChecks.
Import Utils Index Scenario.

Example started1_state : started1 !! 1 = Some state1.
Proof. vm_compute. reflexivity. Qed.

Example started1_singleton : started1 = {[1 := state1]}.
Proof. vm_compute. reflexivity. Qed.

Example appendImages_example :
  appendImagesToPrompt (lit "fix it") (Some [lit "u1"; lit "u2"])
  = lit "fix it" ++ [LF; LF; 21443; 32771; 22294; 29255; 65306; LF]%N
    ++ lit "1. u1" ++ [LF] ++ lit "2. u2"
  /\ appendImagesToPrompt (lit "fix it") (Some []) = lit "fix it"
  /\ appendImagesToPrompt (lit "fix it") None = lit "fix it".
Proof. repeat split; reflexivity. Qed.

(** The first two turns of chat 1 in the words of the specification:
    task1 is sent at once and makes the chat busy; task2 is queued and
    not sent; the idle event then sends task2 and leaves the chat busy
    with an empty queue. *)
Example two_turns :
  let first := onMessage cfg (msgEnv Resolves) started1 (textMessage 1 "task1") in
  let second := onMessage cfg (msgEnv Resolves) first.1 (textMessage 1 "task2") in
  let idle := handleSessionIdle Resolves second.1 1 in
  first.2 = [SessionSend 7%nat (lit "task1")]
  /\ busy <$> first.1 !! 1 = Some true
  /\ currentPrompt <$> first.1 !! 1 = Some (Some (lit "task1"))
  /\ second.2 = [BotSendMessage 1 TxtQueued]
  /\ queueOf second.1 1 = [lit "task2"]
  /\ idle.2 = [SessionSend 7%nat (lit "task2")]
  /\ busy <$> idle.1 !! 1 = Some true
  /\ queueOf idle.1 1 = [].
Proof. repeat split; vm_compute; reflexivity. Qed.

(** An idle event on an empty queue, no final answer pending: the
    completion notice is sent at once. *)
Example idle_on_empty_queue :
  (handleSessionIdle Resolves started1 1).2 = [BotSendStatus 1 None true].
Proof. vm_compute. reflexivity. Qed.

End ScenarioChecks.

Module StartExamples.
Import Utils Index Scenario StartSpec.

(** The first start of chat 1: the pool is not exhausted and chat 1
    gets a marker of its own. *)
Lemma startSession_first_start :
  (startSession cfg startOk ∅ 1 (lit "/w") (Some (lit "m"))).2 = Returned
  /\ exists st',
       started1 !! 1 = Some st'
       /\ busy st' = false /\ queue st' = [] /\ resetting st' = false
       /\ eventQueue st' = Some []
       /\ is_Some (session st') /\ dir st' = Some (lit "/w").
Proof.
  assert (Hret : (startSession cfg startOk ∅ 1 (lit "/w")
                               (Some (lit "m"))).2 = Returned)
    by (vm_compute; reflexivity).
  split; [exact Hret|].
  destruct (startSession_success cfg startOk ∅ 1 (lit "/w")
                                 (Some (lit "m")) Hret)
    as (st' & H1 & H2 & H3 & H4 & H5 & H6 & H7 & _).
  exists st'. repeat split; assumption.
Defined.

(** C8 at the first start of a chat when exactly one marker of the pool
    is free. Seventeen chats hold the first seventeen markers and chat 1,
    which has no state, starts its first session: the last marker of the
    pool is held by no chat. [startSession] gives it to the state that it
    creates for chat 1 (line 630) and then, on the success path, picks
    again (line 716): it finds every marker held, the one that chat 1
    holds itself included, and assigns the marker at the drawn position,
    which is the marker of chat 100. The session of chat 1 starts with a
    marker that another chat holds, though a marker was free. *)
Theorem first_start_takes_marker_in_use :
  (startSession cfg startOk seventeenChats 1 (lit "/w") None).2 = Returned
  /\ seventeenChats !! 1 = None
  /\ (exists e, sessionEmojis !! 17%nat = Some e
                /\ e ∉ usedEmojis seventeenChats)
  /\ emoji <$> (ensureState cfg 0 seventeenChats 1 None) !! 1
     = Some (sessionEmojis !! 17%nat)
  /\ emoji <$> (startSession cfg startOk seventeenChats 1 (lit "/w") None).1.1
                !! 1
     = Some (sessionEmojis !! 0%nat)
  /\ emoji <$> (startSession cfg startOk seventeenChats 1 (lit "/w") None).1.1
                !! 100
     = Some (sessionEmojis !! 0%nat).
Proof.
  split; [vm_compute; reflexivity|]. split; [vm_compute; reflexivity|].
  split.
  - eexists. split; [reflexivity|].
    apply (bool_decide_eq_false_1 _). vm_compute. reflexivity.
  - repeat split; vm_compute; reflexivity.
Qed.

End StartExamples.

(** ** Submitting a prompt *)

Module MessageSpec.
Import Utils Index.

(** *** Field reads after assignments *)

Lemma set_images_id st : set_images (images st) st = st.
Proof. by destruct st. Qed.

Lemma set_images_fields imgs st :
  session (set_images imgs st) = session st
  /\ dir (set_images imgs st) = dir st
  /\ resetting (set_images imgs st) = resetting st
  /\ busy (set_images imgs st) = busy st
  /\ queue (set_images imgs st) = queue st
  /\ currentPrompt (set_images imgs st) = currentPrompt st
  /\ turnCount (set_images imgs st) = turnCount st
  /\ images (set_images imgs st) = imgs.
Proof. by destruct st. Qed.

Lemma set_queue_fields q st :
  session (set_queue q st) = session st
  /\ dir (set_queue q st) = dir st
  /\ resetting (set_queue q st) = resetting st
  /\ busy (set_queue q st) = busy st
  /\ queue (set_queue q st) = q
  /\ images (set_queue q st) = images st.
Proof. by destruct st. Qed.

Lemma isPrompt_inv msg :
  isPrompt msg = true ->
  truthy (captionOrText msg) = true
  /\ startsWith (default [] (captionOrText msg)) (lit "/") = false
  /\ promptText msg <> [].
Proof.
  unfold isPrompt, promptText. intros H.
  apply andb_true_iff in H as [Ht Hs]. apply negb_true_iff in Hs.
  repeat split; [done | done |].
  by destruct (captionOrText msg) as [[|c r]|].
Qed.

(** *** The image of a message

    Whatever the message carries, storing its image performs no send
    and leaves, in the state of the chat, every field but [images] as it
    was; a chat without state gets a fresh one. *)
Lemma storeAttachment_shape cfg env (cs : gmap Z ChatState) msg :
  let chatId := msg_chat_id msg in
  let st0 :=
    default (freshState (defaultModel cfg)
                        (pickSessionEmoji cs (rndOnImage env)))
            (cs !! chatId) in
  exists imgs effs,
    storeAttachment cfg env cs msg
    = (<[chatId := set_images imgs st0]> cs, effs)
    /\ sentPrompts effs = []
    /\ (forall t, t ∈ chatTexts chatId effs ->
                  (exists n, t = TxtImagesAdded n) \/ t = TxtImageError).
Proof.
  intros chatId st0. unfold storeAttachment. fold chatId.
  assert (Hst0 :
    match cs !! chatId with
    | Some _ => cs
    | None => <[chatId := freshState (defaultModel cfg)
                            (pickSessionEmoji cs (rndOnImage env))]> cs
    end = <[chatId := st0]> cs).
  { unfold st0. destruct (cs !! chatId) as [st|] eqn:E; simpl; [|done].
    by rewrite insert_id. }
  rewrite Hst0, lookup_insert_eq.
  assert (Hid : <[chatId := st0]> cs
                = <[chatId := set_images (images st0) st0]> cs)
    by (by rewrite set_images_id).
  destruct (attachedFileId msg) as [fileId|].
  - destruct (getFile env fileId) as [filePath | err].
    + eexists _, _. rewrite insert_insert_eq. split; [reflexivity|].
      split; [reflexivity|]. intros t Ht. simpl in Ht.
      rewrite Z.eqb_refl in Ht. apply list_elem_of_singleton in Ht as ->.
      left. by eexists.
    + eexists _, _. rewrite Hid at 1. split; [reflexivity|].
      split; [reflexivity|]. intros t Ht. simpl in Ht.
      rewrite Z.eqb_refl in Ht. apply list_elem_of_singleton in Ht as ->.
      by right.
  - eexists _, _. rewrite Hid at 1. split; [reflexivity|].
    split; [reflexivity|]. intros t Ht. by apply elem_of_nil in Ht.
Qed.

(** *** The dispatch of the prompt, by cases *)

Section Dispatch.
Context (env : MessageEnv) (cs : gmap Z ChatState) (msg : Message).
Context (Hprompt : isPrompt msg = true).

Lemma dispatch_no_state :
  cs !! msg_chat_id msg = None ->
  dispatchPrompt env cs msg = (cs, [BotSendMessage (msg_chat_id msg) TxtNoSession]).
Proof.
  intros Hnone. destruct (isPrompt_inv msg Hprompt) as (Ht & Hs & _).
  unfold dispatchPrompt. cbv zeta. by rewrite Ht, Hs, Hnone.
Qed.

Lemma dispatch_no_session st :
  cs !! msg_chat_id msg = Some st ->
  session st = None \/ truthy (dir st) = false ->
  dispatchPrompt env cs msg = (cs, [BotSendMessage (msg_chat_id msg) TxtNoSession]).
Proof.
  intros Hst Hno. destruct (isPrompt_inv msg Hprompt) as (Ht & Hs & _).
  unfold dispatchPrompt. cbv zeta. rewrite Ht, Hs, Hst. simpl.
  destruct Hno as [-> | ->]; [done | by destruct (session st)].
Qed.

Lemma dispatch_resetting st s :
  cs !! msg_chat_id msg = Some st ->
  session st = Some s -> truthy (dir st) = true ->
  resetting st = true ->
  dispatchPrompt env cs msg = (cs, [BotSendMessage (msg_chat_id msg) TxtPleaseWait]).
Proof.
  intros Hst Hs Hd Hr. destruct (isPrompt_inv msg Hprompt) as (Ht & Hc & _).
  unfold dispatchPrompt. cbv zeta. by rewrite Ht, Hc, Hst, Hs, Hd, Hr.
Qed.

Lemma dispatch_busy st s :
  cs !! msg_chat_id msg = Some st ->
  session st = Some s -> truthy (dir st) = true ->
  resetting st = false -> busy st = true ->
  dispatchPrompt env cs msg
  = (<[msg_chat_id msg := set_queue (queue st ++ [promptText msg]) st]> cs,
     [BotSendMessage (msg_chat_id msg) TxtQueued]).
Proof.
  intros Hst Hs Hd Hr Hb.
  destruct (isPrompt_inv msg Hprompt) as (Ht & Hc & _).
  unfold dispatchPrompt. cbv zeta.
  by rewrite Ht, Hc, Hst, Hs, Hd, Hr, Hb.
Qed.

Lemma dispatch_idle st s :
  cs !! msg_chat_id msg = Some st ->
  session st = Some s -> truthy (dir st) = true ->
  resetting st = false -> busy st = false ->
  dispatchPrompt env cs msg
  = match sendOutcome env with
    | Resolves =>
        (<[msg_chat_id msg := accepted msg st]> cs,
         [SessionSend s (appendImagesToPrompt (promptText msg) (images st))])
    | Rejects err =>
        (<[msg_chat_id msg := rolledBack msg st]> cs,
         [SessionSend s (appendImagesToPrompt (promptText msg) (images st));
          BotSendMessage (msg_chat_id msg) (TxtSendError err)])
    end.
Proof.
  intros Hst Hs Hd Hr Hb.
  destruct (isPrompt_inv msg Hprompt) as (Ht & Hc & _).
  unfold dispatchPrompt. cbv zeta.
  rewrite Ht, Hc, Hst, Hs, Hd, Hr, Hb.
  unfold accepted, rolledBack, promptText.
  destruct st; simpl. by destruct (sendOutcome env).
Qed.

End Dispatch.

Lemma onMessage_owner cfg env (cs : gmap Z ChatState) msg :
  isOwner cfg (msg_chat_id msg) = true ->
  onMessage cfg env cs msg
  = if hasImage msg then
      let '(cs1, eImage) := storeAttachment cfg env cs msg in
      let '(cs2, ePrompt) := dispatchPrompt env cs1 msg in
      (cs2, eImage ++ ePrompt)
    else dispatchPrompt env cs msg.
Proof. intros H. unfold onMessage, hasImage. by rewrite H. Qed.

(** What the handler does before the dispatch, for a chat with state. *)
Lemma onMessage_with_state cfg env (cs : gmap Z ChatState) msg st :
  let chatId := msg_chat_id msg in
  isOwner cfg chatId = true ->
  cs !! chatId = Some st ->
  exists imgs eImage,
    onMessage cfg env cs msg
    = (let '(cs2, ePrompt) :=
         dispatchPrompt env (<[chatId := set_images imgs st]> cs) msg in
       (cs2, eImage ++ ePrompt))
    /\ sentPrompts eImage = []
    /\ (forall t, t ∈ chatTexts chatId eImage ->
                  (exists n, t = TxtImagesAdded n) \/ t = TxtImageError)
    /\ (hasImage msg = false -> imgs = images st /\ eImage = []).
Proof.
  intros chatId Hown Hst. rewrite onMessage_owner by done.
  destruct (hasImage msg) eqn:Himg.
  - destruct (storeAttachment_shape cfg env cs msg)
      as (imgs & effs & Hstore & Hsent & Htexts).
    fold chatId in Hstore, Htexts. rewrite Hst in Hstore. simpl in Hstore.
    exists imgs, effs. rewrite Hstore. done.
  - exists (images st), []. rewrite set_images_id, insert_id by done.
    repeat split; try done.
    + by destruct (dispatchPrompt env cs msg).
    + intros t Ht. by apply elem_of_nil in Ht.
Qed.

(** What the handler does before the dispatch, for a chat without
    state. *)
Lemma onMessage_without_state cfg env (cs : gmap Z ChatState) msg :
  let chatId := msg_chat_id msg in
  isOwner cfg chatId = true ->
  cs !! chatId = None ->
  if hasImage msg then
    exists imgs eImage,
      onMessage cfg env cs msg
      = (let '(cs2, ePrompt) :=
           dispatchPrompt env
             (<[chatId :=
                  set_images imgs
                    (freshState (defaultModel cfg)
                                (pickSessionEmoji cs (rndOnImage env)))]> cs)
             msg in
         (cs2, eImage ++ ePrompt))
      /\ sentPrompts eImage = []
      /\ (forall t, t ∈ chatTexts chatId eImage ->
                    (exists n, t = TxtImagesAdded n) \/ t = TxtImageError)
  else onMessage cfg env cs msg = dispatchPrompt env cs msg.
Proof.
  intros chatId Hown Hst. rewrite onMessage_owner by done.
  destruct (hasImage msg) eqn:Himg; [|done].
  destruct (storeAttachment_shape cfg env cs msg)
    as (imgs & effs & Hstore & Hsent & Htexts).
  fold chatId in Hstore, Htexts. rewrite Hst in Hstore. simpl in Hstore.
  exists imgs, effs. rewrite Hstore. done.
Qed.

End MessageSpec.

(** ** An idle chat accepts a prompt *)

Module IdleChatSpec.
Import Utils Index MessageSpec.

Lemma accepted_fields msg st :
  busy (accepted msg st) = true
  /\ currentPrompt (accepted msg st) = Some (promptText msg)
  /\ turnCount (accepted msg st) = Some (default 0 (turnCount st) + 1)
  /\ images (accepted msg st) = images st
  /\ queue (accepted msg st) = queue st
  /\ session (accepted msg st) = session st.
Proof. by destruct st. Qed.

Lemma rolledBack_fields msg st :
  busy (rolledBack msg st) = false
  /\ currentPrompt (rolledBack msg st) = None
  /\ turnCount (rolledBack msg st) = Some (default 0 (turnCount st) + 1)
  /\ images (rolledBack msg st) = images st
  /\ queue (rolledBack msg st) = queue st
  /\ session (rolledBack msg st) = session st.
Proof. by destruct st. Qed.

(** The handler of messages run alone, its messages to the chat
    delivered. A prompt submitted to a chat of the owner that has a live
    session and is neither resetting nor busy is sent at once, to the
    session of the chat, with the image list of the chat appended (the
    list as stored, after the image of the same message if it carries
    one); the turn count goes up by one.  If the send succeeds the chat
    is busy with that prompt; if it fails the chat is not busy, has no
    current prompt, and the error is sent to the chat. *)
Theorem idle_prompt_is_sent cfg env (cs : gmap Z ChatState) msg st s :
  let chatId := msg_chat_id msg in
  let result := onMessage cfg env cs msg in
  isOwner cfg chatId = true ->
  isPrompt msg = true ->
  cs !! chatId = Some st ->
  session st = Some s -> truthy (dir st) = true ->
  resetting st = false -> busy st = false ->
  exists st',
    result.1 !! chatId = Some st'
    /\ (hasImage msg = false -> images st' = images st)
    /\ SessionSend s (appendImagesToPrompt (promptText msg) (images st'))
         ∈ result.2
    /\ sentPrompts result.2
       = [appendImagesToPrompt (promptText msg) (images st')]
    /\ turnCount st' = Some (default 0 (turnCount st) + 1)
    /\ match sendOutcome env with
       | Resolves =>
           busy st' = true /\ currentPrompt st' = Some (promptText msg)
       | Rejects err =>
           busy st' = false /\ currentPrompt st' = None
           /\ TxtSendError err ∈ chatTexts chatId result.2
       end.
Proof.
  intros chatId result Hown Hprompt Hst Hs Hd Hr Hb. subst result.
  destruct (onMessage_with_state cfg env cs msg st Hown Hst)
    as (imgs & eImage & -> & Hsent & _ & Hplain).
  fold chatId.
  destruct (set_images_fields imgs st)
    as (Fs & Fd & Fr & Fb & Fq & Fc & Ft & Fi).
  rewrite (dispatch_idle env _ msg Hprompt (set_images imgs st) s);
    [| by rewrite lookup_insert_eq | congruence ..].
  fold chatId.
  destruct (sendOutcome env) as [|err]; simpl;
    rewrite insert_insert_eq, lookup_insert_eq; eexists;
    (split; [reflexivity|]).
  - destruct (accepted_fields msg (set_images imgs st))
      as (Ab & Ac & At & Ai & _).
    rewrite Ai, Fi, At, Ft, Ab, Ac.
    split; [intros Hno; by destruct (Hplain Hno) |].
    split; [apply elem_of_app; right; by left |].
    split; [|done].
    unfold sentPrompts in *. by rewrite omap_app, Hsent.
  - destruct (rolledBack_fields msg (set_images imgs st))
      as (Rb & Rc & Rt & Ri & _).
    rewrite Ri, Fi, Rt, Ft, Rb, Rc.
    split; [intros Hno; by destruct (Hplain Hno) |].
    split; [apply elem_of_app; right; by left |].
    split; [unfold sentPrompts in *; by rewrite omap_app, Hsent |].
    split; [done|]. split; [done|]. split; [done|].
    unfold chatTexts. rewrite omap_app. apply elem_of_app. right.
    simpl. rewrite Z.eqb_refl. by left.
Qed.

End IdleChatSpec.

(** ** Prompts that are refused *)

Module RefusedSpec.
Import Utils Index MessageSpec Scenario.

Lemma queueOf_insert_images (cs : gmap Z ChatState) chatId imgs st :
  queueOf (<[chatId := set_images imgs st]> cs) chatId = queue st.
Proof.
  unfold queueOf. rewrite lookup_insert_eq. by destruct st.
Qed.

(** The handler of messages run alone, its messages to the chat
    delivered. A prompt submitted to a chat of the owner
    that has no session (no state, no session handle or no directory) is
    answered with the no-session text, after the answer to the image of
    the message if it carries one. Nothing is sent to a session and the
    prompt queue of the chat is as before. A message without image
    leaves all chat states as they were; the image of a message changes
    the [images] field of the state of the chat alone, a state that is
    created if the chat had none. *)
Theorem no_session_prompt_refused cfg env (cs : gmap Z ChatState) msg :
  let chatId := msg_chat_id msg in
  let result := onMessage cfg env cs msg in
  let st0 :=
    default (freshState (defaultModel cfg)
                        (pickSessionEmoji cs (rndOnImage env)))
            (cs !! chatId) in
  isOwner cfg chatId = true ->
  isPrompt msg = true ->
  noSession cs chatId ->
  sentPrompts result.2 = []
  /\ queueOf result.1 chatId = queueOf cs chatId
  /\ (exists imgs,
        result.1
        = if hasImage msg then <[chatId := set_images imgs st0]> cs else cs)
  /\ (exists eImage,
        result.2 = eImage ++ [BotSendMessage chatId TxtNoSession]
        /\ (hasImage msg = false -> eImage = [])
        /\ forall t, t ∈ chatTexts chatId eImage ->
                     (exists n, t = TxtImagesAdded n) \/ t = TxtImageError).
Proof.
  intros chatId result st0 Hown Hprompt Hno. subst result.
  unfold noSession in Hno. fold chatId in Hno.
  assert (Hq0 : queue st0 = queueOf cs chatId).
  { unfold st0, queueOf. by destruct (cs !! chatId). }
  assert (Hno0 : session st0 = None \/ truthy (dir st0) = false).
  { unfold st0. destruct (cs !! chatId); [exact Hno | by left]. }
  assert (Hcase :
    exists imgs eImage,
      onMessage cfg env cs msg
      = ((if hasImage msg then <[chatId := set_images imgs st0]> cs else cs),
         eImage ++ [BotSendMessage chatId TxtNoSession])
      /\ sentPrompts eImage = []
      /\ (hasImage msg = false -> eImage = [])
      /\ (forall t, t ∈ chatTexts chatId eImage ->
                    (exists n, t = TxtImagesAdded n) \/ t = TxtImageError)).
  { assert (Hrefuse : forall imgs,
      dispatchPrompt env (<[chatId := set_images imgs st0]> cs) msg
      = (<[chatId := set_images imgs st0]> cs,
         [BotSendMessage chatId TxtNoSession])).
    { intros imgs.
      apply (dispatch_no_session env _ msg Hprompt (set_images imgs st0));
        [apply lookup_insert_eq|].
      destruct (set_images_fields imgs st0) as (-> & -> & _). exact Hno0. }
    destruct (cs !! chatId) as [st|] eqn:Hst.
    - destruct (onMessage_with_state cfg env cs msg st Hown Hst)
        as (imgs & eImage & Hrun & Hsent & Htexts & Hplain).
      fold chatId in Hrun, Htexts. exists imgs, eImage.
      rewrite Hrun. change st0 with st. rewrite Hrefuse.
      repeat split; try done; [|by intros H; destruct (Hplain H)].
      destruct (hasImage msg); [done|].
      destruct (Hplain eq_refl) as [-> _].
      by rewrite set_images_id, insert_id.
    - pose proof (onMessage_without_state cfg env cs msg Hown Hst) as Hrun.
      fold chatId in Hrun. destruct (hasImage msg).
      + destruct Hrun as (imgs & eImage & Hrun & Hsent & Htexts).
        exists imgs, eImage. rewrite Hrun.
        change (freshState _ _) with st0. by rewrite Hrefuse.
      + exists None, []. rewrite Hrun.
        rewrite (dispatch_no_state env cs msg Hprompt Hst).
        repeat split; try done. intros t Ht. by apply elem_of_nil in Ht. }
  destruct Hcase as (imgs & eImage & -> & Hsent & Hplain & Htexts).
  simpl. split; [|split; [|split]].
  - unfold sentPrompts in *. by rewrite omap_app, Hsent.
  - destruct (hasImage msg); [|done].
    by rewrite queueOf_insert_images.
  - by exists imgs.
  - by exists eImage.
Qed.

(** The handler of messages run alone, its messages to the chat
    delivered. A prompt submitted to a chat of the owner
    whose state has [resetting = true] is dropped: nothing is sent to a
    session, and no field of any chat state changes, but for [images]
    when the message carries an image. The chat is told to wait if it has
    a session handle and a directory, and that it has no session
    otherwise. *)
Theorem resetting_prompt_dropped cfg env (cs : gmap Z ChatState) msg st :
  let chatId := msg_chat_id msg in
  let result := onMessage cfg env cs msg in
  let reply :=
    match session st, truthy (dir st) with
    | Some _, true => TxtPleaseWait
    | _, _ => TxtNoSession
    end in
  isOwner cfg chatId = true ->
  isPrompt msg = true ->
  cs !! chatId = Some st ->
  resetting st = true ->
  sentPrompts result.2 = []
  /\ queueOf result.1 chatId = queue st
  /\ (exists imgs,
        result.1
        = if hasImage msg then <[chatId := set_images imgs st]> cs else cs)
  /\ (exists eImage,
        result.2 = eImage ++ [BotSendMessage chatId reply]
        /\ (hasImage msg = false -> eImage = [])
        /\ forall t, t ∈ chatTexts chatId eImage ->
                     (exists n, t = TxtImagesAdded n) \/ t = TxtImageError).
Proof.
  intros chatId result reply Hown Hprompt Hst Hres. subst result.
  destruct (onMessage_with_state cfg env cs msg st Hown Hst)
    as (imgs & eImage & Hrun & Hsent & Htexts & Hplain).
  fold chatId in Hrun, Htexts.
  assert (Hdispatch :
    dispatchPrompt env (<[chatId := set_images imgs st]> cs) msg
    = (<[chatId := set_images imgs st]> cs, [BotSendMessage chatId reply])).
  { destruct (set_images_fields imgs st) as (Fs & Fd & Fr & _).
    unfold reply.
    destruct (session st) as [s|] eqn:Hs;
      [destruct (truthy (dir st)) eqn:Hd|].
    - apply (dispatch_resetting env _ msg Hprompt (set_images imgs st) s);
        [apply lookup_insert_eq | congruence ..].
    - apply (dispatch_no_session env _ msg Hprompt (set_images imgs st));
        [apply lookup_insert_eq | right; congruence].
    - apply (dispatch_no_session env _ msg Hprompt (set_images imgs st));
        [apply lookup_insert_eq | left; congruence]. }
  rewrite Hrun, Hdispatch. simpl. split; [|split; [|split]].
  - unfold sentPrompts in *. by rewrite omap_app, Hsent.
  - apply queueOf_insert_images.
  - exists imgs. destruct (hasImage msg); [done|].
    destruct (Hplain eq_refl) as [-> _].
    by rewrite set_images_id, insert_id.
  - exists eImage. repeat split; [|done]. intros H. by destruct (Hplain H).
Qed.

End RefusedSpec.

Module MessageExamples.
Import Utils Index Scenario RefusedSpec IdleChatSpec.

(** [idle_prompt_is_sent] at the first prompt of chat 1. *)
Lemma idle_prompt_is_sent_example :
  exists st',
    (onMessage cfg (msgEnv Resolves) started1 (textMessage 1 "task1")).1 !! 1
    = Some st'
    /\ sentPrompts
         (onMessage cfg (msgEnv Resolves) started1 (textMessage 1 "task1")).2
       = [appendImagesToPrompt (lit "task1") (images st')]
    /\ busy st' = true /\ currentPrompt st' = Some (lit "task1").
Proof.
  destruct (idle_prompt_is_sent cfg (msgEnv Resolves) started1
              (textMessage 1 "task1") state1 7%nat)
    as (st' & H1 & _ & _ & H2 & _ & H3 & H4);
    try (vm_compute; reflexivity).
  exists st'. repeat split; assumption.
Defined.

(** [no_session_prompt_refused] at a chat that the bot has not seen. *)
Lemma no_session_prompt_refused_example :
  sentPrompts (onMessage cfg (msgEnv Resolves) ∅ (textMessage 7 "hello")).2
  = []
  /\ queueOf (onMessage cfg (msgEnv Resolves) ∅ (textMessage 7 "hello")).1 7
     = [].
Proof.
  destruct (no_session_prompt_refused cfg (msgEnv Resolves) ∅
              (textMessage 7 "hello"))
    as (H1 & H2 & _);
    try (vm_compute; reflexivity); try (vm_compute; exact I).
  split; assumption.
Defined.

(** [resetting_prompt_dropped] at chat 1 in the middle of a reset. *)
Lemma resetting_prompt_dropped_example :
  sentPrompts
    (onMessage cfg (msgEnv Resolves) midReset1 (textMessage 1 "hello")).2
  = []
  /\ queueOf
       (onMessage cfg (msgEnv Resolves) midReset1 (textMessage 1 "hello")).1
       1
     = [].
Proof.
  destruct (resetting_prompt_dropped cfg (msgEnv Resolves) midReset1
              (textMessage 1 "hello") (set_resetting true state1))
    as (H1 & H2 & _); try (vm_compute; reflexivity).
  split; assumption.
Defined.

(** The handler run alone on a chat without session. A photo with the
    caption "hello" from a chat without state is a prompt of a chat
    without session, and the handler creates the state of the chat and
    stores the image in it. And when the bot is reserved to chat 1, the
    prompt of chat 7, which has no session, is answered with the
    not-owner text. *)
Lemma no_session_alone_examples :
  (noSession ∅ 7 /\ isPrompt (photoMessage 7 "hello") = true
   /\ (∅ : gmap Z ChatState) !! 7 = None
   /\ images
        <$> (onMessage cfg (msgEnv Resolves) ∅ (photoMessage 7 "hello")).1
            !! 7
      = Some (Some [fileUrl cfg (lit "photos/file_1.jpg")]))
  /\ (noSession ∅ 7 /\ isPrompt (textMessage 7 "hello") = true
      /\ onMessage cfgOwned (msgEnv Resolves) ∅ (textMessage 7 "hello")
         = (∅, [BotSendMessage 7 TxtNotOwner])).
Proof.
  split; (split; [exact I|]); repeat split; vm_compute; reflexivity.
Qed.

(** The handler run alone on a chat that is resetting. After a /reset
    that could not create the new session, chat 1 has [resetting = true]
    and no session handle, and its prompt is answered with the no-session
    text, not with the text that asks to wait. And a photo with a
    caption, sent to a chat that is resetting, is stored in the state of
    the chat. *)
Lemma resetting_alone_examples :
  (resetting <$> failedReset1 !! 1 = Some true
   /\ isPrompt (textMessage 1 "hello") = true
   /\ onMessage cfg (msgEnv Resolves) failedReset1 (textMessage 1 "hello")
      = (failedReset1, [BotSendMessage 1 TxtNoSession]))
  /\ (resetting <$> midReset1 !! 1 = Some true
      /\ isPrompt (photoMessage 1 "hello") = true
      /\ images <$> midReset1 !! 1 = Some (Some [])
      /\ images
           <$> (onMessage cfg (msgEnv Resolves) midReset1
                          (photoMessage 1 "hello")).1 !! 1
         = Some (Some [fileUrl cfg (lit "photos/file_1.jpg")])).
Proof.
  repeat split; vm_compute; reflexivity.
Qed.

End MessageExamples.

(** ** Resetting a session *)

Module ResetSpec.
Import Utils Index StartSpec Scenario.

(** A call of [startSession] that throws leaves the state of the chat
    torn down and otherwise as it found it. *)
Lemma startSession_thrown cfg env (cs : gmap Z ChatState) chatId
    directory model err :
  (startSession cfg env cs chatId directory model).2 = Thrown err ->
  exists st0,
    ensureState cfg (rndOnCreate env) cs chatId model !! chatId = Some st0
    /\ (startSession cfg env cs chatId directory model).1.1
       = <[chatId := (teardown st0).1]>
           (ensureState cfg (rndOnCreate env) cs chatId model).
Proof.
  unfold startSession.
  destruct (ensureState_is_Some cfg (rndOnCreate env) cs chatId model)
    as [st0 Hst0].
  rewrite Hst0. destruct (teardown st0) as [st1 eT] eqn:Ht.
  destruct (chdirOutcome env);
    [| intros _; exists st0; by rewrite Ht].
  destruct (clientStartOutcome env);
    [| intros _; exists st0; by rewrite Ht].
  destruct (createSessionOutcome env); [done|].
  intros _. exists st0. by rewrite Ht.
Qed.

Lemma teardown_fields st :
  resetting (teardown st).1 = resetting st
  /\ session (teardown st).1 = None
  /\ queue (teardown st).1 = queue st.
Proof.
  unfold teardown.
  destruct st as [c s d m b q r i e cp af pc eq pe om tc].
  destruct s, c; done.
Qed.

(** [startSession] on a chat with state does not touch [resetting]
    before its success path. *)
Lemma ensureState_resetting cfg rnd (cs : gmap Z ChatState) chatId model
    st st0 :
  cs !! chatId = Some st ->
  ensureState cfg rnd cs chatId model !! chatId = Some st0 ->
  resetting st0 = resetting st.
Proof.
  intros Hst. unfold ensureState. rewrite Hst.
  destruct (truthy model).
  - rewrite lookup_insert_eq. intros [= <-]. by destruct st.
  - rewrite Hst. by intros [= <-].
Qed.

(** /reset on a chat with a session and a directory: the states after
    it are those that [startSession] leaves, run on the prepared
    state. *)
Lemma onReset_unfold cfg env (cs : gmap Z ChatState) chatId st s :
  isOwner cfg chatId = true ->
  cs !! chatId = Some st -> session st = Some s ->
  truthy (dir st) = true ->
  (onReset cfg env cs chatId).1
  = (startSession cfg (startEnv env) (<[chatId := resetPrepared st]> cs)
                  chatId (default [] (dir st)) (Some (model st))).1.1.
Proof.
  intros Hown Hst Hs Hd. unfold onReset. rewrite Hown, Hst, Hs.
  cbn [negb]. cbv zeta. rewrite Hd. fold (resetPrepared st).
  by destruct (startSession _ _ _ _ _ _) as [[cs' effs] [|err]].
Qed.


(** The success path of /reset clears [resetting]. *)
Lemma onReset_success cfg env (cs : gmap Z ChatState) chatId st s :
  isOwner cfg chatId = true ->
  cs !! chatId = Some st -> session st = Some s ->
  truthy (dir st) = true ->
  chdirOutcome (startEnv env) = Resolves ->
  clientStartOutcome (startEnv env) = Resolves ->
  (exists s', createSessionOutcome (startEnv env) = inl s') ->
  exists st',
    (onReset cfg env cs chatId).1 !! chatId = Some st'
    /\ resetting st' = false.
Proof.
  intros Hown Hst Hs Hd Hc Hcs Hcreate.
  rewrite (onReset_unfold cfg env cs chatId st s Hown Hst Hs Hd).
  assert (Hret :
    (startSession cfg (startEnv env) (<[chatId := resetPrepared st]> cs)
                  chatId
                  (default [] (dir st)) (Some (model st))).2 = Returned)
    by (by apply startSession_returns_iff).
  destruct (startSession_success _ _ _ _ _ _ Hret)
    as (st' & Hl & _ & _ & Hr & _).
  by exists st'.
Qed.

(** The failure path of /reset does not: the handler catches what
    [startSession] throws, reports it, and returns with [resetting]
    still set and the session gone. *)
Lemma onReset_failure cfg env (cs : gmap Z ChatState) chatId st s err :
  isOwner cfg chatId = true ->
  cs !! chatId = Some st -> session st = Some s ->
  truthy (dir st) = true ->
  (startSession cfg (startEnv env) (<[chatId := resetPrepared st]> cs)
                chatId (default [] (dir st)) (Some (model st))).2
  = Thrown err ->
  exists st',
    (onReset cfg env cs chatId).1 !! chatId = Some st'
    /\ resetting st' = true /\ session st' = None.
Proof.
  intros Hown Hst Hs Hd Hthrown.
  rewrite (onReset_unfold cfg env cs chatId st s Hown Hst Hs Hd).
  destruct (startSession_thrown _ _ _ _ _ _ _ Hthrown) as (st0 & Hst0 & ->).
  rewrite lookup_insert_eq. eexists. split; [reflexivity|].
  destruct (teardown_fields st0) as (-> & -> & _). split; [|done].
  rewrite (ensureState_resetting cfg (rndOnCreate (startEnv env))
             (<[chatId := resetPrepared st]> cs) chatId (Some (model st))
             (resetPrepared st) st0);
    [by destruct st | apply lookup_insert_eq | done].
Qed.

Lemma startSession_state_exists cfg env (cs : gmap Z ChatState) chatId
    directory model :
  is_Some ((startSession cfg env cs chatId directory model).1.1 !! chatId).
Proof.
  destruct (startSession cfg env cs chatId directory model).2 as [|err] eqn:E.
  - destruct (startSession_returned _ _ _ _ _ _ E) as (? & ? & _ & _ & ->).
    rewrite lookup_insert_eq. by eexists.
  - destruct (startSession_thrown _ _ _ _ _ _ _ E) as (? & _ & ->).
    rewrite lookup_insert_eq. by eexists.
Qed.

(** The reset button clears [resetting] on every path: after the
    restart, and in the [catch] block when [destroy] or [startSession]
    throws. *)
Lemma onResetButton_clears cfg env (cs : gmap Z ChatState) chatId st s :
  cs !! chatId = Some st -> session st = Some s ->
  truthy (dir st) = true ->
  exists st',
    (onResetButton cfg env cs chatId).1 !! chatId = Some st'
    /\ resetting st' = false.
Proof.
  intros Hst Hs Hd. unfold onResetButton. rewrite Hst, Hs, Hd. cbv zeta.
  destruct (buttonDestroyOutcome env) as [|err].
  - match goal with
    | |- context [startSession ?a ?b ?c ?d ?e ?f] =>
        pose proof (startSession_state_exists a b c d e f) as [st1 Hst1];
        destruct (startSession a b c d e f) as [[cs' effs] completion]
    end.
    simpl in Hst1. rewrite Hst1.
    exists (set_resetting false st1).
    destruct completion; simpl; rewrite lookup_insert_eq;
      (split; [reflexivity | by destruct st1]).
  - simpl. rewrite lookup_insert_eq. eexists. split; [reflexivity|].
    by destruct st.
Qed.

(** C1 at a failing reset. Chat 1 has a session in /w; during /reset the
    new session cannot be created. [startSession] throws, the handler
    reports the failure, and the chat is left with [resetting = true].
    The reset button on the same state, with the same failure, leaves
    [resetting = false]. *)
Theorem reset_failure_leaves_resetting :
  liveSession state1 /\ started1 !! 1 = Some state1
  /\ (startSession cfg startFails (<[1 := resetPrepared state1]> started1)
                   1 (lit "/w") (Some (lit "m"))).2
     = Thrown (ErrorMessage (lit "spawn failed"))
  /\ chatTexts 1 (onReset cfg resetFails started1 1).2
     = [TxtResetStarting; TxtResetFailed (ErrorMessage (lit "spawn failed"))]
  /\ resetting <$> (onReset cfg resetFails started1 1).1 !! 1 = Some true
  /\ resetting <$> (onResetButton cfg resetFails started1 1).1 !! 1
     = Some false.
Proof.
  split; [split; [by eexists | reflexivity] |].
  repeat split; vm_compute; reflexivity.
Qed.

(** On the success path /reset does clear the flag. *)
Example reset_success_clears :
  resetting <$> (onReset cfg resetOk started1 1).1 !! 1 = Some false.
Proof. vm_compute. reflexivity. Qed.

End ResetSpec.

(** ** The prompt queue *)

Module QueueSpec.
Import Utils Index MessageSpec.

(** *** One idle event *)

(** What the handler of [session.idle] does when a prompt waits: the
    head of the queue leaves it and is sent, with the images of the chat
    appended. *)
Lemma handleSessionIdle_head out (cs : gmap Z ChatState) chatId st s p rest :
  cs !! chatId = Some st -> session st = Some s ->
  queue st = p :: rest -> p <> [] ->
  exists st',
    handleSessionIdle out cs chatId
    = (<[chatId := st']> cs,
       SessionSend s (appendImagesToPrompt p (images st))
       :: match out with
          | Resolves => []
          | Rejects err => [BotSendMessage chatId (TxtQueuedSendError err)]
          end)
    /\ queue st' = rest /\ images st' = images st
    /\ session st' = Some s /\ dir st' = dir st
    /\ resetting st' = resetting st
    /\ busy st' = match out with Resolves => true | Rejects _ => false end
    /\ currentPrompt st'
       = match out with Resolves => Some p | Rejects _ => None end
    /\ turnCount st' = Some (default 0 (turnCount st) + 1).
Proof.
  intros Hst Hs Hq Hp. unfold handleSessionIdle. rewrite Hst.
  destruct st as [c s0 d m b q r i e cp af pc eq pe om tc].
  simpl in *. subst s0 q. destruct p as [|u p]; [done|]. simpl.
  destruct out as [|err]; eexists; (split; [reflexivity|]); done.
Qed.

(** The handler of [session.idle] run alone, its messages to the chat
    delivered. For a chat with a session handle and a non-empty prompt
    queue (of prompts, which are non-empty strings), the handler calls
    [send] exactly once, on the session of the
    chat, with the head of the queue and the images of the chat
    appended; the head leaves the queue. If the send succeeds, the chat
    is busy with that prompt and the send is all the handler did. *)
Theorem idle_sends_queue_head out (cs : gmap Z ChatState) chatId st s
    p rest :
  let result := handleSessionIdle out cs chatId in
  queuesHoldPrompts cs ->
  cs !! chatId = Some st -> session st = Some s ->
  queue st = p :: rest ->
  sentPrompts result.2 = [appendImagesToPrompt p (images st)]
  /\ SessionSend s (appendImagesToPrompt p (images st)) ∈ result.2
  /\ exists st',
       result.1 !! chatId = Some st'
       /\ queue st' = rest
       /\ (out = Resolves ->
           busy st' = true /\ currentPrompt st' = Some p
           /\ result.2
              = [SessionSend s (appendImagesToPrompt p (images st))]).
Proof.
  intros result Hinv Hst Hs Hq. subst result.
  assert (Hp : p <> []).
  { specialize (Hinv chatId st Hst). rewrite Hq in Hinv.
    by apply Forall_cons in Hinv as [? _]. }
  destruct (handleSessionIdle_head out cs chatId st s p rest Hst Hs Hq Hp)
    as (st' & -> & Hq' & _ & _ & _ & _ & Hb & Hc & _).
  simpl. split; [by destruct out|]. split; [by left|].
  exists st'. rewrite lookup_insert_eq. split; [done|]. split; [done|].
  by intros ->.
Qed.

(** *** A run of idle events *)

Lemma onIdles_drain (outs : list Outcome) :
  forall (cs : gmap Z ChatState) chatId st s,
    cs !! chatId = Some st -> session st = Some s ->
    Forall (fun p => p <> []) (queue st) ->
    (length outs <= length (queue st))%nat ->
    sentPrompts <$> (onIdles outs cs chatId).2
    = (fun p => [appendImagesToPrompt p (images st)])
        <$> take (length outs) (queue st)
    /\ queueOf (onIdles outs cs chatId).1 chatId
       = drop (length outs) (queue st).
Proof.
  induction outs as [|out outs IH]; intros cs chatId st s Hst Hs Hall Hlen.
  - simpl. unfold queueOf. by rewrite Hst.
  - destruct (queue st) as [|p rest] eqn:Hq; [simpl in Hlen; lia|].
    apply Forall_cons in Hall as [Hp Hrest].
    destruct (handleSessionIdle_head out cs chatId st s p rest Hst Hs Hq Hp)
      as (st' & Hrun & Hq' & Hi' & Hs' & _).
    simpl. rewrite Hrun.
    destruct (IH (<[chatId := st']> cs) chatId st' s) as [IHsent IHq];
      [apply lookup_insert_eq | done | by rewrite Hq'
       | rewrite Hq'; simpl in Hlen; lia |].
    destruct (onIdles outs (<[chatId := st']> cs) chatId) as [cs2 more].
    cbn [fst snd length take drop] in *.
    rewrite !fmap_cons, IHsent, IHq, Hq', Hi'. split; [|done].
    f_equal. by destruct out.
Qed.

(** *** A run of prompts to a busy chat *)

Lemma onMessage_busy cfg env (cs : gmap Z ChatState) msg st s :
  let chatId := msg_chat_id msg in
  isOwner cfg chatId = true -> isPrompt msg = true ->
  cs !! chatId = Some st ->
  session st = Some s -> truthy (dir st) = true ->
  resetting st = false -> busy st = true ->
  exists st',
    (onMessage cfg env cs msg).1 = <[chatId := st']> cs
    /\ sentPrompts (onMessage cfg env cs msg).2 = []
    /\ queue st' = queue st ++ [promptText msg]
    /\ session st' = Some s /\ truthy (dir st') = true
    /\ resetting st' = false /\ busy st' = true.
Proof.
  intros chatId Hown Hprompt Hst Hs Hd Hr Hb.
  destruct (onMessage_with_state cfg env cs msg st Hown Hst)
    as (imgs & eImage & -> & Hsent & _ & _).
  fold chatId.
  destruct (set_images_fields imgs st)
    as (Fs & Fd & Fr & Fb & Fq & _).
  rewrite (dispatch_busy env _ msg Hprompt (set_images imgs st) s);
    [| by rewrite lookup_insert_eq | congruence ..].
  fold chatId. cbn [fst snd]. rewrite insert_insert_eq. eexists.
  split; [reflexivity|].
  split; [unfold sentPrompts in *; by rewrite omap_app, Hsent |].
  destruct (set_queue_fields
              (queue (set_images imgs st) ++ [promptText msg])
              (set_images imgs st))
    as (-> & -> & -> & -> & -> & _).
  rewrite Fq, Fs, Fd, Fr, Fb. done.
Qed.

Lemma onMessages_busy cfg chatId (inputs : list (MessageEnv * Message)) :
  forall (cs : gmap Z ChatState) st s,
    isOwner cfg chatId = true -> promptsOf chatId inputs ->
    cs !! chatId = Some st ->
    session st = Some s -> truthy (dir st) = true ->
    resetting st = false -> busy st = true ->
    Forall (fun effs => sentPrompts effs = [])
           (onMessages cfg cs inputs).2
    /\ exists st',
         (onMessages cfg cs inputs).1 !! chatId = Some st'
         /\ queue st' = queue st ++ (promptText ∘ snd <$> inputs)
         /\ session st' = Some s /\ busy st' = true.
Proof.
  induction inputs as [|[env msg] inputs IH];
    intros cs st s Hown Hall Hst Hs Hd Hr Hb.
  - simpl. split; [constructor|]. exists st. by rewrite app_nil_r.
  - apply Forall_cons in Hall as [[Hid Hprompt] Hall]. simpl in Hid, Hprompt.
    subst chatId.
    destruct (onMessage_busy cfg env cs msg st s Hown Hprompt Hst Hs Hd Hr Hb)
      as (st1 & Hcs1 & Hsent & Hq1 & Hs1 & Hd1 & Hr1 & Hb1).
    simpl. destruct (onMessage cfg env cs msg) as [cs1 effs].
    simpl in Hcs1, Hsent. subst cs1.
    destruct (IH (<[msg_chat_id msg := st1]> cs) st1 s)
      as (IHsent & st' & IHst & IHq & IHs & IHb);
      [done | done | apply lookup_insert_eq | done ..|].
    destruct (onMessages cfg _ inputs) as [cs2 more]. simpl in *.
    split; [by constructor|].
    exists st'. rewrite IHq, Hq1, <- app_assoc. done.
Qed.

(** The handlers run alone, one after the other, their messages to the
    chat delivered. Prompts submitted to a chat of the owner that has a
    live session and is busy (and so not resetting) are appended to the
    prompt queue in the order of submission, and none is sent then.
    Afterwards each [session.idle] event sends exactly one prompt, the
    head of the queue, with the images of the chat appended: the [k]
    first idle events send the [k] first prompts of the queue, one per
    event and in that order, and leave the rest. *)
Theorem queued_prompts_fifo cfg chatId (cs : gmap Z ChatState) st s
    (inputs : list (MessageEnv * Message)) (outs : list Outcome) :
  let prompts := promptText ∘ snd <$> inputs in
  let submitted := onMessages cfg cs inputs in
  let drained := onIdles outs submitted.1 chatId in
  isOwner cfg chatId = true ->
  queuesHoldPrompts cs ->
  cs !! chatId = Some st ->
  session st = Some s -> truthy (dir st) = true ->
  resetting st = false -> busy st = true ->
  promptsOf chatId inputs ->
  (length outs <= length (queue st ++ prompts))%nat ->
  Forall (fun effs => sentPrompts effs = []) submitted.2
  /\ exists st1,
       submitted.1 !! chatId = Some st1
       /\ queue st1 = queue st ++ prompts /\ busy st1 = true
       /\ sentPrompts <$> drained.2
          = (fun p => [appendImagesToPrompt p (images st1)])
              <$> take (length outs) (queue st ++ prompts)
       /\ queueOf drained.1 chatId
          = drop (length outs) (queue st ++ prompts).
Proof.
  intros prompts submitted drained Hown Hinv Hst Hs Hd Hr Hb Hall Hlen.
  destruct (onMessages_busy cfg chatId inputs cs st s
              Hown Hall Hst Hs Hd Hr Hb)
    as (Hnone & st1 & Hst1 & Hq1 & Hs1 & Hb1).
  split; [exact Hnone|]. exists st1.
  split; [exact Hst1|]. split; [exact Hq1|]. split; [exact Hb1|].
  fold prompts in Hq1. rewrite <- Hq1.
  apply (onIdles_drain outs submitted.1 chatId st1 s Hst1 Hs1);
    [| by rewrite Hq1].
  rewrite Hq1. apply Forall_app. split; [by apply (Hinv chatId)|].
  unfold prompts. apply Forall_fmap.
  eapply Forall_impl; [exact Hall|].
  intros [env msg] [_ Hprompt]. simpl in *.
  by destruct (isPrompt_inv msg Hprompt) as (_ & _ & ?).
Qed.

End QueueSpec.

Module QueueExamples.
Import Utils Index Scenario QueueSpec.

Lemma queuesHoldPrompts_empty : queuesHoldPrompts ∅.
Proof. intros k st H. by rewrite lookup_empty in H. Qed.

(** A map with one chat whose queue is empty holds prompts only. *)
Lemma queuesHoldPrompts_singleton k st :
  queue st = [] -> queuesHoldPrompts {[k := st]}.
Proof.
  intros Hq j sj H. apply lookup_singleton_Some in H as [_ <-].
  rewrite Hq. constructor.
Qed.

Lemma busy1_singleton : busy1 = {[1 := busyState1]}.
Proof. vm_compute. reflexivity. Qed.

(** The queue of the specification: while chat 1 is busy with task1,
    task2 and task3 are queued and not sent; two idle events then send
    task2 and task3, one each, in that order. *)
Example queue_scenario :
  let submitted := onMessages cfg busy1 twoPrompts in
  let drained := onIdles [Resolves; Resolves] submitted.1 1 in
  sentPrompts <$> submitted.2 = [[]; []]
  /\ queueOf submitted.1 1 = [lit "task2"; lit "task3"]
  /\ sentPrompts <$> drained.2 = [[lit "task2"]; [lit "task3"]]
  /\ queueOf drained.1 1 = []
  /\ busy <$> drained.1 !! 1 = Some true.
Proof. repeat split; vm_compute; reflexivity. Qed.

(** [queued_prompts_fifo] on that run. *)
Lemma queued_prompts_fifo_example :
  Forall (fun effs => sentPrompts effs = [])
         (onMessages cfg busy1 twoPrompts).2
  /\ queueOf (onIdles [Resolves; Resolves]
                      (onMessages cfg busy1 twoPrompts).1 1).1 1
     = [].
Proof.
  destruct (queued_prompts_fifo cfg 1 busy1 busyState1 7%nat twoPrompts
              [Resolves; Resolves])
    as (H1 & st1 & _ & _ & _ & _ & H2);
    try (vm_compute; reflexivity).
  - rewrite busy1_singleton. by apply queuesHoldPrompts_singleton.
  - repeat constructor.
  - split; [exact H1 | exact H2].
Defined.

(** [idle_sends_queue_head] on chat 1 with task2 waiting. *)
Lemma idle_sends_queue_head_example :
  sentPrompts
    (handleSessionIdle Resolves
       {[1 := set_queue [lit "task2"] busyState1]} 1).2
  = [lit "task2"].
Proof.
  assert (Hinv : queuesHoldPrompts
                   {[1 := set_queue [lit "task2"] busyState1]}).
  { intros k st Hk. apply lookup_singleton_Some in Hk as [_ <-].
    repeat constructor. done. }
  exact (proj1 (idle_sends_queue_head Resolves
                  {[1 := set_queue [lit "task2"] busyState1]} 1
                  (set_queue [lit "task2"] busyState1) 7%nat
                  (lit "task2") [] Hinv
                  (lookup_singleton_eq _ _) eq_refl eq_refl)).
Defined.

End QueueExamples.

(** ** The event sequencer *)

Module SequencerSpec.
Import Utils Index Sequencer Scenario.

Lemma sequential_start tr e :
  sequential tr None -> sequential (tr ++ [Started e]) (Some e).
Proof. intros [ended ->]. exists ended. by rewrite app_nil_r. Qed.

Lemma sequential_finish tr e threw :
  sequential tr (Some e) -> sequential (tr ++ [Finished e threw]) None.
Proof.
  intros [ended ->]. exists (ended ++ [(e, threw)]).
  rewrite flat_map_app. simpl. by rewrite !app_nil_r, <- app_assoc.
Qed.

Lemma started_app tr1 tr2 : started (tr1 ++ tr2) = started tr1 ++ started tr2.
Proof. apply omap_app. Qed.

Lemma eventQueue_fields q b st :
  eventQueue (set_eventQueue q st) = q
  /\ processingEvents (set_eventQueue q st) = processingEvents st
  /\ eventQueue (set_processingEvents b st) = eventQueue st
  /\ processingEvents (set_processingEvents b st) = b.
Proof. by destruct st. Qed.

(** The head of the drain loop, entered with the flag set and no
    handler in flight: it starts the first waiting event, or ends the
    loop; the order of the events is kept. *)
Lemma drainNext_ok chatId w st :
  states w !! chatId = Some st ->
  processingEvents st = Some true -> is_Some (eventQueue st) ->
  inflight w = [] -> sequential (trace w) None ->
  wellSequenced chatId (drainNext chatId w)
  /\ started (trace (drainNext chatId w)) ++ pending chatId (drainNext chatId w)
     = started (trace w) ++ pending chatId w
  /\ inflight (drainNext chatId w) = take 1 (pending chatId w)
  /\ trace (drainNext chatId w)
     = trace w ++ (Started <$> take 1 (pending chatId w))
  /\ pending chatId (drainNext chatId w) = drop 1 (pending chatId w).
Proof.
  intros Hst Hflag [q Hq] Hin Hseq.
  unfold drainNext, wellSequenced, pending. rewrite Hst.
  destruct st as [c s d m b q0 r i em cp af pc eq pe om tc].
  simpl in Hflag, Hq. subst pe eq. simpl.
  destruct q as [|e rest]; simpl; rewrite lookup_insert_eq, ?Hin; simpl.
  - rewrite !app_nil_r. repeat split; try done.
    eexists. split; [reflexivity|]. done.
  - rewrite started_app. simpl. rewrite <- app_assoc. simpl.
    repeat split; try done.
    eexists. split; [reflexivity|]. simpl.
    split; [done|]. split; [by eexists|]. by apply sequential_start.
Qed.

Lemma quiescent_wellSequenced chatId w :
  quiescent chatId w -> wellSequenced chatId w.
Proof.
  intros (Hin & Htr & st & Hst & Hflag). exists st. split; [done|].
  rewrite Hin, Htr. split; [done|]. by exists [].
Qed.

(** An event that arrives is put last in the queue; its handler starts
    at once only if no drain loop is running. *)
Lemma enqueue_ok chatId e w :
  wellSequenced chatId w ->
  wellSequenced chatId (enqueueSessionEvent chatId e w)
  /\ started (trace (enqueueSessionEvent chatId e w))
       ++ pending chatId (enqueueSessionEvent chatId e w)
     = started (trace w) ++ pending chatId w ++ [e].
Proof.
  intros (st & Hst & Hcase). unfold enqueueSessionEvent. rewrite Hst.
  set (q := default [] (eventQueue st) ++ [e]).
  set (w1 := {| states := <[chatId := set_eventQueue (Some q) st]> (states w);
                inflight := inflight w; trace := trace w |}).
  assert (Hp : pending chatId w = default [] (eventQueue st))
    by (unfold pending; by rewrite Hst).
  assert (Hp1 : pending chatId w1 = q).
  { unfold pending, w1. simpl. rewrite lookup_insert_eq. by destruct st. }
  unfold processEventQueue.
  replace (states w1 !! chatId) with (Some (set_eventQueue (Some q) st))
    by (unfold w1; simpl; by rewrite lookup_insert_eq).
  replace (eventQueue (set_eventQueue (Some q) st)) with (Some q)
    by (by destruct st).
  replace (processingEvents (set_eventQueue (Some q) st))
    with (processingEvents st) by (by destruct st).
  destruct (inflight w) as [|e0 [|e1 more]] eqn:Hin; [| |done].
  - destruct Hcase as [Hflag Hseq]. rewrite Hflag.
    set (w2 := {| states := _; inflight := _; trace := _ |}).
    assert (Hp2 : pending chatId w2 = q).
    { unfold pending, w2. simpl. rewrite lookup_insert_eq. by destruct st. }
    destruct (drainNext_ok chatId w2
                (set_processingEvents (Some true)
                   (set_eventQueue (Some q) st)))
      as (Hinv & Horder & _);
      [apply lookup_insert_eq | by destruct st | by destruct st; eexists
       | reflexivity | exact Hseq |].
    split; [exact Hinv|]. rewrite Horder, Hp2, Hp. done.
  - destruct Hcase as (Hflag & Hq & Hseq). rewrite Hflag. simpl.
    split.
    + exists (set_eventQueue (Some q) st). split;
        [unfold w1; simpl; apply lookup_insert_eq|].
      unfold w1. simpl.
      split; [by destruct st|]. split; [by destruct st; eexists | done].
    + rewrite Hp1, Hp. done.
Qed.

(** A handler that settles, by returning or by throwing, lets the drain
    loop go on with the next event. *)
Lemma settle_ok chatId i threw w w' :
  wellSequenced chatId w ->
  settle chatId i threw w = Some w' ->
  exists e,
    inflight w = [e] /\ i = 0%nat
    /\ wellSequenced chatId w'
    /\ started (trace w') ++ pending chatId w'
       = started (trace w) ++ pending chatId w
    /\ trace w'
       = trace w ++ Finished e threw
                    :: (Started <$> take 1 (pending chatId w))
    /\ inflight w' = take 1 (pending chatId w)
    /\ pending chatId w' = drop 1 (pending chatId w).
Proof.
  intros (st & Hst & Hcase). unfold settle.
  destruct (inflight w) as [|e0 [|e1 more]] eqn:Hin; [done | |done].
  destruct Hcase as (Hflag & Hq & Hseq).
  destruct i as [|i]; [|done]. simpl. intros [= <-].
  set (w1 := {| states := states w; inflight := [];
                trace := trace w ++ [Finished e0 threw] |}).
  assert (Hp1 : pending chatId w1 = pending chatId w) by done.
  destruct (drainNext_ok chatId w1 st)
    as (Hinv & Horder & Hin' & Htr' & Hp');
    [done | done | done | done | by apply sequential_finish |].
  exists e0. rewrite Hp1 in *.
  split; [done|]. split; [done|]. split; [exact Hinv|].
  split.
  - rewrite Horder. unfold w1. simpl. rewrite started_app. simpl.
    by rewrite app_nil_r.
  - split; [|done]. rewrite Htr'. unfold w1. simpl.
    by rewrite <- app_assoc.
Qed.

Lemma run_ok cfg chatId (inputs : list Input) :
  forall w w',
    wellSequenced chatId w ->
    Forall (fun i => isSessionStart i = false) inputs ->
    run cfg chatId w inputs = Some w' ->
    wellSequenced chatId w'
    /\ started (trace w') ++ pending chatId w'
       = started (trace w) ++ pending chatId w ++ enqueued inputs.
Proof.
  induction inputs as [|input inputs IH]; intros w w' Hinv Hall Hrun.
  - simpl in *. injection Hrun as <-. by rewrite app_nil_r.
  - apply Forall_cons in Hall as [Hno Hall]. simpl in Hrun.
    destruct input as [e | i threw | env d m]; [| |done]; simpl in Hrun.
    + destruct (enqueue_ok chatId e w Hinv) as [Hinv1 Horder1].
      destruct (IH _ _ Hinv1 Hall Hrun) as [Hinv' Horder'].
      split; [done|]. rewrite Horder', app_assoc, Horder1.
      simpl. by rewrite <- !app_assoc.
    + destruct (settle chatId i threw w) as [w1|] eqn:Hset; [|done].
      destruct (settle_ok chatId i threw w w1 Hinv Hset)
        as (e & _ & _ & Hinv1 & Horder1 & _).
      destruct (IH _ _ Hinv1 Hall Hrun) as [Hinv' Horder'].
      split; [done|]. rewrite Horder', app_assoc, Horder1.
      simpl. by rewrite <- !app_assoc.
Qed.

(** Whatever the handlers do, return or throw, the drain loop handles
    every event of the queue: after as many handlers have settled as
    events are in flight or queued, all of them have been started, in
    the order of the queue, and the loop has ended. *)
Lemma drain_completes cfg chatId (threws : list bool) :
  forall w e,
    wellSequenced chatId w -> inflight w = [e] ->
    length threws = S (length (pending chatId w)) ->
    exists w',
      run cfg chatId w (Settle 0 <$> threws) = Some w'
      /\ inflight w' = [] /\ pending chatId w' = []
      /\ started (trace w') = started (trace w) ++ pending chatId w.
Proof.
  induction threws as [|threw threws IH]; intros w e Hinv Hin Hlen; [done|].
  assert (Hset : exists w1, settle chatId 0 threw w = Some w1)
    by (unfold settle; rewrite Hin; by eexists).
  destruct Hset as [w1 Hset].
  destruct (settle_ok chatId 0 threw w w1 Hinv Hset)
    as (e' & _ & _ & Hinv1 & _ & Htr1 & Hin1 & Hp1).
  rewrite fmap_cons. simpl. rewrite Hset.
  assert (Hst1 : started (trace w1)
                 = started (trace w) ++ take 1 (pending chatId w)).
  { rewrite Htr1, started_app. simpl. f_equal.
    by destruct (pending chatId w). }
  destruct (pending chatId w) as [|e1 rest] eqn:Hp.
  - destruct threws; [|done]. simpl. exists w1.
    rewrite Hst1. by rewrite Hin1, Hp1.
  - simpl in Hin1, Hp1, Hst1, Hlen. rewrite drop_0 in Hp1.
    destruct (IH w1 e1 Hinv1 Hin1) as (w' & Hrun & Hin' & Hp' & Hst');
      [rewrite Hp1; lia|].
    exists w'. rewrite Hrun, Hst', Hst1, Hp1, <- app_assoc. done.
Qed.

(** The sequencer between two starts of a session. From a state of the
    chat in which no drain loop runs, and as long as no session of the
    chat is started, the events that are enqueued are handled one at a
    time and in the order
    of their arrival: at most one handler is in flight, the trace is a
    run of start-end pairs followed by the start of the handler in
    flight, and the events started and those still queued are, in this
    order, the events that arrived. When the handler in flight settles,
    by returning or by throwing alike, the handler of the first queued
    event starts; and once as many handlers have settled as events were in
    flight or queued, every event that arrived has been handled, in the
    order of arrival. *)
Theorem events_handled_in_order cfg chatId w0 (inputs : list Input) w :
  quiescent chatId w0 ->
  Forall (fun i => isSessionStart i = false) inputs ->
  run cfg chatId w0 inputs = Some w ->
  (length (inflight w) <= 1)%nat
  /\ sequential (trace w) (head (inflight w))
  /\ started (trace w) ++ pending chatId w
     = pending chatId w0 ++ enqueued inputs
  /\ (forall e threw,
        inflight w = [e] ->
        exists w',
          step cfg chatId w (Settle 0 threw) = Some w'
          /\ trace w'
             = trace w ++ Finished e threw
                          :: (Started <$> take 1 (pending chatId w))
          /\ inflight w' = take 1 (pending chatId w)
          /\ pending chatId w' = drop 1 (pending chatId w))
  /\ (forall e (threws : list bool),
        inflight w = [e] ->
        length threws = S (length (pending chatId w)) ->
        exists w',
          run cfg chatId w (Settle 0 <$> threws) = Some w'
          /\ inflight w' = [] /\ pending chatId w' = []
          /\ sequential (trace w') None
          /\ started (trace w') = pending chatId w0 ++ enqueued inputs).
Proof.
  intros Hq Hall Hrun.
  destruct (run_ok cfg chatId inputs w0 w
              (quiescent_wellSequenced _ _ Hq) Hall Hrun)
    as [Hinv Horder].
  destruct Hq as (_ & Htr0 & _). rewrite Htr0 in Horder. simpl in Horder.
  pose proof Hinv as (st & Hst & Hcase).
  destruct (inflight w) as [|e0 [|e1 more]] eqn:Hin; [| |done].
  - destruct Hcase as [_ Hseq]. simpl.
    repeat split; [lia | done | done | intros e threw [=] |].
    intros e threws [=].
  - destruct Hcase as (_ & _ & Hseq). simpl.
    repeat split; [lia | done | done | |].
    + intros e threw [= <-]. simpl.
      assert (Hset : settle chatId 0 threw w
                     = Some (drainNext chatId
                               {| states := states w; inflight := [];
                                  trace := trace w ++ [Finished e0 threw] |}))
        by (unfold settle; by rewrite Hin).
      rewrite Hset. eexists. split; [reflexivity|].
      destruct (settle_ok chatId 0 threw w _ Hinv Hset)
        as (e & He & _ & _ & _ & Htr & Hin' & Hp').
      rewrite Hin in He. injection He as <-. done.
    + intros e threws [= <-] Hlen.
      destruct (drain_completes cfg chatId threws w e0 Hinv Hin Hlen)
        as (w' & Hrun' & Hin' & Hp' & Hst').
      exists w'. rewrite Hst', Horder.
      repeat split; try done.
      assert (Hall' : Forall (fun i => isSessionStart i = false)
                             (Settle 0 <$> threws))
        by (apply Forall_fmap, Forall_forall; by intros).
      destruct (run_ok cfg chatId _ w w' Hinv Hall' Hrun')
        as [(st' & _ & Hcase') _].
      rewrite Hin' in Hcase'. by destruct Hcase'.
Qed.

Lemma world1_quiescent : quiescent 1 world1.
Proof.
  split; [done|]. split; [done|]. exists state1. split; [|done].
  vm_compute. reflexivity.
Qed.

(** [events_handled_in_order] on a run in which the handler of the
    first event throws: the second event, which arrived meanwhile, is
    handled next. *)
Lemma events_handled_in_order_example :
  exists w,
    run cfg 1 world1 [Enqueue eventA; Enqueue eventB; Settle 0 true] = Some w
    /\ trace w = [Started eventA; Finished eventA true; Started eventB]
    /\ (length (inflight w) <= 1)%nat
    /\ started (trace w) ++ pending 1 w = [eventA; eventB].
Proof.
  eexists. split; [vm_compute; reflexivity|]. split; [reflexivity|].
  match goal with
  | |- context [trace ?w] =>
      destruct (events_handled_in_order cfg 1 world1
                  [Enqueue eventA; Enqueue eventB; Settle 0 true] w
                  world1_quiescent)
        as (H1 & _ & H2 & _)
  end.
  - repeat constructor.
  - vm_compute. reflexivity.
  - split; [exact H1|]. rewrite H2. vm_compute. reflexivity.
Defined.

(** C5 at a session that is started while a handler is in flight. No
    drain loop runs for chat 1 when event A arrives: its handler starts,
    and the drain loop awaits it with [processingEvents] set. A session
    of the chat is started meanwhile (a reset, or the choice of a
    directory or model): lines 712-713 of [startSession] clear
    [processingEvents] and empty the event queue under the running loop.
    Event B arrives next and finds the flag cleared: a second drain loop
    starts the handler of B before the handler of A has ended, and both
    are in flight. And had B arrived before the start of the session, it
    would have been dropped with the queue: once A has ended no event is
    handled and none is left. *)
Theorem restart_lets_handlers_overlap :
  quiescent 1 world1
  /\ (trace <$> run cfg 1 world1
                 [Enqueue eventA; StartSession startOk (lit "/w") None;
                  Enqueue eventB]
      = Some [Started eventA; Started eventB])
  /\ (inflight <$> run cfg 1 world1
                    [Enqueue eventA; StartSession startOk (lit "/w") None;
                     Enqueue eventB]
      = Some [eventA; eventB])
  /\ (trace <$> run cfg 1 world1
                 [Enqueue eventA; Enqueue eventB;
                  StartSession startOk (lit "/w") None; Settle 0 false]
      = Some [Started eventA; Finished eventA false])
  /\ (pending 1 <$> run cfg 1 world1
                    [Enqueue eventA; Enqueue eventB;
                     StartSession startOk (lit "/w") None; Settle 0 false]
      = Some []).
Proof.
  split; [exact world1_quiescent|].
  repeat split; vm_compute; reflexivity.
Qed.

End SequencerSpec.

(** ** Invariants of the handlers

    Two facts that the theorems above take as hypotheses hold of every
    state the bot reaches: a queued prompt is never the empty string, and
    a chat has a state only if the bot serves it. Both hold of the empty
    map and are kept by every handler. *)

Module InvariantSpec.
Import Utils Index MessageSpec StartSpec ResetSpec.















Lemma invariants_initially cfg : queuesHoldPrompts ∅ /\ servedOnly cfg ∅.
Proof. split; intros k st H; by rewrite lookup_empty in H. Qed.

End InvariantSpec.

(** ** More on splitting, parsing and picking *)

Module UtilsMoreSpec.
Import Utils SplitSpec ParseSpec EmojiSpec.

(** Closes a goal whose hypotheses contradict a boolean comparison. *)
Ltac zbool :=
  repeat match goal with
         | H : (_ =? _) = true |- _ => apply Z.eqb_eq in H
         | H : (_ =? _) = false |- _ => apply Z.eqb_neq in H
         | H : (_ <? _) = true |- _ => apply Z.ltb_lt in H
         | H : (_ <? _) = false |- _ => apply Z.ltb_ge in H
         | H : (_ >=? _) = true |- _ => apply Z.geb_le in H
         | H : (_ >? _) = true |- _ => apply Z.gtb_lt in H
         end;
  lia.

Lemma gtb_false (a b : Z) : a <= b -> (a >? b) = false.
Proof. intros H. rewrite Z.gtb_ltb. apply Z.ltb_ge. lia. Qed.

Lemma gtb_true (a b : Z) : b < a -> (a >? b) = true.
Proof. intros H. apply Z.gtb_lt. lia. Qed.

Lemma len_pos (s : jsstring) : s <> [] -> 0 < len s.
Proof.
  intros Hne. pose proof (len_nonneg s).
  assert (len s <> 0) by (by rewrite len_nil_iff). lia.
Qed.

Lemma nextChunk_fits (remaining : jsstring) (maxLen : Z) :
  1 <= maxLen -> len remaining <= maxLen ->
  nextChunk remaining maxLen = remaining.
Proof.
  intros Hm Hfit. unfold nextChunk. rewrite slice_prefix by lia.
  rewrite gtb_false by lia. apply take_ge. unfold len in *. lia.
Qed.

Lemma sliceFrom_all (s : jsstring) : sliceFrom s (len s) = [].
Proof.
  rewrite sliceFrom_suffix by (pose proof (len_nonneg s); lia).
  unfold len. rewrite Nat2Z.id. apply drop_all.
Qed.

(** X1. An empty text gives no chunk, and a text that fits is returned
    whole, as the only chunk. *)
Theorem splitLongMessage_short (text : jsstring) (maxLen : Z) :
  (forall fuel, (0 < fuel)%nat -> splitLongMessage fuel [] maxLen = Some [])
  /\ (text <> [] -> len text <= maxLen ->
      forall fuel, (1 < fuel)%nat ->
                   splitLongMessage fuel text maxLen = Some [text]).
Proof.
  split.
  - intros [|fuel] Hf; [lia | reflexivity].
  - intros Hne Hfit fuel Hf.
    destruct fuel as [|[|fuel]]; [lia | lia |].
    pose proof (len_pos text Hne) as Hpos.
    unfold splitLongMessage. cbn [splitLoop].
    rewrite (gtb_true (len text) 0) by lia.
    rewrite nextChunk_fits by lia. rewrite sliceFrom_all. reflexivity.
Qed.

Lemma lastIndexFrom_found (c : code_unit) (s : jsstring) (i : Z) :
  0 <= i -> 0 <= lastIndexFrom c s i ->
  s !! Z.to_nat (lastIndexFrom c s i - i) = Some c.
Proof.
  revert i. induction s as [|x s IH]; intros i Hi; simpl; [lia|].
  destruct (lastIndexFrom_range c s (i + 1)) as [E | E].
  - rewrite E. simpl. destruct (N.eqb x c) eqn:Hx; [|lia].
    intros _. rewrite Z.sub_diag. simpl. apply N.eqb_eq in Hx. by subst.
  - replace (0 <=? lastIndexFrom c s (i + 1)) with true
      by (symmetry; apply Z.leb_le; lia).
    intros Hr.
    replace (Z.to_nat (lastIndexFrom c s (i + 1) - i))
      with (S (Z.to_nat (lastIndexFrom c s (i + 1) - (i + 1)))) by lia.
    simpl. apply IH; lia.
Qed.

(** The chunk cut from a text that does not fit is either full, or ends
    with the last newline of the first [maxLen] units, which then lies
    beyond four fifths of [maxLen]. *)
Lemma nextChunk_long (remaining : jsstring) (maxLen : Z) :
  1 <= maxLen -> maxLen < len remaining ->
  len (nextChunk remaining maxLen) = maxLen
  \/ (last (nextChunk remaining maxLen) = Some LF
      /\ 4 * maxLen < 5 * (len (nextChunk remaining maxLen) - 1)).
Proof.
  intros Hm Hlong. unfold nextChunk.
  rewrite (slice_prefix remaining maxLen) by lia.
  rewrite (gtb_true (len remaining) maxLen) by lia.
  set (chunk := take (Z.to_nat maxLen) remaining).
  assert (Hchunk : len chunk = maxLen).
  { unfold len, chunk. rewrite length_take. unfold len in *. lia. }
  destruct (5 * lastIndexOf chunk LF >? 4 * maxLen) eqn:Hnl; [|by left].
  apply Z.gtb_lt in Hnl. right.
  pose proof (lastIndexOf_lt chunk LF) as Hlt. rewrite Hchunk in Hlt.
  pose proof (lastIndexFrom_found LF chunk 0 (Z.le_refl 0)) as Hfound.
  fold (lastIndexOf chunk LF) in Hfound.
  set (k := lastIndexOf chunk LF) in *.
  assert (Hk : 0 <= k) by lia.
  specialize (Hfound Hk). rewrite Z.sub_0_r in Hfound.
  rewrite slice_prefix by lia.
  assert (Hlen : len (take (Z.to_nat (k + 1)) remaining) = k + 1).
  { unfold len. rewrite length_take. unfold len in *. lia. }
  split; [|lia].
  rewrite last_lookup.
  replace (Init.Nat.pred (length (take (Z.to_nat (k + 1)) remaining)))
    with (Z.to_nat k) by (unfold len in Hlen; lia).
  rewrite lookup_take_lt by lia.
  unfold chunk in Hfound. by rewrite lookup_take_lt in Hfound by lia.
Qed.

Lemma splitLoop_full_or_newline (maxLen : Z) (Hm : 1 <= maxLen)
    (fuel : nat) :
  forall remaining acc chunks,
    splitLoop fuel remaining maxLen acc = Some chunks ->
    exists rest,
      chunks = acc ++ rest
      /\ forall i c, rest !! i = Some c -> (S i < length rest)%nat ->
           len c = maxLen
           \/ (last c = Some LF /\ 4 * maxLen < 5 * (len c - 1)).
Proof.
  induction fuel as [|fuel IH]; intros remaining acc chunks Hrun; [done|].
  simpl in Hrun. destruct (len remaining >? 0) eqn:Hpos.
  - destruct (Z.le_gt_cases (len remaining) maxLen) as [Hfit | Hlong].
    + (* the text fits: its chunk is the last one *)
      rewrite nextChunk_fits, sliceFrom_all in Hrun by lia.
      destruct fuel as [|fuel']; [done|]. simpl in Hrun.
      injection Hrun as <-. exists [remaining]. split; [done|].
      intros [|i] c Hc Hi; simpl in Hi; lia.
    + apply IH in Hrun as (rest & -> & Hrest).
      exists (nextChunk remaining maxLen :: rest).
      split; [by rewrite <- app_assoc|].
      intros [|i] c Hc Hi; simpl in *.
      * injection Hc as <-. apply nextChunk_long; lia.
      * apply (Hrest i c Hc). lia.
  - injection Hrun as <-. exists []. split; [by rewrite app_nil_r|].
    intros i c Hc. by rewrite lookup_nil in Hc.
Qed.

(** X2. Every chunk but the last is as long as the limit allows, or ends
    with a newline that lies beyond four fifths of the limit: the text
    is never cut short for any other reason. *)
Theorem splitLongMessage_chunks_full (text : jsstring) (maxLen : Z)
    (fuel : nat) (chunks : list jsstring) (i : nat) (c : jsstring) :
  1 <= maxLen ->
  splitLongMessage fuel text maxLen = Some chunks ->
  chunks !! i = Some c -> (S i < length chunks)%nat ->
  len c = maxLen
  \/ (last c = Some LF /\ 4 * maxLen < 5 * (len c - 1)).
Proof.
  intros Hm Hrun Hc Hi.
  destruct (splitLoop_full_or_newline maxLen Hm fuel text [] chunks Hrun)
    as (rest & -> & Hrest).
  by apply (Hrest i c).
Qed.

Lemma splitLongMessage_chunks_full_witness :
  let text := lit "aaaaaaaaa
bbbbbbbbbbbbbbb" in
  splitLongMessage 5 text 10 = Some [lit "aaaaaaaaa
"; lit "bbbbbbbbbb"; lit "bbbbb"]
  /\ (len (lit "bbbbbbbbbb") = 10
      \/ (last (lit "bbbbbbbbbb") = Some LF
          /\ 4 * 10 < 5 * (len (lit "bbbbbbbbbb") - 1))).
Proof.
  split; [vm_compute; reflexivity|].
  apply (splitLongMessage_chunks_full (lit "aaaaaaaaa
bbbbbbbbbbbbbbb") 10 5
           [lit "aaaaaaaaa
"; lit "bbbbbbbbbb"; lit "bbbbb"] 1 (lit "bbbbbbbbbb")).
  - lia.
  - vm_compute; reflexivity.
  - reflexivity.
  - simpl. lia.
Defined.

(** X3. With a limit of zero the loop cuts empty chunks for ever: on a text
    that is not empty no number of turns gives a result. *)
Theorem splitLongMessage_zero_limit (text : jsstring) (fuel : nat) :
  text <> [] -> splitLongMessage fuel text 0 = None.
Proof. apply splitLongMessage_zero_diverges. Qed.

Lemma splitLongMessage_zero_limit_witness :
  splitLongMessage 1000 (lit "a") 0 = None.
Proof. apply (splitLongMessage_zero_limit (lit "a") 1000). done. Defined.

Lemma digitsPrefix_app (d : Decimal.uint) (rest : jsstring) :
  head rest ≫= digitValue = None ->
  digitsPrefix (uintUnits d ++ rest) = digitsPrefix (uintUnits d).
Proof.
  intros Hrest. induction d; simpl; try (by rewrite IHd).
  destruct rest as [|c rest]; [done|]. simpl in *. by rewrite Hrest.
Qed.

Lemma mathInt10_uint_app (d : Decimal.uint) (rest : jsstring) :
  d <> Decimal.Nil ->
  head rest ≫= digitValue = None ->
  mathInt10 (uintUnits d ++ rest) = Some (Z.of_nat (Nat.of_uint d)).
Proof.
  intros Hd Hrest. rewrite <- (mathInt10_uint d Hd).
  pose proof (digitsPrefix_app d rest Hrest) as Happ.
  destruct d; [done | ..]; unfold mathInt10; simpl in *; by rewrite Happ.
Qed.

(** X4. The one-based print of a position of a list selects that position,
    whatever follows the digits, as long as it does not start with a
    digit: both parsers read ["3 dirs"] as the third entry.  This holds
    of every bound up to 2^53, below which the numbers of the code are
    exact, and so of the length of every array. *)
Theorem selection_accepted (n : nat) (maxIndex : Z) (rest : jsstring) :
  Z.of_nat n < maxIndex -> maxIndex <= 2 ^ 53 ->
  head rest ≫= digitValue = None ->
  parseModelIndex (Some (ofNat (S n) ++ rest)) maxIndex = Z.of_nat n
  /\ parseDirectoryIndex (Some (ofNat (S n) ++ rest)) maxIndex = Z.of_nat n.
Proof.
  intros Hn Hb Hrest.
  assert (Hmodel : parseModelIndex (Some (ofNat (S n) ++ rest)) maxIndex
                   = Z.of_nat n);
    [|split; [exact Hmodel | exact Hmodel]].
  rewrite (parseModelIndex_accepts_value _ (Z.of_nat (S n)));
    [lia | | | lia | done].
  - pose proof (ofNat_truthy (S n)) as H. by destruct (ofNat (S n)).
  - unfold ofNat.
    rewrite mathInt10_uint_app by (apply to_uint_not_Nil || done).
    by rewrite DecimalNat.Unsigned.of_to.
Qed.

Lemma selection_accepted_witness :
  parseModelIndex (Some (lit "3 dirs")) 14 = 2
  /\ parseDirectoryIndex (Some (lit "3 dirs")) 14 = 2.
Proof.
  apply (selection_accepted 2 14 (lit " dirs")); [lia | lia | reflexivity].
Defined.

Lemma firstUnused_earliest used available e :
  firstUnused used available = Some e ->
  exists i, available !! i = Some e /\ (e ∉ used)
            /\ (forall j e', (j < i)%nat -> available !! j = Some e' ->
                             e' ∈ used).
Proof.
  induction available as [|x rest IH]; simpl; [done|].
  destruct (decide (x ∈ used)) as [Hin | Hout].
  - intros H. destruct (IH H) as (i & Hi & He & Hbefore).
    exists (S i). repeat split; [done..|].
    intros [|j] e' Hj He'; simpl in He'.
    + by injection He' as <-.
    + apply (Hbefore j); [lia | done].
  - intros [= <-]. exists 0%nat. repeat split; [done..|]. intros; lia.
Qed.

(** X5. The pick is the earliest entry of the pool that is not in use.
    Only when every entry is in use is it the entry at the drawn
    position, and it is [undefined] only when that position is outside
    the pool, as it is for an empty pool. *)
Theorem pickSessionEmoji_earliest (used : gset jsstring)
    (available : list jsstring) (rnd : nat) :
  match pickSessionEmoji used available rnd with
  | Some e =>
      (exists i, available !! i = Some e /\ (e ∉ used)
                 /\ (forall j e', (j < i)%nat -> available !! j = Some e' ->
                                  e' ∈ used))
      \/ ((forall e', e' ∈ available -> e' ∈ used)
          /\ available !! rnd = Some e)
  | None =>
      (forall e', e' ∈ available -> e' ∈ used)
      /\ (length available <= rnd)%nat
  end.
Proof.
  unfold pickSessionEmoji.
  destruct (firstUnused used available) as [e|] eqn:E.
  - left. by apply firstUnused_earliest.
  - pose proof (firstUnused_None used available E) as Hall.
    destruct (available !! rnd) as [e|] eqn:Hr.
    + by right.
    + split; [done|]. by apply lookup_ge_None.
Qed.

End UtilsMoreSpec.

(** ** The chat target and the directory patterns *)

Module UtilsRestSpec.
Import Utils JsLib UtilsRest SplitSpec UtilsMoreSpec.

Lemma truthy_nonempty (o : option jsstring) :
  truthy o = true -> default [] o <> [].
Proof. by destruct o as [[|c r]|]. Qed.

(** The name of the chat target is never the empty string: a chat
    without any usable name is shown as its id or as unknown. *)
Lemma formatChatTarget_not_nil (chat : Chat) (from : option User) :
  formatChatTarget chat from <> [].
Proof.
  unfold formatChatTarget.
  destruct (bool_decide (chat_type chat = lit "private")).
  - destruct from as [user|]; [|done]. cbv zeta.
    destruct (truthy (Some (trim _))) eqn:Hname.
    + by apply (truthy_nonempty (Some _)).
    + by destruct (truthy (username user)).
  - destruct (truthy (chat_title chat)) eqn:Ht;
      [by apply truthy_nonempty|].
    by destruct (truthy (chat_username chat)).
Qed.

(** X6. The name of a chat target always has at least one unit. *)
Theorem formatChatTarget_nonempty (chat : Chat) (from : option User) :
  0 < len (formatChatTarget chat from).
Proof. apply len_pos, formatChatTarget_not_nil. Qed.

(** A private chat is named after its user, a group after its title;
    a user without any name is unknown, a group without title and
    user name is shown by its id. *)
Example formatChatTarget_examples :
  formatChatTarget (mkChat 7 (lit "private") None None)
                   (Some (mkUser (Some (lit " Ada ")) (Some (lit "L")) None))
  = lit "Ada  L"
  /\ formatChatTarget (mkChat 7 (lit "private") None None)
                      (Some (mkUser None None (Some (lit "ada"))))
     = lit "@ada"
  /\ formatChatTarget (mkChat 7 (lit "private") None None)
                      (Some (mkUser (Some (lit "  ")) None None))
     = unknownTarget
  /\ formatChatTarget (mkChat 7 (lit "private") None None) None
     = unknownTarget
  /\ formatChatTarget (mkChat (-1001) (lit "group") (Some []) None) None
     = lit "chatId: -1001".
Proof. repeat split; vm_compute; reflexivity. Qed.

(** *** White space at the ends of a string *)

Lemma trimStart_length (s : jsstring) :
  (length (trimStart s) <= length s)%nat.
Proof.
  induction s as [|c s IH]; simpl; [done|].
  destruct (isStrWhiteSpaceChar c); simpl; lia.
Qed.

Lemma trimEnd_length (s : jsstring) : (length (trimEnd s) <= length s)%nat.
Proof.
  unfold trimEnd. rewrite length_reverse.
  pose proof (trimStart_length (reverse s)) as H.
  by rewrite length_reverse in H.
Qed.

Lemma trimStart_head (c : code_unit) (s : jsstring) :
  isStrWhiteSpaceChar c = false -> trimStart (c :: s) = c :: s.
Proof. intros H. simpl. by rewrite H. Qed.

Lemma trimStart_idem (s : jsstring) : trimStart (trimStart s) = trimStart s.
Proof.
  induction s as [|c s IH]; [done|]. simpl.
  destruct (isStrWhiteSpaceChar c) eqn:Hc; [done|]. simpl. by rewrite Hc.
Qed.

Lemma trimStart_snoc (l : jsstring) (c : code_unit) :
  isStrWhiteSpaceChar c = false ->
  exists r, trimStart (l ++ [c]) = r ++ [c].
Proof.
  intros Hc. induction l as [|x l IH]; simpl.
  - rewrite Hc. by exists [].
  - destruct (isStrWhiteSpaceChar x); [done|]. by exists (x :: l).
Qed.

Lemma trimEnd_head (c : code_unit) (s : jsstring) :
  isStrWhiteSpaceChar c = false -> exists r, trimEnd (c :: s) = c :: r.
Proof.
  intros Hc. unfold trimEnd. rewrite reverse_cons.
  destruct (trimStart_snoc (reverse s) c Hc) as [r ->].
  exists (reverse r). by rewrite reverse_app.
Qed.

Lemma trimStart_suffix (s : jsstring) : exists pre, s = pre ++ trimStart s.
Proof.
  induction s as [|c s [pre IH]]; [by exists []|]. simpl.
  destruct (isStrWhiteSpaceChar c).
  - exists (c :: pre). simpl. by rewrite <- IH.
  - by exists [].
Qed.

Lemma trimEnd_prefix (s : jsstring) : exists post, s = trimEnd s ++ post.
Proof.
  unfold trimEnd. destruct (trimStart_suffix (reverse s)) as [pre H].
  exists (reverse pre).
  rewrite <- reverse_app, <- H. by rewrite reverse_involutive.
Qed.

Lemma trim_elem_of (c : code_unit) (s : jsstring) : c ∈ trim s -> c ∈ s.
Proof.
  unfold trim. intros H.
  destruct (trimStart_suffix s) as [pre Hs].
  destruct (trimEnd_prefix (trimStart s)) as [post Ht].
  rewrite Hs, Ht. set_solver.
Qed.

Lemma trim_idem (s : jsstring) : trim (trim s) = trim s.
Proof.
  unfold trim. destruct (trimStart s) as [|c t] eqn:Hs; [done|].
  assert (Hc : isStrWhiteSpaceChar c = false).
  { destruct s as [|x s']; [done|].
    pose proof (trimStart_idem (x :: s')) as Hi. rewrite Hs in Hi.
    simpl in Hi. destruct (isStrWhiteSpaceChar c); [|done].
    pose proof (trimStart_length t) as Hl. rewrite Hi in Hl.
    simpl in Hl. lia. }
  destruct (trimEnd_head c t Hc) as [r Hr].
  rewrite Hr, trimStart_head by done. rewrite <- Hr.
  unfold trimEnd. by rewrite reverse_involutive, trimStart_idem.
Qed.

(** A string that [trim] leaves alone starts with a unit that is not
    white space, unless it is empty. *)
Lemma trimmed_head (p : jsstring) :
  trim p = p -> p <> [] ->
  exists c r, p = c :: r /\ isStrWhiteSpaceChar c = false.
Proof.
  intros Ht Hne. destruct p as [|c r]; [done|].
  exists c, r. split; [done|].
  destruct (isStrWhiteSpaceChar c) eqn:Hc; [|done]. exfalso.
  assert (Hlen : (length (trim (c :: r)) <= length r)%nat).
  { unfold trim. simpl. rewrite Hc.
    pose proof (trimEnd_length (trimStart r)).
    pose proof (trimStart_length r). lia. }
  rewrite Ht in Hlen. simpl in Hlen. lia.
Qed.

Lemma trim_nonempty (c : code_unit) (s : jsstring) :
  isStrWhiteSpaceChar c = false -> trim (c :: s) <> [].
Proof.
  intros Hc. unfold trim. rewrite trimStart_head by done.
  by destruct (trimEnd_head c s Hc) as [r ->].
Qed.

(** *** Splitting and joining *)

Lemma split_nonempty (sep : code_unit) (s : jsstring) : split sep s <> [].
Proof.
  destruct s as [|c s]; simpl; [done|].
  destruct (N.eqb c sep); [done|]. by destruct (split sep s).
Qed.

Lemma split_parts (sep : code_unit) (s : jsstring) :
  Forall (fun p => sep ∉ p) (split sep s).
Proof.
  induction s as [|c s IH]; simpl.
  - constructor; [set_solver | constructor].
  - destruct (N.eqb c sep) eqn:Hc.
    + constructor; [set_solver | done].
    + destruct (split sep s) as [|p ps] eqn:E;
        [by apply split_nonempty in E|].
      apply Forall_cons in IH as [Hp Hps].
      constructor; [|done]. apply N.eqb_neq in Hc.
      intros Hin. apply elem_of_cons in Hin as [-> | Hin]; done.
Qed.

Lemma split_one (sep : code_unit) (p : jsstring) :
  sep ∉ p -> split sep p = [p].
Proof.
  induction p as [|c p IH]; intros Hp; simpl; [done|].
  assert (Hc : N.eqb c sep = false).
  { apply N.eqb_neq. intros ->. apply Hp. by left. }
  rewrite Hc, IH; [done|]. intros H. apply Hp. by right.
Qed.

Lemma split_app (sep : code_unit) (p s : jsstring) :
  sep ∉ p -> split sep (p ++ sep :: s) = p :: split sep s.
Proof.
  induction p as [|c p IH]; intros Hp; simpl.
  - by rewrite N.eqb_refl.
  - assert (Hc : N.eqb c sep = false).
    { apply N.eqb_neq. intros ->. apply Hp. by left. }
    rewrite Hc, IH; [done|]. intros H. apply Hp. by right.
Qed.

Lemma split_join (sep : code_unit) (ps : list jsstring) :
  ps <> [] -> Forall (fun p => sep ∉ p) ps ->
  split sep (join [sep] ps) = ps.
Proof.
  induction ps as [|p ps IH]; intros Hne Hps; [done|].
  apply Forall_cons in Hps as [Hp Hps].
  destruct ps as [|q ps]; simpl.
  - by apply split_one.
  - rewrite split_app by done. f_equal. by apply IH.
Qed.

(** A pattern as this loader returns it from the environment: not
    empty, without white space at its ends, without comma. *)
Lemma loaded_pattern (p : jsstring) (s : jsstring) :
  p ∈ List.filter (fun p => len p >? 0) (trim <$> split 44%N s) ->
  p <> [] /\ trim p = p /\ 44%N ∉ p.
Proof.
  intros Hin. apply list_elem_of_In, filter_In in Hin as [Hin Hlen].
  apply list_elem_of_In, list_elem_of_fmap in Hin as (q & -> & Hq).
  split; [|split].
  - intros H. rewrite H in Hlen. done.
  - apply trim_idem.
  - intros Hc. apply trim_elem_of in Hc.
    pose proof (split_parts 44%N s) as Hparts.
    rewrite Forall_forall in Hparts. by apply (Hparts q).
Qed.

(** X7. When the environment variable holds more than white space, the
    file is not consulted, and every pattern returned is a non-empty
    string without white space at its ends and without comma. *)
Theorem loadDirectoryPatterns_env (envValue : jsstring)
    (file : option (list jsstring)) :
  trim envValue <> [] ->
  loadDirectoryPatterns (Some envValue) file
  = loadDirectoryPatterns (Some envValue) None
  /\ Forall (fun p => p <> [] /\ trim p = p /\ 44%N ∉ p)
            (loadDirectoryPatterns (Some envValue) file).
Proof.
  intros Hne. unfold loadDirectoryPatterns.
  assert (Hguard : truthy (Some envValue)
                   && (len (trim (default [] (Some envValue))) >? 0)
                   = true).
  { apply andb_true_intro. split.
    - destruct envValue; [done | done].
    - apply Z.gtb_lt. by apply len_pos. }
  rewrite Hguard. split; [done|].
  apply Forall_forall. intros p Hp. by apply (loaded_pattern p envValue).
Qed.

Lemma loadDirectoryPatterns_env_witness :
  trim (lit " /a/* , ,/b ") <> []
  /\ loadDirectoryPatterns (Some (lit " /a/* , ,/b ")) (Some [lit "/c"])
     = loadDirectoryPatterns (Some (lit " /a/* , ,/b ")) None
  /\ Forall (fun p => p <> [] /\ trim p = p /\ 44%N ∉ p)
            (loadDirectoryPatterns (Some (lit " /a/* , ,/b "))
                                   (Some [lit "/c"])).
Proof.
  split; [by vm_compute|].
  apply (loadDirectoryPatterns_env (lit " /a/* , ,/b ") (Some [lit "/c"])).
  by vm_compute.
Defined.

(** X8. Patterns that are non-empty, without white space at their ends and
    without comma come back as they are, in their order, from the
    environment value that joins them with commas. *)
Theorem loadDirectoryPatterns_roundtrip (ps : list jsstring)
    (file : option (list jsstring)) :
  ps <> [] ->
  Forall (fun p => p <> [] /\ trim p = p /\ 44%N ∉ p) ps ->
  loadDirectoryPatterns (Some (join [44%N] ps)) file = ps.
Proof.
  intros Hne Hps. unfold loadDirectoryPatterns.
  destruct ps as [|p ps]; [done|].
  pose proof Hps as Hall.
  apply Forall_cons in Hps as [(Hp & Htrim & Hcomma) Hrest].
  destruct (trimmed_head p Htrim Hp) as (c & r & -> & Hc).
  assert (Hj : exists t, join [44%N] ((c :: r) :: ps) = c :: t).
  { destruct ps; simpl; by eexists. }
  destruct Hj as [t Hj].
  assert (Hguard : truthy (Some (join [44%N] ((c :: r) :: ps)))
                   && (len (trim (default []
                                   (Some (join [44%N] ((c :: r) :: ps)))))
                       >? 0) = true).
  { rewrite Hj. apply andb_true_intro. split; [done|].
    apply Z.gtb_lt, len_pos. by apply trim_nonempty. }
  rewrite Hguard. clear Hguard Hj t.
  change (default [] (Some (join [44%N] ((c :: r) :: ps))))
    with (join [44%N] ((c :: r) :: ps)).
  rewrite split_join; [|done|].
  - generalize dependent ((c :: r) :: ps). intros l _ Hl.
    induction Hl as [|q l (Hq & Hqt & _) Hl IH]; [done|].
    rewrite fmap_cons, Hqt. simpl.
    rewrite (gtb_true (len q) 0) by (by apply len_pos). by rewrite IH.
  - eapply Forall_impl; [exact Hall|]. by intros q (_ & _ & Hq).
Qed.

Lemma loadDirectoryPatterns_roundtrip_witness :
  loadDirectoryPatterns (Some (lit "/home/u/*,/srv/app")) None
  = [lit "/home/u/*"; lit "/srv/app"].
Proof.
  apply (loadDirectoryPatterns_roundtrip [lit "/home/u/*"; lit "/srv/app"]
           None); [done|].
  repeat constructor; try done;
    by apply (bool_decide_unpack _); vm_compute.
Defined.

End UtilsRestSpec.

(** ** More on the start of a session *)

Module StartMoreSpec.
Import Utils Index StartSpec ResetSpec Scenario.

Lemma teardown_state (st : ChatState) :
  (teardown st).1 = set_client None (set_session None st).
Proof.
  destruct st as [c s d m b q r i e cp af pc eq pe om tc].
  by destruct s, c.
Qed.

(** The state of the chat once [startSession] has fetched or created
    it. *)
Lemma ensureState_lookup cfg rnd (cs : gmap Z ChatState) chatId m :
  ensureState cfg rnd cs chatId m !! chatId
  = Some match cs !! chatId with
         | Some st => if truthy m then set_model (default [] m) st else st
         | None =>
             freshState (if truthy m then default [] m else defaultModel cfg)
                        (pickSessionEmoji cs rnd)
         end.
Proof.
  unfold ensureState. destruct (cs !! chatId) as [st|] eqn:E.
  - destruct (truthy m); [by rewrite lookup_insert_eq | done].
  - by rewrite lookup_insert_eq.
Qed.

Lemma ensureState_insert cfg rnd (cs : gmap Z ChatState) chatId m st :
  <[chatId := st]> (ensureState cfg rnd cs chatId m) = <[chatId := st]> cs.
Proof.
  unfold ensureState. destruct (cs !! chatId) as [st0|].
  - destruct (truthy m); [by rewrite insert_insert_eq | done].
  - by rewrite insert_insert_eq.
Qed.

(** Whatever its outcome, [startSession] changes the state of its chat
    and of no other. *)
Lemma startSession_inserts cfg env (cs : gmap Z ChatState) chatId
    directory m :
  exists final,
    (startSession cfg env cs chatId directory m).1.1 = <[chatId := final]> cs.
Proof.
  destruct (startSession cfg env cs chatId directory m).2 as [|err] eqn:E.
  - destruct (startSession_returned _ _ _ _ _ _ E) as (st0 & s & _ & _ & ->).
    eexists. by rewrite insert_insert_eq, ensureState_insert.
  - destruct (startSession_thrown _ _ _ _ _ _ _ E) as (st0 & _ & ->).
    eexists. by rewrite ensureState_insert.
Qed.

Lemma storeSession_keeps (cs : gmap Z ChatState) chatId st c s d rnd :
  let st' := storeSession cs chatId st c s d rnd in
  model st' = model st /\ images st' = images st
  /\ turnCount st' = turnCount st /\ client st' = Some c
  /\ currentPrompt st' = currentPrompt st
  /\ originalMessageId st' = originalMessageId st.
Proof.
  destruct st as [c0 s0 d0 m b q r i e cp af pc eq pe om tc].
  repeat split; reflexivity.
Qed.

(** The effects of a call that throws. *)
Lemma startSession_thrown_effects cfg env (cs : gmap Z ChatState) chatId
    directory m err :
  (startSession cfg env cs chatId directory m).2 = Thrown err ->
  (forall s k, SessionOn s k ∉ (startSession cfg env cs chatId directory m).1.2)
  /\ match chdirOutcome env with
     | Rejects _ =>
         (forall c, ClientStart c
                    ∉ (startSession cfg env cs chatId directory m).1.2)
         /\ exists message, err = CannotChdir directory message
     | Resolves =>
         last (startSession cfg env cs chatId directory m).1.2
         = Some (ClientStop (newClient env))
     end.
Proof.
  unfold startSession.
  destruct (ensureState_is_Some cfg (rndOnCreate env) cs chatId m)
    as [st0 Hst0].
  rewrite Hst0.
  assert (Htear : forall e, e ∈ (teardown st0).2 ->
            (exists s, e = SessionDestroy s) \/ (exists c, e = ClientStop c)).
  { unfold teardown.
    destruct st0 as [c s d m0 b q r i e0 cp af pc eq pe om tc]. simpl.
    destruct s, c; simpl; intros e He;
      repeat (apply elem_of_cons in He as [-> | He]; [eauto|]);
      by apply elem_of_nil in He. }
  destruct (teardown st0) as [st1 eT]. simpl in Htear.
  assert (Hno : forall e, e ∈ eT -> (forall s k, e <> SessionOn s k)
                                    /\ (forall c, e <> ClientStart c)).
  { intros e He. by destruct (Htear e He) as [[s ->] | [c ->]]. }
  destruct (chdirOutcome env) as [|e0].
  - destruct (clientStartOutcome env) as [|e1].
    + destruct (createSessionOutcome env) as [s | e2]; [done|].
      intros _. cbn [fst snd]. split.
      * intros s k Hin. rewrite !elem_of_app in Hin.
        destruct Hin as [[Hin | Hin] | Hin].
        -- by apply (proj1 (Hno _ Hin) s k).
        -- repeat (apply elem_of_cons in Hin as [Hin | Hin]; [done|]).
           by apply elem_of_nil in Hin.
        -- repeat (apply elem_of_cons in Hin as [Hin | Hin]; [done|]).
           by apply elem_of_nil in Hin.
      * by rewrite last_app.
    + intros _. cbn [fst snd]. split.
      * intros s k Hin. rewrite !elem_of_app in Hin.
        destruct Hin as [[Hin | Hin] | Hin].
        -- by apply (proj1 (Hno _ Hin) s k).
        -- repeat (apply elem_of_cons in Hin as [Hin | Hin]; [done|]).
           by apply elem_of_nil in Hin.
        -- repeat (apply elem_of_cons in Hin as [Hin | Hin]; [done|]).
           by apply elem_of_nil in Hin.
      * by rewrite last_snoc.
  - intros [= <-]. cbn [fst snd]. split; [|split].
    + intros s k Hin. rewrite elem_of_app in Hin.
      destruct Hin as [Hin | Hin].
      * by apply (proj1 (Hno _ Hin) s k).
      * repeat (apply elem_of_cons in Hin as [Hin | Hin]; [done|]).
        by apply elem_of_nil in Hin.
    + intros c Hin. rewrite elem_of_app in Hin.
      destruct Hin as [Hin | Hin].
      * by apply (proj2 (Hno _ Hin) c).
      * repeat (apply elem_of_cons in Hin as [Hin | Hin]; [done|]).
        by apply elem_of_nil in Hin.
    + by eexists.
Qed.

(** X9. A start that fails leaves the chat without session and without
    client and changes nothing else of its state, but the model if one
    was given: the prompt queue and the busy flag stay as they were.
    No listener is registered.  If the directory could not be entered
    no client was started; otherwise the client that was started is the
    last thing stopped. *)
Theorem startSession_failure cfg env (cs : gmap Z ChatState) chatId
    directory m err st :
  let result := startSession cfg env cs chatId directory m in
  cs !! chatId = Some st ->
  result.2 = Thrown err ->
  result.1.1
  = <[chatId := set_client None
                  (set_session None
                     (if truthy m then set_model (default [] m) st else st))]>
      cs
  /\ (forall s k, SessionOn s k ∉ result.1.2)
  /\ match chdirOutcome env with
     | Rejects _ =>
         (forall c, ClientStart c ∉ result.1.2)
         /\ exists message, err = CannotChdir directory message
     | Resolves => last result.1.2 = Some (ClientStop (newClient env))
     end.
Proof.
  intros result Hst Hthrown. subst result. split.
  - destruct (startSession_thrown _ _ _ _ _ _ _ Hthrown) as (st0 & Hst0 & ->).
    rewrite ensureState_lookup, Hst in Hst0. injection Hst0 as <-.
    by rewrite ensureState_insert, teardown_state.
  - by apply startSession_thrown_effects.
Qed.

Lemma startSession_failure_witness :
  (startSession cfg startFails busy1 1 (lit "/w") None).2
  = Thrown (ErrorMessage (lit "spawn failed"))
  /\ busy <$> (startSession cfg startFails busy1 1 (lit "/w") None).1.1 !! 1
     = Some true
  /\ session <$> (startSession cfg startFails busy1 1 (lit "/w") None).1.1 !! 1
     = Some None.
Proof.
  assert (Hthrown : (startSession cfg startFails busy1 1 (lit "/w") None).2
                    = Thrown (ErrorMessage (lit "spawn failed")))
    by (vm_compute; reflexivity).
  assert (Hst : busy1 !! 1 = Some busyState1) by (vm_compute; reflexivity).
  destruct (startSession_failure cfg startFails busy1 1 (lit "/w") None
              _ busyState1 Hst Hthrown) as (-> & _).
  split; [exact Hthrown|]. by rewrite lookup_insert_eq.
Defined.

(** The state of a chat after a start with the model that its state
    already holds, by the outcome of the start. *)
Lemma startSession_outcome cfg env (cs : gmap Z ChatState) chatId directory
    m st :
  cs !! chatId = Some st -> model st = m ->
  exists st',
    (startSession cfg env cs chatId directory (Some m)).1.1 !! chatId
    = Some st'
    /\ model st' = m /\ images st' = images st
    /\ turnCount st' = turnCount st
    /\ currentPrompt st' = currentPrompt st
    /\ match (startSession cfg env cs chatId directory (Some m)).2 with
       | Returned =>
           is_Some (session st') /\ is_Some (client st')
           /\ queue st' = [] /\ busy st' = false
           /\ resetting st' = false /\ dir st' = Some directory
       | Thrown _ =>
           session st' = None /\ client st' = None
           /\ queue st' = queue st /\ busy st' = busy st
           /\ resetting st' = resetting st /\ dir st' = dir st
       end.
Proof.
  intros Hst Hm.
  assert (Hens : ensureState cfg (rndOnCreate env) cs chatId (Some m)
                 !! chatId
                 = Some (if truthy (Some m) then set_model m st else st)).
  { by rewrite ensureState_lookup, Hst. }
  assert (Hsame : forall st0,
            st0 = (if truthy (Some m) then set_model m st else st) ->
            model st0 = m /\ images st0 = images st
            /\ turnCount st0 = turnCount st
            /\ currentPrompt st0 = currentPrompt st
            /\ queue st0 = queue st
            /\ busy st0 = busy st /\ resetting st0 = resetting st
            /\ dir st0 = dir st).
  { intros st0 ->. by destruct (truthy _), st. }
  destruct (startSession cfg env cs chatId directory (Some m)).2
    as [|err] eqn:E.
  - destruct (startSession_returned _ _ _ _ _ _ E) as (st0 & s & Hst0 & _ & ->).
    rewrite lookup_insert_eq. eexists. split; [reflexivity|].
    rewrite Hens in Hst0. injection Hst0 as Hst0.
    destruct (Hsame st0 (eq_sym Hst0)) as (H1 & H2 & H3 & H4 & _).
    match goal with
    | |- context [storeSession ?a ?b ?c ?d ?e ?f ?g] =>
        destruct (storeSession_keeps a b c d e f g)
          as (-> & -> & -> & -> & -> & _);
        destruct (storeSession_fields a b c d e f g)
          as (-> & -> & -> & _ & -> & -> & _)
    end.
    rewrite teardown_state. destruct st0. simpl in *.
    repeat split; try done; by eexists.
  - destruct (startSession_thrown _ _ _ _ _ _ _ E) as (st0 & Hst0 & ->).
    rewrite lookup_insert_eq. eexists. split; [reflexivity|].
    rewrite Hens in Hst0. injection Hst0 as Hst0.
    destruct (Hsame st0 (eq_sym Hst0))
      as (H1 & H2 & H3 & H4 & H5 & H6 & H7 & H8).
    rewrite teardown_state. by destruct st0.
Qed.

End StartMoreSpec.

(** ** Recent models and the quick-switch buttons *)

Module RecentSpec.
Import Utils Index JsLib UtilsRest Commands Handlers Fixtures Scenario.
Import UtilsMoreSpec ParseSpec StartSpec ResetSpec StartMoreSpec.

(** X10. The list of recent models after an addition starts with the model
    added, has at most two entries and no entry twice, and holds nothing
    but the added model and former entries; the other fields of the
    state are not touched. *)
Theorem addToRecentModels_invariant (x : Extra) (newModel : jsstring) :
  exists l,
    recentModels (addToRecentModels x newModel) = Some l
    /\ head l = Some newModel
    /\ (length l <= 2)%nat
    /\ NoDup l
    /\ (forall m, m ∈ l ->
                  m = newModel \/ m ∈ default [] (recentModels x))
    /\ toolStartMessages (addToRecentModels x newModel)
       = toolStartMessages x
    /\ availableDirs (addToRecentModels x newModel) = availableDirs x.
Proof.
  unfold addToRecentModels. cbv zeta.
  set (filtered := filter (fun m => m <> newModel)
                          (default [] (recentModels x))).
  assert (Hf : forall m, m ∈ filtered ->
                 m <> newModel /\ m ∈ default [] (recentModels x)).
  { intros m Hm. by apply list_elem_of_filter in Hm. }
  exists (newModel :: take 1 filtered).
  split; [done|]. split; [done|].
  destruct filtered as [|y rest]; simpl.
  - repeat split; [lia | apply NoDup_singleton | | done..].
    intros m Hm. left. by apply list_elem_of_singleton in Hm.
  - rewrite take_0.
    destruct (Hf y) as [Hy Hin]; [by left|].
    repeat split; [lia | | | done..].
    + apply NoDup_cons. split; [|apply NoDup_singleton].
      intros H. apply list_elem_of_singleton in H. by subst.
    + intros m Hm. apply elem_of_cons in Hm as [-> | Hm]; [by left|].
      apply list_elem_of_singleton in Hm. subst. by right.
Qed.

(** *** What a button decodes to *)

Lemma startsWith_app (p t : jsstring) : startsWith (p ++ t) p = true.
Proof.
  induction p as [|c p IH]; simpl; [by destruct t|].
  by rewrite N.eqb_refl.
Qed.

Lemma replaceFirst_startsWith (pat rep s : jsstring) :
  startsWith s pat = true ->
  replaceFirst pat rep s = rep ++ drop (length pat) s.
Proof. intros H. destruct s; simpl in *; by rewrite H. Qed.

Lemma replaceFirst_prefix (pat rep t : jsstring) :
  replaceFirst pat rep (pat ++ t) = rep ++ t.
Proof.
  rewrite replaceFirst_startsWith by apply startsWith_app.
  by rewrite drop_app_length.
Qed.











(** The row of chat 1 after it has switched from gpt-5 to gpt-4.1: the
    way back to gpt-5 first, then the model used before that. *)
Example switch_row_example :
  callback_data
    <$> buildModelSwitchRow availableModels
          (onSetModel cfg availableModels queryOk startedGpt recentOf1 1
                      (lit "set_model:12")).1.1
          (onSetModel cfg availableModels queryOk startedGpt recentOf1 1
                      (lit "set_model:12")).1.2
          1 (Some (lit "gpt-4.1"))
  = [lit "cmd_model"; lit "set_model:9"; lit "set_model:0"].
Proof. vm_compute. reflexivity. Qed.

End RecentSpec.

(** ** Tool messages: from the start of a tool to its completion *)

Module ToolSpec.
Import Utils Index JsLib Commands.

Lemma mapGet_mapSet (k : jsstring) (v : ToolStartMessage)
    (m : list (jsstring * ToolStartMessage)) :
  mapGet k (mapSet k v m) = Some v.
Proof.
  induction m as [|[k' v'] m IH]; simpl.
  - by rewrite decide_True.
  - destruct (decide (k' = k)) as [-> | Hne]; simpl.
    + by rewrite decide_True.
    + by rewrite decide_False.
Qed.

Lemma mapDelete_mapSet (k : jsstring) (v : ToolStartMessage)
    (m : list (jsstring * ToolStartMessage)) :
  mapDelete k (mapSet k v m) = mapDelete k m.
Proof.
  induction m as [|[k' v'] m IH]; simpl.
  - by rewrite decide_True.
  - destruct (decide (k' = k)) as [-> | Hne]; simpl.
    + by rewrite decide_True.
    + by rewrite decide_False, IH.
Qed.

Lemma find_mapSet (k : jsstring) (v : ToolStartMessage)
    (m : list (jsstring * ToolStartMessage)) (ev : jsstring) :
  eventId v = ev ->
  Forall (fun kv => eventId kv.2 <> ev) m ->
  List.find (fun entry => bool_decide (eventId entry = ev))
            (mapSet k v m).*2 = Some v.
Proof.
  intros Hv Hm. induction Hm as [|[k' v'] m Hkv Hm IH]; simpl.
  - by rewrite bool_decide_eq_true_2.
  - simpl in Hkv. destruct (decide (k' = k)) as [-> | Hne]; simpl.
    + by rewrite bool_decide_eq_true_2.
    + by rewrite bool_decide_eq_false_2.
Qed.

(** X13. The start message that is stored when a tool starts is the one that
    the completion of the tool finds, and the completion drops it,
    leaving the entries of the other tools as they were: by the id of
    the tool call when both events carry it, and by the id of the start
    event, which the completion names as its parent, when neither
    does. *)
Theorem tool_start_is_found (x : Extra) (evId name key : jsstring)
    (params : option jsstring) (sentId : Z) :
  let before := default [] (toolStartMessages x) in
  (forall callId parentId,
      callId <> [] ->
      let entry :=
        {| messageId := sentId; toolCallId := callId; toolName := name;
           eventId := evId; resultKey := Some key; paramsText := params |} in
      let done :=
        completeTool
          (storeToolStart x evId (Some callId) name key params sentId)
          (Some callId) parentId in
      done.1 = Some entry
      /\ toolStartMessages done.2 = Some (mapDelete callId before))
  /\ (forall callId callId',
        truthy callId = false -> truthy callId' = false ->
        evId <> [] ->
        Forall (fun kv => eventId kv.2 <> evId) before ->
        let entry :=
          {| messageId := sentId; toolCallId := evId; toolName := name;
             eventId := evId; resultKey := Some key;
             paramsText := params |} in
        let done :=
          completeTool
            (storeToolStart x evId callId name key params sentId)
            callId' (Some evId) in
        done.1 = Some entry
        /\ toolStartMessages done.2 = Some (mapDelete evId before)).
Proof.
  intros before. split.
  - intros callId parentId Hne entry done. subst done.
    assert (Ht : truthy (Some callId) = true) by (by destruct callId).
    unfold completeTool, findToolStartMessage, storeToolStart, orElse.
    rewrite Ht. cbn [toolStartMessages set_toolStartMessages default].
    unfold id. rewrite mapGet_mapSet.
    cbn [fst snd toolCallId toolStartMessages set_toolStartMessages fmap
         option_fmap option_map].
    by rewrite mapDelete_mapSet.
  - intros callId callId' Hc Hc' Hne Hfresh entry done. subst done.
    assert (Ht : truthy (Some evId) = true) by (by destruct evId).
    unfold completeTool, findToolStartMessage, storeToolStart, orElse.
    rewrite Hc. cbn [toolStartMessages set_toolStartMessages default].
    rewrite ?Hc', ?Ht. cbn [default]. unfold id.
    erewrite find_mapSet; [|reflexivity | exact Hfresh].
    cbn [fst snd toolCallId toolStartMessages set_toolStartMessages fmap
         option_fmap option_map].
    by rewrite mapDelete_mapSet.
Qed.

(** Two tools run at once; each completion finds its own start message,
    in either order. *)
Example two_tools :
  let x1 := storeToolStart noExtra (lit "e1") (Some (lit "call-1"))
                           (lit "grep") (lit "k1") None 501 in
  let x2 := storeToolStart x1 (lit "e2") (Some (lit "call-2"))
                           (lit "bash") (lit "k2") None 502 in
  messageId <$> (completeTool x2 (Some (lit "call-2")) None).1 = Some 502
  /\ messageId <$> (completeTool
                      (completeTool x2 (Some (lit "call-2")) None).2
                      (Some (lit "call-1")) None).1 = Some 501
  /\ toolStartMessages
       (completeTool (completeTool x2 (Some (lit "call-2")) None).2
                     (Some (lit "call-1")) None).2 = Some [].
Proof. repeat split; vm_compute; reflexivity. Qed.

End ToolSpec.

(** ** sendLongMessage cuts as splitLongMessage does *)

Module LongSpec.
Import Utils Index JsLib Commands SplitSpec UtilsMoreSpec Fixtures Scenario.






(** The one message that chat 1 gets for a short answer: the marker of
    its session, the name of its directory, then the text. *)
Example short_answer :
  sendLongMessage 100 lastSegment started1 1 (lit "done") (Some 42)
  = Some [SendRaw 1 ([55357; 57314; 32]%N ++ lit "Copilot " ++ [8729%N]
                       ++ lit " w" ++ [LF; LF] ++ lit "done")
                  (Some 42)].
Proof. vm_compute. reflexivity. Qed.

End LongSpec.

(** ** The completion notice of a turn *)

Module FinalSpec.
Import Utils Index JsLib Commands Fixtures Scenario.



End FinalSpec.

(** ** Resets and failed turns *)

Module TurnSpec.
Import Utils Index StartSpec MessageSpec ResetSpec QueueSpec StartMoreSpec.
Import Fixtures Scenario.



(** X19. An idle event on a chat that has prompts waiting but no session
    takes the first prompt from the queue and drops it: nothing is sent
    to any session and nothing to the chat. *)
Theorem idle_without_session_drops_prompt out (cs : gmap Z ChatState)
    chatId st p rest :
  let result := handleSessionIdle out cs chatId in
  cs !! chatId = Some st -> session st = None ->
  queue st = p :: rest ->
  result.2 = []
  /\ exists st',
       result.1 !! chatId = Some st'
       /\ queue st' = rest /\ busy st' = false
       /\ currentPrompt st' = None /\ session st' = None.
Proof.
  intros result Hst Hs Hq. subst result.
  unfold handleSessionIdle. rewrite Hst.
  destruct st as [c s d m b q r i e cp af pc eq pe om tc].
  simpl in Hs, Hq. subst s q. cbn.
  destruct p as [|u p]; cbn; (split; [done|]);
    rewrite lookup_insert_eq; eexists; (split; [reflexivity|]); done.
Qed.

Lemma idle_without_session_drops_prompt_witness :
  queueOf strandedQueue 1 = [lit "task2"; lit "task3"]
  /\ (handleSessionIdle Resolves strandedQueue 1).2 = []
  /\ queueOf (handleSessionIdle Resolves strandedQueue 1).1 1
     = [lit "task3"].
Proof.
  assert (Hst : exists st, strandedQueue !! 1 = Some st
                           /\ session st = None
                           /\ queue st = [lit "task2"; lit "task3"]).
  { eexists. split; [vm_compute; reflexivity|]. by split. }
  destruct Hst as (st & Hst & Hs & Hq).
  destruct (idle_without_session_drops_prompt Resolves strandedQueue 1 st
              (lit "task2") [lit "task3"] Hst Hs Hq)
    as (Heff & st' & Hst' & Hq' & _).
  unfold queueOf. rewrite Hst, Hst', Hq, Hq'. by split.
Defined.

End TurnSpec.

(** ** One chat at a time *)

Module FrameSpec.
Import Utils Index JsLib Commands Handlers.
Import StartSpec MessageSpec ResetSpec StartMoreSpec.

Lemma touches_refl chatId (cs : gmap Z ChatState) : touches chatId cs cs.
Proof. by left. Qed.

Lemma touches_insert chatId (cs : gmap Z ChatState) st :
  touches chatId cs (<[chatId := st]> cs).
Proof. right. by exists st. Qed.

Lemma touches_trans chatId (cs1 cs2 cs3 : gmap Z ChatState) :
  touches chatId cs1 cs2 -> touches chatId cs2 cs3 -> touches chatId cs1 cs3.
Proof.
  intros [-> | [st ->]] [-> | [st' ->]].
  - by left.
  - right. by exists st'.
  - right. by exists st.
  - right. exists st'. by rewrite insert_insert_eq.
Qed.

Lemma touches_other chatId (cs cs' : gmap Z ChatState) other :
  touches chatId cs cs' -> other <> chatId -> cs' !! other = cs !! other.
Proof.
  intros [-> | [st ->]] Hne; [done|]. by rewrite lookup_insert_ne.
Qed.


Lemma startSession_touches cfg env (cs : gmap Z ChatState) chatId
    directory m :
  touches chatId cs (startSession cfg env cs chatId directory m).1.1.
Proof.
  destruct (startSession_inserts cfg env cs chatId directory m) as [st ->].
  apply touches_insert.
Qed.

Lemma dispatchPrompt_touches env (cs : gmap Z ChatState) msg :
  touches (msg_chat_id msg) cs (dispatchPrompt env cs msg).1.
Proof.
  unfold dispatchPrompt. cbv zeta.
  repeat match goal with
         | |- context [match ?x with _ => _ end] => destruct x
         end;
    cbn [fst snd]; (apply touches_refl || apply touches_insert).
Qed.

Lemma onMessage_touches cfg env (cs : gmap Z ChatState) msg :
  touches (msg_chat_id msg) cs (onMessage cfg env cs msg).1.
Proof.
  unfold onMessage. destruct (negb _); [apply touches_refl|].
  destruct (hasPhoto msg || isImageDocument msg);
    [|apply dispatchPrompt_touches].
  destruct (storeAttachment_shape cfg env cs msg) as (imgs & effs & -> & _).
  pose proof (dispatchPrompt_touches env
                (<[msg_chat_id msg :=
                     set_images imgs
                       (default (freshState (defaultModel cfg)
                                   (pickSessionEmoji cs (rndOnImage env)))
                                (cs !! msg_chat_id msg))]> cs) msg) as H.
  destruct (dispatchPrompt env _ msg) as [cs2 e2]. cbn [fst snd] in *.
  eapply touches_trans; [apply touches_insert | exact H].
Qed.

Lemma handleSessionIdle_touches out (cs : gmap Z ChatState) chatId :
  touches chatId cs (handleSessionIdle out cs chatId).1.
Proof.
  unfold handleSessionIdle.
  destruct (cs !! chatId) as [st|]; [|apply touches_refl].
  repeat match goal with
         | |- context [match ?x with _ => _ end] => destruct x
         end;
    cbn [fst snd]; apply touches_insert.
Qed.

Lemma onReset_touches cfg env (cs : gmap Z ChatState) chatId :
  touches chatId cs (onReset cfg env cs chatId).1.
Proof.
  unfold onReset. destruct (negb _); [apply touches_refl|].
  destruct (cs !! chatId) as [st|]; [|apply touches_refl].
  destruct (session st) as [s|]; [|apply touches_refl]. cbv zeta.
  destruct (truthy (dir st)); [|apply touches_insert].
  match goal with
  | |- context [startSession ?a ?b ?c ?d ?e ?f] =>
      pose proof (startSession_touches a b c d e f) as H;
      destruct (startSession a b c d e f) as [[cs' effs] completion]
  end.
  cbn [fst snd] in H.
  assert (touches chatId cs cs')
    by (eapply touches_trans; [apply touches_insert | exact H]).
  by destruct completion.
Qed.

Lemma onResetButton_touches cfg env (cs : gmap Z ChatState) chatId :
  touches chatId cs (onResetButton cfg env cs chatId).1.
Proof.
  unfold onResetButton.
  destruct (cs !! chatId) as [st|]; [|apply touches_refl].
  destruct (session st) as [s|]; [|apply touches_refl].
  destruct (truthy (dir st)); [|apply touches_refl]. cbv zeta.
  destruct (buttonDestroyOutcome env); [|apply touches_insert].
  match goal with
  | |- context [startSession ?a ?b ?c ?d ?e ?f] =>
      pose proof (startSession_touches a b c d e f) as H;
      destruct (startSession a b c d e f) as [[cs' effs] completion]
  end.
  cbn [fst snd] in H.
  assert (H1 : touches chatId cs cs')
    by (eapply touches_trans; [apply touches_insert | exact H]).
  assert (H2 : touches chatId cs
                 match cs' !! chatId with
                 | Some st1 => <[chatId := set_resetting false st1]> cs'
                 | None => cs'
                 end).
  { destruct (cs' !! chatId); [|done].
    eapply touches_trans; [exact H1 | apply touches_insert]. }
  by destruct completion.
Qed.

Lemma handleAssistantMessage_touches (cs : gmap Z ChatState) chatId content :
  touches chatId cs (handleAssistantMessage cs chatId content).1.
Proof.
  unfold handleAssistantMessage.
  destruct (cs !! chatId) as [st|]; [|apply touches_refl]. cbv zeta.
  destruct (_ && _); apply touches_insert.
Qed.

Lemma touchesExtra_other chatId (xs xs' : gmap Z Extra) other :
  touchesExtra chatId xs xs' -> other <> chatId ->
  xs' !! other = xs !! other.
Proof.
  intros [-> | [x ->]] Hne; [done|]. by rewrite lookup_insert_ne.
Qed.

End FrameSpec.

(** ** Directories: from the keyboard to the session *)

Module DirsSpec.
Import Utils Index JsLib UtilsRest Commands Handlers Fixtures Scenario.
Import UtilsMoreSpec ParseSpec StartSpec ResetSpec StartMoreSpec RecentSpec.





(** Chat 1 asks for the directories and presses the second button: its
    session starts in /srv/web, though by then the first directory has
    gone from the configuration. *)
Example second_button :
  let shown := onDirs cfg lastSegment queryOk ∅ ∅ 1 in
  let later :=
    {| dirsOnDisk := [lit "/srv/web"]; resetEnv := resetOk |} in
  dir <$> (onSetDir cfg lastSegment later shown.1.1 shown.1.2 1
                    (lit "set_dir:1")).1.1 !! 1
  = Some (Some (lit "/srv/web")).
Proof. vm_compute. reflexivity. Qed.

End DirsSpec.

(** ** Models: the command and the button *)

Module ModelSpec.
Import Utils Index JsLib UtilsRest Commands Handlers Fixtures Scenario.
Import UtilsMoreSpec ParseSpec StartSpec ResetSpec StartMoreSpec RecentSpec.

Lemma onModel_cases cfg (models : list jsstring) env
    (cs : gmap Z ChatState) (xs : gmap Z Extra) chatId
    (indexStr : option jsstring) :
  let r := parseModelIndex indexStr (Z.of_nat (length models)) in
  let command := onModel cfg models env cs xs chatId indexStr in
  isOwner cfg chatId = true -> truthy indexStr = true ->
  if r =? -1 then command = (cs, xs, [Send chatId TxtBadModel []])
  else
    0 <= r < Z.of_nat (length models)
    /\ command.1
       = (onSetModel cfg models env cs xs chatId
                     (lit "set_model:" ++ ofNat (Z.to_nat r))).1.
Proof.
  intros r command Hown Ht. subst r command.
  unfold parseModelIndex, onModel. rewrite Hown, Ht. simpl negb. cbv iota zeta.
  destruct (isNaN (minus (parseInt10 (default [] indexStr)) 1)
            || lessThan (minus (parseInt10 (default [] indexStr)) 1) 0
            || atLeast (minus (parseInt10 (default [] indexStr)) 1)
                       (Z.of_nat (length models))) eqn:Htests; [done|].
  apply orb_false_iff in Htests as [Htests E2].
  apply orb_false_iff in Htests as [_ E1].
  destruct (minus (parseInt10 (default [] indexStr)) 1) as [|neg|i];
    [done | done |].
  simpl in E1, E2.
  destruct (i =? -1) eqn:E3; [zbool|].
  assert (Hrange : 0 <= i < Z.of_nat (length models)) by zbool.
  split; [exact Hrange|].
  unfold onSetModel.
  rewrite replaceFirst_prefix, app_nil_l, mathInt10_ofNat. cbv zeta.
  rewrite Z2Nat.id by lia. rewrite E1, E2. simpl orb. cbv iota.
  destruct (models !! Z.to_nat i) as [m|]; [|done].
  destruct (cs !! chatId) as [st|]; [|done].
  destruct (session (set_model m st)); [|done].
  destruct (truthy (dir (set_model m st))); [|done].
  by destruct (startSession _ _ _ _ _ _) as [[cs' effs] [|err]].
Qed.





End ModelSpec.

(** ** What holds between any two handlers *)

Module RunSpec.
Import Utils Index JsLib UtilsRest Commands Handlers Fixtures Scenario.
Import UtilsMoreSpec ParseSpec StartSpec MessageSpec ResetSpec InvariantSpec.
Import StartMoreSpec RecentSpec FrameSpec ModelSpec.

Lemma touchesExtra_refl chatId (xs : gmap Z Extra) : touchesExtra chatId xs xs.
Proof. by left. Qed.

Lemma touchesExtra_insert chatId (xs : gmap Z Extra) x :
  touchesExtra chatId xs (<[chatId := x]> xs).
Proof. right. by exists x. Qed.

(** *** Sessions and clients go together *)









(** *** The fields beside the states *)


(** *** Each handler keeps the invariant and stays in its chat *)









(** *** The handlers of this part stay in their chat *)

Lemma showDirs_frame cfg basename env (cs : gmap Z ChatState)
    (xs : gmap Z Extra) chatId :
  touches chatId cs (showDirs cfg basename env cs xs chatId).1.1
  /\ touchesExtra chatId xs (showDirs cfg basename env cs xs chatId).1.2.
Proof.
  unfold showDirs. cbv zeta.
  destruct (dirsOnDisk env) as [|d ds]; cbn [fst snd].
  - split; [apply touches_refl | apply touchesExtra_refl].
  - split; [|apply touchesExtra_insert].
    destruct (cs !! chatId); [apply touches_refl | apply touches_insert].
Qed.

Lemma onSetModel_frame cfg models env (cs : gmap Z ChatState)
    (xs : gmap Z Extra) chatId data :
  touches chatId cs (onSetModel cfg models env cs xs chatId data).1.1
  /\ touchesExtra chatId xs
       (onSetModel cfg models env cs xs chatId data).1.2.
Proof.
  assert (Hsame : touches chatId cs cs /\ touchesExtra chatId xs xs).
  { split; [apply touches_refl | apply touchesExtra_refl]. }
  unfold onSetModel. cbv zeta.
  destruct (mathInt10 _) as [index|]; [|done].
  destruct ((index <? 0) || _); [done|].
  destruct (models !! Z.to_nat index) as [m|]; [|done].
  destruct (cs !! chatId) as [st|] eqn:Hst.
  - set (xs1 := if truthy (Some (model st))
                   && negb (bool_decide (model st = m))
                then <[chatId := addToRecentModels (extraOf xs chatId)
                                                  (model st)]> xs
                else xs).
    assert (Hxs : touchesExtra chatId xs xs1).
    { subst xs1. destruct (_ && _);
        [apply touchesExtra_insert | apply touchesExtra_refl]. }
    destruct (session (set_model m st)) as [s|];
      [destruct (truthy (dir (set_model m st)))|].
    + pose proof (startSession_touches cfg (startEnv (resetEnv env))
                    (<[chatId := set_model m st]> cs) chatId
                    (default [] (dir (set_model m st))) (Some m)) as Ht.
      assert (Ht2 : touches chatId cs
                (startSession cfg (startEnv (resetEnv env))
                   (<[chatId := set_model m st]> cs) chatId
                   (default [] (dir (set_model m st))) (Some m)).1.1)
        by (eapply touches_trans; [apply touches_insert | exact Ht]).
      destruct (startSession _ _ _ _ _ _) as [[cs' effs] [|err]];
        cbn [fst snd] in *; done.
    + cbn [fst snd]. split; [apply touches_insert | done].
    + cbn [fst snd]. split; [apply touches_insert | done].
  - cbn [fst snd]. split; [apply touches_insert | apply touchesExtra_refl].
Qed.

Lemma onModel_frame cfg models env (cs : gmap Z ChatState)
    (xs : gmap Z Extra) chatId indexStr :
  touches chatId cs (onModel cfg models env cs xs chatId indexStr).1.1
  /\ touchesExtra chatId xs
       (onModel cfg models env cs xs chatId indexStr).1.2.
Proof.
  assert (Hsame : touches chatId cs cs /\ touchesExtra chatId xs xs).
  { split; [apply touches_refl | apply touchesExtra_refl]. }
  destruct (isOwner cfg chatId) eqn:Hown;
    [|unfold onModel; by rewrite Hown].
  destruct (truthy indexStr) eqn:Ht;
    [|unfold onModel; by rewrite Hown, Ht].
  pose proof (onModel_cases cfg models env cs xs chatId indexStr Hown Ht)
    as Hcases. cbv zeta in Hcases.
  destruct (parseModelIndex indexStr (Z.of_nat (length models)) =? -1).
  - by rewrite Hcases.
  - destruct Hcases as [_ ->]. apply onSetModel_frame.
Qed.

Lemma onSetDir_frame cfg basename env (cs : gmap Z ChatState)
    (xs : gmap Z Extra) chatId data :
  touches chatId cs (onSetDir cfg basename env cs xs chatId data).1.1
  /\ touchesExtra chatId xs
       (onSetDir cfg basename env cs xs chatId data).1.2.
Proof.
  unfold onSetDir. cbv zeta.
  set (stored := match cs !! chatId with
                 | Some _ => availableDirs (extraOf xs chatId)
                 | None => None
                 end).
  set (fetched := match cs !! chatId with
                  | Some _ =>
                      <[chatId := set_availableDirs (Some (dirsOnDisk env))
                                                    (extraOf xs chatId)]> xs
                  | None => xs
                  end).
  assert (Hfetched : touchesExtra chatId xs fetched).
  { subst fetched. destruct (cs !! chatId);
      [apply touchesExtra_insert | apply touchesExtra_refl]. }
  assert (Hpair : exists dirs xs1,
            match stored with
            | Some (d :: ds) => (d :: ds, xs)
            | _ => (dirsOnDisk env, fetched)
            end = (dirs, xs1)
            /\ touchesExtra chatId xs xs1).
  { destruct stored as [[|d ds]|]; eexists _, _;
      (split; [reflexivity|]); try done. apply touchesExtra_refl. }
  destruct Hpair as (dirs & xs1 & -> & Hxs).
  assert (Hsame : touches chatId cs cs /\ touchesExtra chatId xs xs1).
  { split; [apply touches_refl | done]. }
  destruct dirs as [|d ds]; [done|].
  destruct (mathInt10 _) as [index|]; [|done].
  destruct ((index <? 0) || _); [done|].
  destruct ((d :: ds) !! Z.to_nat index) as [d'|]; [|done].
  pose proof (startSession_touches cfg (startEnv (resetEnv env)) cs chatId
                d' None) as Ht.
  destruct (startSession _ _ _ _ _ _) as [[cs' effs] [|err]];
    cbn [fst snd] in *; done.
Qed.

Lemma botStep_frame cfg basename models (cs cs' : gmap Z ChatState)
    (xs xs' : gmap Z Extra) input calls :
  botStep cfg basename models cs xs input = Some (cs', xs', calls) ->
  touches (chatOf input) cs cs' /\ touchesExtra (chatOf input) xs xs'.
Proof.
  assert (Hsame : forall k, touches k cs cs /\ touchesExtra k xs xs).
  { split; [apply touches_refl | apply touchesExtra_refl]. }
  destruct input as [env msg | env chatId | env chatId indexStr
                    | env chatId | env chatId data | out chatId
                    | chatId content]; simpl.
  - pose proof (onMessage_touches cfg env cs msg) as Ht.
    destruct (onMessage cfg env cs msg) as [cs1 effs].
    intros [= <- <- <-]. split; [done | apply touchesExtra_refl].
  - intros [= H]. unfold onDirs in H.
    destruct (negb _); [by injection H as <- <- <-|].
    pose proof (showDirs_frame cfg basename env cs xs chatId) as Ht.
    rewrite H in Ht. done.
  - intros [= H].
    pose proof (onModel_frame cfg models env cs xs chatId indexStr) as Ht.
    rewrite H in Ht. done.
  - pose proof (onReset_touches cfg env cs chatId) as Ht.
    destruct (onReset cfg env cs chatId) as [cs1 effs].
    intros [= <- <- <-]. split; [done | apply touchesExtra_refl].
  - unfold onCallbackQuery. cbv zeta.
    destruct (chatId =? 0); [by intros [= <- <- <-]|].
    destruct (negb _); [by intros [= <- <- <-]|].
    destruct (_ || _); [done|].
    destruct (bool_decide (data = Some (lit "cmd_dirs"))).
    { pose proof (showDirs_frame cfg basename env cs xs chatId) as Ht.
      destruct (showDirs cfg basename env cs xs chatId) as [[cs1 xs1] e1].
      by intros [= <- <- <-]. }
    destruct (bool_decide (data = Some (lit "cmd_status")));
      [by intros [= <- <- <-]|].
    destruct (bool_decide (data = Some (lit "cmd_help")));
      [by intros [= <- <- <-]|].
    destruct (bool_decide (data = Some (lit "cmd_model")));
      [by intros [= <- <- <-]|].
    destruct (bool_decide (data = Some (lit "cmd_reset"))).
    { pose proof (onResetButton_touches cfg (resetEnv env) cs chatId) as Ht.
      destruct (onResetButton cfg (resetEnv env) cs chatId) as [cs1 e1].
      intros [= <- <- <-]. split; [done | apply touchesExtra_refl]. }
    destruct (match data with Some d => startsWith d (lit "set_dir:")
                         | None => false end).
    { intros [= H].
      pose proof (onSetDir_frame cfg basename env cs xs chatId
                    (default [] data)) as Ht.
      rewrite H in Ht. done. }
    destruct (match data with Some d => startsWith d (lit "set_model:")
                         | None => false end).
    { intros [= H].
      pose proof (onSetModel_frame cfg models env cs xs chatId
                    (default [] data)) as Ht.
      rewrite H in Ht. done. }
    by intros [= <- <- <-].
  - pose proof (handleSessionIdle_touches out cs chatId) as Ht.
    destruct (handleSessionIdle out cs chatId) as [cs1 effs].
    intros [= <- <- <-]. split; [done | apply touchesExtra_refl].
  - pose proof (handleAssistantMessage_touches cs chatId content) as Ht.
    destruct (handleAssistantMessage cs chatId content) as [cs1 effs].
    intros [= <- <- <-]. split; [done | apply touchesExtra_refl].
Qed.

(** X23. A handler changes the state of the chat that its input belongs to,
    and of no other chat: whatever comes in for one chat, the state and
    the other fields of every other chat stay as they are. *)
Theorem handlers_stay_in_their_chat cfg basename models
    (cs cs' : gmap Z ChatState) (xs xs' : gmap Z Extra) input calls other :
  botStep cfg basename models cs xs input = Some (cs', xs', calls) ->
  other <> chatOf input ->
  cs' !! other = cs !! other /\ xs' !! other = xs !! other.
Proof.
  intros Hstep Hne.
  destruct (botStep_frame _ _ _ _ _ _ _ _ _ Hstep) as [Hcs Hxs].
  split; [by eapply touches_other | by eapply touchesExtra_other].
Qed.

Lemma handlers_stay_in_their_chat_witness :
  (onReset cfg resetOk (<[2 := state1]> busyQueued) 1).1 !! 2 = Some state1.
Proof.
  destruct (handlers_stay_in_their_chat cfg lastSegment availableModels
              (<[2 := state1]> busyQueued)
              (onReset cfg resetOk (<[2 := state1]> busyQueued) 1).1
              ∅ ∅ (InReset resetOk 1)
              (Core <$> (onReset cfg resetOk (<[2 := state1]> busyQueued)
                                 1).2) 2) as [H _].
  - simpl. by destruct (onReset cfg resetOk (<[2 := state1]> busyQueued) 1).
  - done.
  - rewrite H. by rewrite lookup_insert_eq.
Defined.

(** *** Every handler keeps the invariant *)





(** At the end of that day chat 1 has no session: the model command
    failed to restart it, and /reset then found nothing to reset.  Its
    model is the one last chosen, and the stranger has no state. *)
Example day1_end :
  match botRun cfgOwned lastSegment availableModels ∅ ∅ day1 with
  | Some (cs, xs, calls) =>
      (session <$> cs !! 1) = Some None
      /\ (model <$> cs !! 1) = Some (lit "claude-sonnet-4.5")
      /\ (dir <$> cs !! 1) = Some (Some (lit "/srv/web"))
      /\ cs !! 2 = None
      /\ (recentModels <$> xs !! 1)
         = Some (Some [lit "gpt-4.1"; lit "gpt-5-mini"])
      /\ last calls
         = Some [Core (BotSendMessage 1 TxtResetNoSession)]
  | None => False
  end.
Proof. vm_compute. repeat split; reflexivity. Qed.

(** *** Who is not served *)

(** X25. Nothing that comes in for a chat that the bot does not serve
    changes anything: every state and every other field stays as it is,
    no call is made to the Copilot SDK, and the only answer is the
    refusal, after the acknowledgement of a button. *)
Theorem strangers_change_nothing cfg basename models
    (cs : gmap Z ChatState) (xs : gmap Z Extra) input :
  servedOnly cfg cs ->
  isOwner cfg (chatOf input) = false ->
  exists calls,
    botStep cfg basename models cs xs input = Some (cs, xs, calls)
    /\ Forall (fun c => c = Core BotAnswerCallbackQuery
                        \/ c = Core (BotSendMessage (chatOf input)
                                                    TxtNotOwner))
              calls.
Proof.
  intros Hserved Hown.
  assert (Hnone : cs !! chatOf input = None).
  { destruct (cs !! chatOf input) as [st|] eqn:Hst; [|done].
    pose proof (Hserved _ _ Hst) as H. by rewrite H in Hown. }
  destruct input as [env msg | env chatId | env chatId indexStr
                    | env chatId | env chatId data | out chatId
                    | chatId content]; simpl in *.
  - unfold onMessage. rewrite Hown. simpl.
    eexists. split; [reflexivity|]. constructor; [by right | constructor].
  - unfold onDirs. rewrite Hown. simpl.
    eexists. split; [reflexivity|]. constructor; [by right | constructor].
  - unfold onModel. rewrite Hown. simpl.
    eexists. split; [reflexivity|]. constructor; [by right | constructor].
  - unfold onReset. rewrite Hown. simpl.
    eexists. split; [reflexivity|]. constructor; [by right | constructor].
  - unfold onCallbackQuery. rewrite Hown. simpl.
    destruct (chatId =? 0);
      (eexists; split; [reflexivity|]); [constructor|].
    constructor; [by left|]. constructor; [by right | constructor].
  - unfold handleSessionIdle. rewrite Hnone. simpl.
    eexists. split; [reflexivity | constructor].
  - unfold handleAssistantMessage. rewrite Hnone.
    eexists. split; [reflexivity | constructor].
Qed.

Lemma strangers_change_nothing_witness :
  exists calls,
    botStep cfgOwned lastSegment availableModels started1 ∅
            (InCallback queryOk 2 (Some (lit "set_dir:0")))
    = Some (started1, ∅, calls)
    /\ Forall (fun c => c = Core BotAnswerCallbackQuery
                        \/ c = Core (BotSendMessage 2 TxtNotOwner))
              calls.
Proof.
  apply (strangers_change_nothing cfgOwned lastSegment availableModels
           started1 ∅ (InCallback queryOk 2 (Some (lit "set_dir:0")))).
  - intros k st Hk.
    destruct (decide (k = 1)) as [-> | Hne]; [done|].
    exfalso. revert Hk. unfold started1.
    destruct (startSession_inserts cfg startOk ∅ 1 (lit "/w")
                (Some (lit "m"))) as [final ->].
    by rewrite lookup_insert_ne, lookup_empty.
  - reflexivity.
Defined.

End RunSpec.

(** ** Reference images are never forgotten *)

Module ImagesSpec.
Import Utils Index JsLib UtilsRest Commands Handlers Fixtures Scenario.
Import StartSpec MessageSpec ResetSpec StartMoreSpec FrameSpec ModelSpec.

Lemma imagesGrow_refl (cs : gmap Z ChatState) : imagesGrow cs cs.
Proof. intros k st Hst. by exists st. Qed.

Lemma imagesGrow_trans (cs1 cs2 cs3 : gmap Z ChatState) :
  imagesGrow cs1 cs2 -> imagesGrow cs2 cs3 -> imagesGrow cs1 cs3.
Proof.
  intros H12 H23 k st Hst.
  destruct (H12 k st Hst) as (st2 & Hst2 & Hp2).
  destruct (H23 k st2 Hst2) as (st3 & Hst3 & Hp3).
  exists st3. split; [done|]. by etrans.
Qed.

Lemma imagesGrow_insert (cs : gmap Z ChatState) chatId st' :
  (forall st, cs !! chatId = Some st ->
              default [] (images st) `prefix_of` default [] (images st')) ->
  imagesGrow cs (<[chatId := st']> cs).
Proof.
  intros H k st Hst. destruct (decide (k = chatId)) as [-> | Hne].
  - exists st'. rewrite lookup_insert_eq. split; [done | by apply H].
  - exists st. by rewrite lookup_insert_ne.
Qed.

Lemma imagesGrow_same (cs : gmap Z ChatState) chatId st st' :
  cs !! chatId = Some st -> images st' = images st ->
  imagesGrow cs (<[chatId := st']> cs).
Proof.
  intros Hst Hi. apply imagesGrow_insert. intros st0 Hst0.
  rewrite Hst in Hst0. injection Hst0 as <-. by rewrite Hi.
Qed.

Lemma imagesGrow_new (cs : gmap Z ChatState) chatId st' :
  cs !! chatId = None -> imagesGrow cs (<[chatId := st']> cs).
Proof.
  intros Hnone. apply imagesGrow_insert. intros st Hst. by rewrite Hnone in Hst.
Qed.

Lemma startSession_images cfg env (cs : gmap Z ChatState) chatId directory
    m :
  imagesGrow cs (startSession cfg env cs chatId directory m).1.1.
Proof.
  assert (Hkept : forall st st0,
            cs !! chatId = Some st ->
            ensureState cfg (rndOnCreate env) cs chatId m !! chatId
            = Some st0 ->
            images (teardown st0).1 = images st).
  { intros st st0 Hst Hst0. rewrite ensureState_lookup, Hst in Hst0.
    injection Hst0 as <-. rewrite teardown_state.
    by destruct (truthy m), st. }
  destruct (startSession cfg env cs chatId directory m).2 as [|err] eqn:E.
  - destruct (startSession_returned _ _ _ _ _ _ E) as (st0 & s & Hst0 & _ & ->).
    rewrite insert_insert_eq, ensureState_insert.
    apply imagesGrow_insert. intros st Hst.
    match goal with
    | |- context [storeSession ?a ?b ?c ?d ?e ?f ?g] =>
        destruct (storeSession_keeps a b c d e f g) as (_ & -> & _)
    end.
    by rewrite (Hkept st st0 Hst Hst0).
  - destruct (startSession_thrown _ _ _ _ _ _ _ E) as (st0 & Hst0 & ->).
    rewrite ensureState_insert. apply imagesGrow_insert. intros st Hst.
    by rewrite (Hkept st st0 Hst Hst0).
Qed.

Lemma dispatchPrompt_images env (cs : gmap Z ChatState) msg :
  imagesGrow cs (dispatchPrompt env cs msg).1.
Proof.
  unfold dispatchPrompt. cbv zeta.
  destruct (negb _); [apply imagesGrow_refl|].
  destruct (startsWith _ _); [apply imagesGrow_refl|].
  destruct (cs !! msg_chat_id msg) as [st|] eqn:Hst; [|apply imagesGrow_refl].
  destruct (session st) as [s|]; [|apply imagesGrow_refl].
  destruct (truthy (dir st)); [|apply imagesGrow_refl].
  destruct (resetting st); [apply imagesGrow_refl|].
  destruct (busy st); [|destruct (sendOutcome env)]; cbn [fst snd];
    apply (imagesGrow_same cs _ st); try done; by destruct st.
Qed.

Lemma storeAttachment_images cfg env (cs : gmap Z ChatState) msg :
  imagesGrow cs (storeAttachment cfg env cs msg).1.
Proof.
  unfold storeAttachment. cbv zeta.
  set (cs1 := match cs !! msg_chat_id msg with
              | Some _ => cs
              | None => <[msg_chat_id msg :=
                            freshState (defaultModel cfg)
                              (pickSessionEmoji cs (rndOnImage env))]> cs
              end).
  assert (H1 : imagesGrow cs cs1).
  { subst cs1. destruct (cs !! msg_chat_id msg) eqn:E;
      [apply imagesGrow_refl | by apply imagesGrow_new]. }
  destruct (cs1 !! msg_chat_id msg) as [st|] eqn:Hst; [|done].
  destruct (attachedFileId msg) as [fileId|]; [|done].
  destruct (getFile env fileId) as [filePath | err]; [|done].
  cbn [fst snd]. eapply imagesGrow_trans; [exact H1|].
  apply imagesGrow_insert. intros st0 Hst0.
  rewrite Hst in Hst0. injection Hst0 as <-.
  destruct st. simpl. by apply prefix_app_r.
Qed.

Lemma onMessage_images cfg env (cs : gmap Z ChatState) msg :
  imagesGrow cs (onMessage cfg env cs msg).1.
Proof.
  unfold onMessage. destruct (negb _); [apply imagesGrow_refl|].
  destruct (hasPhoto msg || isImageDocument msg);
    [|apply dispatchPrompt_images].
  pose proof (storeAttachment_images cfg env cs msg) as H1.
  destruct (storeAttachment cfg env cs msg) as [cs1 e1].
  pose proof (dispatchPrompt_images env cs1 msg) as H2.
  destruct (dispatchPrompt env cs1 msg) as [cs2 e2].
  by eapply imagesGrow_trans.
Qed.

Lemma handleSessionIdle_images out (cs : gmap Z ChatState) chatId :
  imagesGrow cs (handleSessionIdle out cs chatId).1.
Proof.
  unfold handleSessionIdle.
  destruct (cs !! chatId) as [st|] eqn:Hst; [|apply imagesGrow_refl].
  assert (Hgo : forall st', images st' = images st ->
                            imagesGrow cs (<[chatId := st']> cs))
    by (intros st' Hi; by apply (imagesGrow_same cs chatId st)).
  destruct st as [c s d m b q r i e cp af pc eq pe om tc]. simpl in *.
  destruct q as [|p rest]; simpl.
  - destruct (default false af); simpl; by apply Hgo.
  - destruct p as [|u p]; simpl; [by apply Hgo|].
    destruct s as [s|]; simpl; [destruct out; simpl|]; by apply Hgo.
Qed.

Lemma handleAssistantMessage_images (cs : gmap Z ChatState) chatId content :
  imagesGrow cs (handleAssistantMessage cs chatId content).1.
Proof.
  unfold handleAssistantMessage.
  destruct (cs !! chatId) as [st|] eqn:Hst; [|apply imagesGrow_refl].
  cbv zeta. destruct (_ && _); cbn [fst snd];
    apply (imagesGrow_same cs chatId st); try done; by destruct st.
Qed.

Lemma onReset_images cfg env (cs : gmap Z ChatState) chatId :
  imagesGrow cs (onReset cfg env cs chatId).1.
Proof.
  unfold onReset. destruct (negb _); [apply imagesGrow_refl|].
  destruct (cs !! chatId) as [st|] eqn:Hst; [|apply imagesGrow_refl].
  destruct (session st) as [s|]; [|apply imagesGrow_refl]. cbv zeta.
  fold (resetPrepared st).
  assert (H1 : imagesGrow cs (<[chatId := resetPrepared st]> cs))
    by (apply (imagesGrow_same cs chatId st); [done | by destruct st]).
  destruct (truthy (dir st)); [|done].
  pose proof (startSession_images cfg (startEnv env)
                (<[chatId := resetPrepared st]> cs) chatId
                (default [] (dir st)) (Some (model st))) as H2.
  destruct (startSession _ _ _ _ _ _) as [[cs' effs] [|err]];
    cbn [fst snd] in *; by eapply imagesGrow_trans.
Qed.

Lemma onResetButton_images cfg env (cs : gmap Z ChatState) chatId :
  imagesGrow cs (onResetButton cfg env cs chatId).1.
Proof.
  unfold onResetButton.
  destruct (cs !! chatId) as [st|] eqn:Hst; [|apply imagesGrow_refl].
  destruct (session st) as [s|]; [|apply imagesGrow_refl].
  destruct (truthy (dir st)); [|apply imagesGrow_refl]. cbv zeta.
  destruct (buttonDestroyOutcome env) as [|err].
  - match goal with
    | |- context [startSession ?a ?b (<[chatId := ?st2]> cs) ?d ?e ?f] =>
        assert (H1 : imagesGrow cs (<[chatId := st2]> cs))
          by (apply (imagesGrow_same cs chatId st); [done | by destruct st]);
        pose proof (startSession_images a b (<[chatId := st2]> cs) d e f)
          as H2;
        destruct (startSession a b (<[chatId := st2]> cs) d e f)
          as [[cs' effs] completion]
    end.
    cbn [fst snd] in H2.
    assert (H3 : imagesGrow cs cs') by (by eapply imagesGrow_trans).
    assert (H4 : imagesGrow cs
                   match cs' !! chatId with
                   | Some st1 => <[chatId := set_resetting false st1]> cs'
                   | None => cs'
                   end).
    { destruct (cs' !! chatId) as [st1|] eqn:Hst1; [|done].
      eapply imagesGrow_trans; [exact H3|].
      apply (imagesGrow_same cs' chatId st1); [done | by destruct st1]. }
    by destruct completion.
  - cbn [fst snd]. apply (imagesGrow_same cs chatId st); [done|].
    by destruct st.
Qed.

Lemma showDirs_images cfg basename env (cs : gmap Z ChatState)
    (xs : gmap Z Extra) chatId :
  imagesGrow cs (showDirs cfg basename env cs xs chatId).1.1.
Proof.
  unfold showDirs. cbv zeta.
  destruct (dirsOnDisk env) as [|d ds]; cbn [fst snd];
    [apply imagesGrow_refl|].
  destruct (cs !! chatId) eqn:E;
    [apply imagesGrow_refl | by apply imagesGrow_new].
Qed.

Lemma onSetModel_images cfg models env (cs : gmap Z ChatState)
    (xs : gmap Z Extra) chatId data :
  imagesGrow cs (onSetModel cfg models env cs xs chatId data).1.1.
Proof.
  unfold onSetModel. cbv zeta.
  destruct (mathInt10 _) as [index|]; [|apply imagesGrow_refl].
  destruct ((index <? 0) || _); [apply imagesGrow_refl|].
  destruct (models !! Z.to_nat index) as [m|]; [|apply imagesGrow_refl].
  destruct (cs !! chatId) as [st|] eqn:Hst;
    [|cbn [fst snd]; by apply imagesGrow_new].
  assert (H1 : imagesGrow cs (<[chatId := set_model m st]> cs))
    by (apply (imagesGrow_same cs chatId st); [done | by destruct st]).
  destruct (session (set_model m st)) as [s|];
    [destruct (truthy (dir (set_model m st)))|]; try done.
  pose proof (startSession_images cfg (startEnv (resetEnv env))
                (<[chatId := set_model m st]> cs) chatId
                (default [] (dir (set_model m st))) (Some m)) as H2.
  destruct (startSession _ _ _ _ _ _) as [[cs' effs] [|err]];
    cbn [fst snd] in *; by eapply imagesGrow_trans.
Qed.

Lemma onModel_images cfg models env (cs : gmap Z ChatState)
    (xs : gmap Z Extra) chatId indexStr :
  imagesGrow cs (onModel cfg models env cs xs chatId indexStr).1.1.
Proof.
  destruct (isOwner cfg chatId) eqn:Hown;
    [|unfold onModel; rewrite Hown; apply imagesGrow_refl].
  destruct (truthy indexStr) eqn:Ht;
    [|unfold onModel; rewrite Hown, Ht; apply imagesGrow_refl].
  pose proof (onModel_cases cfg models env cs xs chatId indexStr Hown Ht)
    as Hcases. cbv zeta in Hcases.
  destruct (parseModelIndex indexStr (Z.of_nat (length models)) =? -1).
  - rewrite Hcases. apply imagesGrow_refl.
  - destruct Hcases as [_ ->]. apply onSetModel_images.
Qed.

Lemma onSetDir_images cfg basename env (cs : gmap Z ChatState)
    (xs : gmap Z Extra) chatId data :
  imagesGrow cs (onSetDir cfg basename env cs xs chatId data).1.1.
Proof.
  unfold onSetDir. cbv zeta.
  destruct (match match cs !! chatId with
                  | Some _ => availableDirs (extraOf xs chatId)
                  | None => None
                  end with
            | Some (d :: ds) => (d :: ds, xs)
            | _ => _
            end) as [dirs xs1].
  destruct dirs as [|d ds]; [apply imagesGrow_refl|].
  destruct (mathInt10 _) as [index|]; [|apply imagesGrow_refl].
  destruct ((index <? 0) || _); [apply imagesGrow_refl|].
  destruct ((d :: ds) !! Z.to_nat index) as [d'|]; [|apply imagesGrow_refl].
  pose proof (startSession_images cfg (startEnv (resetEnv env)) cs chatId
                d' None) as H.
  destruct (startSession _ _ _ _ _ _) as [[cs' effs] [|err]];
    cbn [fst snd] in *; done.
Qed.

Lemma botStep_images cfg basename models (cs cs' : gmap Z ChatState)
    (xs xs' : gmap Z Extra) input calls :
  botStep cfg basename models cs xs input = Some (cs', xs', calls) ->
  imagesGrow cs cs'.
Proof.
  destruct input as [env msg | env chatId | env chatId indexStr
                    | env chatId | env chatId data | out chatId
                    | chatId content]; simpl.
  - pose proof (onMessage_images cfg env cs msg) as H.
    destruct (onMessage cfg env cs msg) as [cs1 effs].
    by intros [= <- <- <-].
  - intros [= H]. unfold onDirs in H.
    destruct (negb _); [injection H as <- <- <-; apply imagesGrow_refl|].
    pose proof (showDirs_images cfg basename env cs xs chatId) as Hi.
    by rewrite H in Hi.
  - intros [= H].
    pose proof (onModel_images cfg models env cs xs chatId indexStr) as Hi.
    by rewrite H in Hi.
  - pose proof (onReset_images cfg env cs chatId) as H.
    destruct (onReset cfg env cs chatId) as [cs1 effs].
    by intros [= <- <- <-].
  - unfold onCallbackQuery. cbv zeta.
    destruct (chatId =? 0); [intros [= <- <- <-]; apply imagesGrow_refl|].
    destruct (negb _); [intros [= <- <- <-]; apply imagesGrow_refl|].
    destruct (_ || _); [done|].
    destruct (bool_decide (data = Some (lit "cmd_dirs"))).
    { pose proof (showDirs_images cfg basename env cs xs chatId) as Hi.
      destruct (showDirs cfg basename env cs xs chatId) as [[cs1 xs1] e1].
      by intros [= <- <- <-]. }
    destruct (bool_decide (data = Some (lit "cmd_status")));
      [intros [= <- <- <-]; apply imagesGrow_refl|].
    destruct (bool_decide (data = Some (lit "cmd_help")));
      [intros [= <- <- <-]; apply imagesGrow_refl|].
    destruct (bool_decide (data = Some (lit "cmd_model")));
      [intros [= <- <- <-]; apply imagesGrow_refl|].
    destruct (bool_decide (data = Some (lit "cmd_reset"))).
    { pose proof (onResetButton_images cfg (resetEnv env) cs chatId) as Hi.
      destruct (onResetButton cfg (resetEnv env) cs chatId) as [cs1 e1].
      by intros [= <- <- <-]. }
    destruct (match data with Some d => startsWith d (lit "set_dir:")
                         | None => false end).
    { intros [= H].
      pose proof (onSetDir_images cfg basename env cs xs chatId
                    (default [] data)) as Hi.
      by rewrite H in Hi. }
    destruct (match data with Some d => startsWith d (lit "set_model:")
                         | None => false end).
    { intros [= H].
      pose proof (onSetModel_images cfg models env cs xs chatId
                    (default [] data)) as Hi.
      by rewrite H in Hi. }
    intros [= <- <- <-]. apply imagesGrow_refl.
  - pose proof (handleSessionIdle_images out cs chatId) as H.
    destruct (handleSessionIdle out cs chatId) as [cs1 effs].
    by intros [= <- <- <-].
  - pose proof (handleAssistantMessage_images cs chatId content) as H.
    destruct (handleAssistantMessage cs chatId content) as [cs1 effs].
    by intros [= <- <- <-].
Qed.

(** X26. No handler removes the state of a chat, and none forgets a
    reference image: whatever the bot handles after an image was
    stored, a reset, a new directory or another model included, the
    images kept for the chat still start with the images it had. *)
Theorem images_are_never_dropped cfg basename models
    (inputs : list BotInput) (cs cs' : gmap Z ChatState)
    (xs xs' : gmap Z Extra) calls chatId st :
  botRun cfg basename models cs xs inputs = Some (cs', xs', calls) ->
  cs !! chatId = Some st ->
  exists st',
    cs' !! chatId = Some st'
    /\ default [] (images st) `prefix_of` default [] (images st').
Proof.
  revert cs xs cs' xs' calls st.
  induction inputs as [|input rest IH]; intros cs xs cs' xs' calls st; simpl.
  - intros [= <- <- <-] Hst. by exists st.
  - destruct (botStep cfg basename models cs xs input)
      as [[[cs1 xs1] c1]|] eqn:Hstep; [|done].
    destruct (botRun cfg basename models cs1 xs1 rest)
      as [[[cs2 xs2] c2]|] eqn:Hrun; [|done].
    intros [= <- <- <-] Hst.
    destruct (botStep_images _ _ _ _ _ _ _ _ _ Hstep chatId st Hst)
      as (st1 & Hst1 & Hp1).
    destruct (IH _ _ _ _ _ _ Hrun Hst1) as (st2 & Hst2 & Hp2).
    exists st2. split; [done | by etrans].
Qed.

Lemma images_are_never_dropped_witness :
  exists (cs' : gmap Z ChatState) (xs' : gmap Z Extra) calls st st',
    botRun cfg lastSegment availableModels afterPhoto ∅ afterwards
    = Some (cs', xs', calls)
    /\ afterPhoto !! 1 = Some st
    /\ cs' !! 1 = Some st'
    /\ default [] (images st) `prefix_of` default [] (images st').
Proof.
  destruct (botRun cfg lastSegment availableModels afterPhoto ∅ afterwards)
    as [[[cs' xs'] calls]|] eqn:Hrun;
    [|exfalso; vm_compute in Hrun; discriminate Hrun].
  destruct (afterPhoto !! 1) as [st|] eqn:Hst;
    [|exfalso; vm_compute in Hst; discriminate Hst].
  destruct (images_are_never_dropped cfg lastSegment availableModels
              afterwards afterPhoto cs' ∅ xs' calls 1 st Hrun Hst)
    as (st' & Hst' & Hprefix).
  by exists cs', xs', calls, st, st'.
Defined.

(** The photo of chat 1 is still its reference image after the reset,
    the new directory and the new model. *)
Example photo_survives :
  match botRun cfg lastSegment availableModels afterPhoto ∅ afterwards with
  | Some (cs', _, _) =>
      (images <$> cs' !! 1)
      = Some (Some [lit "https://api.telegram.org/file/botTOKEN/photos/file_1.jpg"])
      /\ (dir <$> cs' !! 1) = Some (Some (lit "/srv/app"))
      /\ (model <$> cs' !! 1) = Some (lit "claude-sonnet-4")
  | None => False
  end.
Proof. vm_compute. repeat split; reflexivity. Qed.

End ImagesSpec.

(** ** The handlers alone

    The handlers of [Index] are the handlers of [Async] run alone, with
    the answers of their environments and every message to Telegram
    delivered. *)

(** The conjuncts of a goal, one by one. *)
Ltac conjuncts := repeat match goal with |- _ /\ _ => split end.

Module AloneSpec.
Import Utils Index Async.

Lemma advance_modify chatId f next (cs : gmap Z ChatState) :
  advance (modify chatId f next) cs
  = advance next (match cs !! chatId with
                  | Some st => <[chatId := f st]> cs
                  | None => cs
                  end).
Proof. unfold modify. simpl. by destruct (cs !! chatId). Qed.

Lemma alone_modify o chatId f next (cs : gmap Z ChatState) :
  alone o (modify chatId f next) cs
  = alone o next (match cs !! chatId with
                  | Some st => <[chatId := f st]> cs
                  | None => cs
                  end).
Proof. unfold modify. simpl. by destruct (cs !! chatId). Qed.

Lemma alone_await o e onResolve onReject (cs : gmap Z ChatState) :
  alone o (await e onResolve onReject) cs
  = let '(cs', effs, c) :=
      alone o match answerCall o e with
              | Resolves => onResolve
              | Rejects err => onReject err
              end cs in
    (cs', e :: effs, c).
Proof. reflexivity. Qed.

Lemma teardown_cases st :
  teardown st
  = (match session st, client st with
     | Some _, Some _ => set_client None (set_session None st)
     | Some _, None => set_session None st
     | None, Some _ => set_client None st
     | None, None => st
     end,
     match session st with Some s => [SessionDestroy s] | None => [] end
     ++ match client st with Some c => [ClientStop c] | None => [] end).
Proof.
  unfold teardown.
  destruct st as [c s d m b q r i e cp af pc eq pe om tc].
  destruct s, c; reflexivity.
Qed.

Ltac finish_alone :=
  simpl;
  match goal with
  | |- context [alone ?o ?t ?cs] =>
      destruct (alone o t cs) as [[? ?] ?]; reflexivity
  end.

Lemma alone_startSession o cfg env chatId directory model onReturn onThrow
    (cs : gmap Z ChatState) :
  answerCall o (ClientStart (newClient env)) = clientStartOutcome env ->
  (forall m, answerCreate o (newClient env) m = createSessionOutcome env) ->
  alone o (Async.startSession cfg env chatId directory model onReturn onThrow)
        cs
  = sequel o (Index.startSession cfg env cs chatId directory model)
           onReturn onThrow.
Proof.
  intros Hstart Hcreate.
  unfold Async.startSession, Index.startSession, sequel. simpl.
  set (cs1 := ensureState cfg (rndOnCreate env) cs chatId model).
  destruct (cs1 !! chatId) as [st|] eqn:Hst;
    [|simpl; by destruct (alone o onReturn cs1) as [[cs' effs'] c']].
  rewrite teardown_cases.
  assert (Hkeep : client (set_session None st) = client st)
    by (by destruct st).
  destruct (session st) as [s|] eqn:Hs; destruct (client st) as [c|] eqn:Hc;
    rewrite ?(insert_id cs1 chatId st Hst);
    destruct (chdirOutcome env) as [|?];
    destruct (clientStartOutcome env) as [|?];
    destruct (createSessionOutcome env) as [?|?];
    repeat first
      [ progress simpl
      | rewrite Hst | rewrite lookup_insert_eq | rewrite Hkeep | rewrite Hc
      | rewrite insert_insert_eq | rewrite Hstart | rewrite Hcreate ];
    finish_alone.
Qed.

(** The handler of [session.idle] of [Index] is the handler run alone,
    with the completion notice and the report of a failed send
    delivered. *)
Lemma alone_handleSessionIdle o out chatId (cs : gmap Z ChatState) :
  delivers o ->
  (forall s p, answerCall o (SessionSend s p) = out) ->
  alone o (Async.handleSessionIdle chatId) cs
  = (Index.handleSessionIdle out cs chatId, Returned).
Proof.
  intros Hdel Hsend.
  unfold Async.handleSessionIdle, Index.handleSessionIdle, sendNext. simpl.
  destruct (cs !! chatId) as [st|] eqn:Hst; [|done].
  destruct st as [c s d m b q r i e cp af pc eq pe om tc]. simpl.
  destruct q as [|p rest]; simpl.
  - destruct (default false af); simpl.
    + by rewrite lookup_insert_eq.
    + rewrite (Hdel (BotSendStatus chatId om true) eq_refl). simpl.
      by rewrite lookup_insert_eq.
  - rewrite lookup_insert_eq. simpl.
    destruct p as [|u p]; simpl;
      [|destruct s as [s|]; simpl]; rewrite ?insert_insert_eq; try done.
    rewrite Hsend. destruct out as [|err]; simpl; [done|].
    rewrite (Hdel (BotSendMessage chatId (TxtQueuedSendError err)) eq_refl).
    simpl. rewrite lookup_insert_eq. simpl. by rewrite insert_insert_eq.
Qed.

(** Lines 1861-1912 of [Index] are those lines run alone, with the
    replies and the report of a failed send delivered. *)
Lemma alone_dispatchPrompt o env msg (cs : gmap Z ChatState) :
  delivers o ->
  (forall s p, answerCall o (SessionSend s p) = sendOutcome env) ->
  alone o (Async.dispatchPrompt msg) cs
  = (Index.dispatchPrompt env cs msg, Returned).
Proof.
  intros Hdel Hsend.
  unfold Async.dispatchPrompt, Index.dispatchPrompt, say.
  destruct (negb (truthy (captionOrText msg))); [done|].
  destruct (startsWith _ _); [done|]. simpl.
  destruct (cs !! msg_chat_id msg) as [st|] eqn:Hst; simpl;
    [|by rewrite (Hdel (BotSendMessage _ _) eq_refl)].
  destruct (session st) as [s|], (truthy (dir st)); simpl;
    try (by rewrite (Hdel (BotSendMessage _ _) eq_refl)).
  destruct (resetting st); simpl;
    [by rewrite (Hdel (BotSendMessage _ _) eq_refl)|].
  destruct (busy st); simpl;
    [by rewrite (Hdel (BotSendMessage _ _) eq_refl)|].
  rewrite Hsend. destruct (sendOutcome env) as [|err]; simpl; [done|].
  rewrite (Hdel (BotSendMessage _ _) eq_refl). simpl.
  rewrite lookup_insert_eq. simpl. by rewrite insert_insert_eq.
Qed.

(** The handler of messages of [Index] is the handler run alone, with
    every message to the chat delivered. *)
Lemma alone_onMessage o cfg env msg (cs : gmap Z ChatState) :
  delivers o ->
  (forall s p, answerCall o (SessionSend s p) = sendOutcome env) ->
  (forall fileId, answerFile o fileId = getFile env fileId) ->
  alone o (Async.onMessage cfg (rndOnImage env) msg) cs
  = (Index.onMessage cfg env cs msg, Returned).
Proof.
  intros Hdel Hsend Hfile.
  unfold Async.onMessage, Index.onMessage.
  destruct (negb (isOwner cfg (msg_chat_id msg))).
  { unfold say. simpl. by rewrite (Hdel (BotSendMessage _ _) eq_refl). }
  destruct (hasPhoto msg || isImageDocument msg);
    [|by apply alone_dispatchPrompt].
  unfold Async.storeAttachment, Index.storeAttachment. simpl.
  set (cs0 := match cs !! msg_chat_id msg with
              | Some _ => cs
              | None => _
              end).
  destruct (attachedFileId msg) as [fileId|].
  - destruct (cs0 !! msg_chat_id msg) as [st|] eqn:Hst.
    + simpl. rewrite Hfile.
      destruct (getFile env fileId) as [filePath|err]; simpl.
      * rewrite Hst. simpl.
        rewrite (Hdel (BotSendMessage _ _) eq_refl). simpl.
        rewrite (alone_dispatchPrompt o env msg _ Hdel Hsend).
        by destruct (Index.dispatchPrompt env _ msg).
      * rewrite (Hdel (BotSendMessage _ _) eq_refl). simpl.
        rewrite (alone_dispatchPrompt o env msg _ Hdel Hsend).
        by destruct (Index.dispatchPrompt env _ msg).
    + exfalso. subst cs0.
      destruct (cs !! msg_chat_id msg) eqn:Hcs; [congruence|].
      by rewrite lookup_insert_eq in Hst.
  - rewrite (alone_dispatchPrompt o env msg _ Hdel Hsend).
    destruct (cs0 !! msg_chat_id msg);
      by destruct (Index.dispatchPrompt env _ msg).
Qed.

(** The handler of /reset of [Index] is the handler run alone, with
    every message to the chat delivered. *)
Lemma alone_onReset o cfg env chatId (cs : gmap Z ChatState) :
  delivers o -> answersAs o (startEnv env) ->
  alone o (Async.onReset cfg (startEnv env) chatId) cs
  = (Index.onReset cfg env cs chatId, Returned).
Proof.
  intros Hdel [Hstart Hcreate].
  unfold Async.onReset, Index.onReset, say.
  destruct (negb (isOwner cfg chatId)).
  { simpl. by rewrite (Hdel (BotSendMessage _ _) eq_refl). }
  simpl. destruct (cs !! chatId) as [st|] eqn:Hst; simpl;
    [|by rewrite (Hdel (BotSendMessage _ _) eq_refl)].
  destruct (session st) as [s|] eqn:Hs; simpl;
    [|by rewrite (Hdel (BotSendMessage _ _) eq_refl)].
  rewrite (Hdel (BotSendMessage chatId TxtResetStarting) eq_refl). simpl.
  rewrite lookup_insert_eq.
  assert (Hs' : session (resetPrepared st) = Some s) by (by destruct st).
  rewrite Hs'. simpl.
  destruct (truthy (dir st)).
  - rewrite (alone_startSession o cfg (startEnv env) chatId _ _ _ _ _
               Hstart Hcreate).
    unfold sequel, resetPrepared.
    destruct (Index.startSession _ _ _ _ _ _) as [[cs' effs] [|err]]; simpl;
      rewrite (Hdel (BotSendMessage _ _) eq_refl); simpl; done.
  - simpl. rewrite (Hdel (BotSendMessage _ _) eq_refl). done.
Qed.

(** The branch of the reset button of [Index] is the branch run alone,
    with every message to the chat delivered. *)
Lemma alone_onResetButton o cfg env chatId (cs : gmap Z ChatState) :
  delivers o -> answersAs o (startEnv env) ->
  (forall s, answerCall o (SessionDestroy s) = buttonDestroyOutcome env) ->
  alone o (Async.onResetButton cfg (startEnv env) chatId) cs
  = (Index.onResetButton cfg env cs chatId, Returned).
Proof.
  intros Hdel [Hstart Hcreate] Hdestroy.
  unfold Async.onResetButton, Index.onResetButton, say.
  simpl. rewrite (Hdel BotAnswerCallbackQuery eq_refl). simpl.
  destruct (cs !! chatId) as [st|] eqn:Hst; simpl;
    [|by rewrite (Hdel (BotSendWelcome _) eq_refl)].
  destruct (session st) as [s|] eqn:Hs, (truthy (dir st)); simpl;
    try (by rewrite (Hdel (BotSendWelcome _) eq_refl)).
  rewrite (Hdel (BotSendMessage chatId TxtCbResetStarting) eq_refl). simpl.
  rewrite lookup_insert_eq. simpl.
  rewrite Hs. simpl. rewrite Hdestroy.
  destruct (buttonDestroyOutcome env) as [|err]; simpl.
  - rewrite lookup_insert_eq. cbn [alone]. rewrite insert_insert_eq.
    rewrite (alone_startSession o cfg (startEnv env) chatId _ _ _ _ _
               Hstart Hcreate).
    unfold sequel.
    destruct (Index.startSession _ _ _ _ _ _) as [[cs' effs] [|err]];
      unfold after; rewrite alone_modify;
      destruct (cs' !! chatId) as [st'|] eqn:Hst'; simpl;
      rewrite (Hdel (BotSendMessage _ _) eq_refl); simpl; done.
  - rewrite lookup_insert_eq. simpl. rewrite insert_insert_eq.
    rewrite (Hdel (BotSendMessage _ _) eq_refl). simpl. done.
Qed.

End AloneSpec.

(** ** A prompt and the guards of the handler of messages *)

Module GuardSpec.
Import Utils Index Async Scenario AsyncScenario.

(** A message without an image has no file to fetch, and a message with
    an image has one. *)
Lemma attachedFileId_None msg :
  attachedFileId msg = None -> hasPhoto msg || isImageDocument msg = false.
Proof.
  unfold attachedFileId, hasPhoto, isImageDocument.
  destruct (msg_photo msg) as [[|p ps]|]; simpl.
  - destruct (msg_document msg) as [[[mime|] fileId]|]; simpl; try done.
    by destruct (startsWith mime _).
  - intros H. exfalso. revert H. generalize p. induction ps as [|q ps IH];
      intros p0; [done|]. apply (IH q).
  - destruct (msg_document msg) as [[[mime|] fileId]|]; simpl; try done.
    by destruct (startsWith mime _).
Qed.

Lemma attachedFileId_Some msg fileId :
  attachedFileId msg = Some fileId ->
  hasPhoto msg || isImageDocument msg = true.
Proof.
  unfold attachedFileId.
  destruct (hasPhoto msg); [done|].
  by destruct (isImageDocument msg).
Qed.

(** A task that ends when the call it awaits has settled. *)
Lemma say_onlyCalls chatId text (cs : gmap Z ChatState) :
  onlyCalls (say chatId text) cs (BotSendMessage chatId text).
Proof.
  eexists. split; [reflexivity|]. by intros [|err] cs'.
Qed.


(** The guard of line 1872 on a chat without session. *)
Lemma guards_without_session msg (cs : gmap Z ChatState) :
  isPrompt msg = true ->
  noSession cs (msg_chat_id msg) ->
  onlyCalls (dispatchPrompt msg) cs
    (BotSendMessage (msg_chat_id msg) TxtNoSession).
Proof.
  intros Hp Hno. unfold isPrompt in Hp.
  apply andb_true_iff in Hp as [Ht Hc]. apply negb_true_iff in Hc.
  unfold dispatchPrompt. rewrite Ht, Hc. simpl.
  unfold onlyCalls. simpl. unfold noSession in Hno.
  destruct (cs !! msg_chat_id msg) as [st|]; [|apply say_onlyCalls].
  destruct Hno as [-> | Hd]; [apply say_onlyCalls|].
  rewrite Hd. destruct (session st); apply say_onlyCalls.
Qed.

(** The image part of the handler, lines 1812-1859, whatever holds of
    the rest of the handler. *)
Lemma storeAttachment_storesImage cfg rnd msg fileId next
    (rest : Task -> Prop) (cs : gmap Z ChatState) :
  attachedFileId msg = Some fileId ->
  rest next ->
  storesImage cfg (msg_chat_id msg) fileId
    (storeAttachment cfg rnd msg next) cs
    match cs !! msg_chat_id msg with
    | Some _ => cs
    | None =>
        <[msg_chat_id msg := freshState (defaultModel cfg)
                                        (pickSessionEmoji cs rnd)]> cs
    end
    rest.
Proof.
  intros Hfile Hrest.
  assert (Hreport : reportsImageError (msg_chat_id msg)
                      (await (BotSendMessage (msg_chat_id msg) TxtImageError)
                             next Throw) rest).
  { intros cs'. eexists. split; [reflexivity|]. by split. }
  unfold storeAttachment. rewrite Hfile. eexists.
  split; [reflexivity|]. split; [intros err; exact Hreport|].
  intros filePath cs1 st1 Hst1. cbv zeta. simpl. rewrite Hst1.
  eexists. split; [reflexivity|]. split; [exact Hrest|].
  intros err. exact Hreport.
Qed.




(** C7, as the code has it. A chat that the bot does not serve gets the
    "not owner" message, and nothing else happens. For a chat that the
    bot serves, a prompt is tested against the state that the chat has
    when the handler reaches the guard of line 1872: for a message
    without image, the state at the arrival of the message. A message
    with an image is first served by lines 1812-1859: the state of the
    chat is created if it is missing, with no session, an empty queue, no
    image and a marker; the handler asks Telegram for the file and, when
    the path has arrived, pushes the URL on the images that the chat has
    then and reports their number; the guard comes after that message, or
    after the report of a failure. If the chat has no session at the
    guard, the prompt is refused: the handler assigns nothing, sends the
    "no session" message and ends; nothing is sent to a session and
    nothing is queued. *)
Theorem prompt_without_session_refused cfg rnd msg :
  let chatId := msg_chat_id msg in
  let refused (t : Task) :=
    forall cs,
      noSession cs chatId ->
      onlyCalls t cs (BotSendMessage chatId TxtNoSession) in
  isPrompt msg = true ->
  if isOwner cfg chatId then
    match attachedFileId msg with
    | None => refused (onMessage cfg rnd msg)
    | Some fileId =>
        forall cs,
          storesImage cfg chatId fileId (onMessage cfg rnd msg) cs
            match cs !! chatId with
            | Some _ => cs
            | None =>
                <[chatId := freshState (defaultModel cfg)
                                       (pickSessionEmoji cs rnd)]> cs
            end
            refused
    end
  else
    forall cs,
      onlyCalls (onMessage cfg rnd msg) cs (BotSendMessage chatId TxtNotOwner).
Proof.
  intros chatId refused Hp.
  assert (Hrefused : refused (dispatchPrompt msg)).
  { intros cs Hno. by apply guards_without_session. }
  unfold onMessage. fold chatId.
  destruct (isOwner cfg chatId); simpl negb; cbv iota.
  - destruct (attachedFileId msg) as [fileId|] eqn:Hfile.
    + rewrite (attachedFileId_Some msg fileId Hfile). intros cs.
      exact (storeAttachment_storesImage cfg rnd msg fileId
               (dispatchPrompt msg) refused cs Hfile Hrefused).
    + by rewrite (attachedFileId_None msg Hfile).
  - intros cs. apply say_onlyCalls.
Qed.

(** The theorem on a chat that the bot has not seen: its text is
    answered with the "no session" message, and its photo creates the
    state of the chat before the caption meets the guard; and on a chat
    that the bot does not serve. *)
Lemma prompt_without_session_refused_witness :
  noSession ∅ 1
  /\ onlyCalls (onMessage cfg 0 (textMessage 1 "hello")) ∅
               (BotSendMessage 1 TxtNoSession)
  /\ storesImage cfg 1 (lit "large")
       (onMessage cfg 0 (photoMessage 1 "hello")) ∅
       {[1 := freshState (lit "gpt-5-mini") (pickSessionEmoji ∅ 0)]}
       (fun t =>
          forall cs,
            noSession cs 1 ->
            onlyCalls t cs (BotSendMessage 1 TxtNoSession))
  /\ onlyCalls (onMessage cfgOwned 0 (textMessage 5 "hello")) ∅
               (BotSendMessage 5 TxtNotOwner).
Proof.
  assert (Hno : noSession ∅ 1) by exact I.
  split; [exact Hno|]. split; [|split].
  - exact (prompt_without_session_refused cfg 0 (textMessage 1 "hello")
             eq_refl ∅ Hno).
  - exact (prompt_without_session_refused cfg 0 (photoMessage 1 "hello")
             eq_refl ∅).
  - exact (prompt_without_session_refused cfgOwned 0 (textMessage 5 "hello")
             eq_refl ∅).
Defined.

(** C7 as stated fails in two ways. A chat that the bot does not serve
    gets the "not owner" message. And a photo with a caption, sent by a
    chat that the bot has not seen, creates the state of the chat and
    stores the URL of the photo before the caption is refused. *)
Lemma no_session_prompt_counterexample :
  (noSession ∅ 5 /\ isOwner cfgOwned 5 = false
   /\ alone allGood (onMessage cfgOwned 0 (textMessage 5 "hello")) ∅
      = (∅, [BotSendMessage 5 TxtNotOwner], Returned))
  /\ (noSession ∅ 1
      /\ alone allGood (onMessage cfg 0 (photoMessage 1 "hello")) ∅
         = ({[1 := set_images (Some [imageUrl])
                     (freshState (lit "gpt-5-mini")
                                 (pickSessionEmoji ∅ 0))]},
            [BotGetFile (lit "large"); BotSendMessage 1 (TxtImagesAdded 1);
             BotSendMessage 1 TxtNoSession],
            Returned)).
Proof.
  conjuncts; vm_compute; reflexivity.
Qed.

End GuardSpec.

(** ** The idle event and the prompt queue *)

Module IdleSpec.
Import Utils Index Async Scenario AsyncScenario.

(** C4. When the session of a chat becomes idle while prompts wait, the
    handler of the event takes the first prompt [p] from the queue and
    calls [session.send] once, before any other handler runs: with [p]
    when the chat has no image, and else with [p], an empty line, the
    line "參考圖片：" and the numbered URLs of the images of the chat, one
    per line. At the call the chat is busy with [p] as its current
    prompt, the queue has lost its head and nothing else, the final
    message is awaited and the turn count is one higher. When the send
    has succeeded the handler ends and assigns nothing more. When it has
    failed, the handler reports the error to the chat and sends nothing
    else to the session. *)
Theorem idle_sends_first_queued chatId (cs : gmap Z ChatState) st s p rest :
  let text :=
    match images st with
    | None | Some [] => p
    | Some imgs =>
        p ++ [LF; LF; 21443; 32771; 22294; 29255; 65306; LF]%N
          ++ join [LF] (imap (fun i u => ofNat (i + 1) ++ lit ". " ++ u) imgs)
    end in
  let st1 :=
    {| client := client st; session := Some s; dir := dir st;
       model := model st; busy := true; queue := rest;
       resetting := resetting st; images := images st; emoji := emoji st;
       currentPrompt := Some p; awaitingFinal := Some true;
       pendingCompletion := Some false; eventQueue := eventQueue st;
       processingEvents := processingEvents st;
       originalMessageId := originalMessageId st;
       turnCount := Some (default 0 (turnCount st) + 1) |} in
  cs !! chatId = Some st ->
  session st = Some s ->
  queue st = p :: rest ->
  p <> [] ->
  exists k,
    advance (handleSessionIdle chatId) cs
    = (<[chatId := st1]> cs, [], Await (SessionSend s text) k)
    /\ (forall cs', advance (k Resolves) cs' = (cs', [], Return))
    /\ forall err cs', exists k',
         advance (k (Rejects err)) cs'
         = (cs', [], Await (BotSendMessage chatId (TxtQueuedSendError err)) k')
         /\ (forall o cs'', exists cs3,
               advance (k' o) cs'' = (cs3, [], settled o)).
Proof.
  intros text st1 Hst Hs Hq Hp.
  unfold handleSessionIdle, sendNext. simpl. rewrite Hst.
  destruct st as [c s0 d m b q r i e cp af pc eq pe om tc].
  simpl in Hs, Hq. subst s0 q. simpl.
  rewrite lookup_insert_eq. simpl.
  destruct p as [|u p]; [done|]. simpl.
  rewrite insert_insert_eq. eexists. split.
  - subst text st1. simpl. unfold appendImagesToPrompt, nextTurn. simpl.
    reflexivity.
  - split; [done|]. intros err cs'. eexists. split; [reflexivity|].
    intros [|err'] cs''; simpl; [|by eexists].
    destruct (cs'' !! chatId); simpl; by eexists.
Qed.

(** The theorem on chat 1, busy, with the prompt "task2" waiting and one
    image stored. *)
Lemma idle_sends_first_queued_witness :
  exists k,
    advance (handleSessionIdle 1) queuedWithImage
    = (<[1 := set_turnCount (Some 2)
                (set_queue [] (set_currentPrompt (Some (lit "task2"))
                   (set_images (Some [imageUrl]) busyState1)))]> started1,
       [],
       Await (SessionSend 7 (withImageUrl "task2")) k)
    /\ forall cs', advance (k Resolves) cs' = (cs', [], Return).
Proof.
  destruct (idle_sends_first_queued 1 queuedWithImage
              (set_images (Some [imageUrl])
                 (set_queue [lit "task2"] busyState1))
              7%nat (lit "task2") [])
    as (k & Hk & Hok & _);
    [vm_compute; reflexivity | reflexivity | reflexivity | done |].
  exists k. split; [|exact Hok].
  rewrite Hk. reflexivity.
Defined.

(** The states from which the runs below start are states of the bot:
    chat 1 after the final message of its first turn, and chat 1 with a
    prompt waiting and an image stored. *)
Example run_states_reached :
  (Commands.handleAssistantMessage busy1 1 (Some (lit "done"))).1 = answered1
  /\ (alone allGood (onMessage cfg 0 (textMessage 1 "task2"))
            (alone allGood
                   (onMessage cfg 0
                      {| msg_chat_id := 1; msg_message_id := 101;
                         msg_text := None; msg_caption := None;
                         msg_photo := Some [lit "small"; lit "large"];
                         msg_document := None |})
                   busy1).1.1).1.1
     = queuedWithImage.
Proof. split; vm_compute; reflexivity. Qed.

(** C3 at two prompts that arrive while the handler of the idle event
    awaits. Chat 1 is busy with its first prompt, whose final message
    has arrived, and the session becomes idle: the handler of the event
    clears [busy] and awaits the delivery of the completion notice. The
    prompt "task2" arrives meanwhile, finds the chat not busy and is
    sent; "task3" arrives, finds the chat busy and is queued. When the
    notice is delivered the handler of the idle event goes on, finds
    "task3" in the queue and sends it: no idle event has arrived since
    "task2" was sent, and both sends are still awaited.

    And at a photo that is overtaken. Chat 1, busy, sends a photo with
    the caption "first" and then the text "second". The handler of the
    photo awaits the file and the delivery of the count of images before
    it queues the caption, so "second" is queued first, and the next
    idle event sends "second". *)
Theorem queued_prompt_sent_before_idle :
  (busy <$> answered1 !! 1 = Some true
   /\ queueOf answered1 1 = []
   /\ calls <$> proceed (atRest answered1) (take 3 promptsDuringIdle)
      = Some [BotSendStatus 1 (Some 100) true;
              SessionSend 7 (lit "task2");
              BotSendMessage 1 TxtQueued]
   /\ (fun w => queueOf (chats w) 1)
        <$> proceed (atRest answered1) (take 3 promptsDuringIdle)
      = Some [lit "task3"]
   /\ calls <$> proceed (atRest answered1) promptsDuringIdle
      = Some [BotSendStatus 1 (Some 100) true;
              SessionSend 7 (lit "task2");
              BotSendMessage 1 TxtQueued;
              SessionSend 7 (lit "task3")]
   /\ (fun w => flat_map callOf (waiting w))
        <$> proceed (atRest answered1) promptsDuringIdle
      = Some [SessionSend 7 (lit "task2");
              BotSendMessage 1 TxtQueued;
              SessionSend 7 (lit "task3")])
  /\ (busy <$> busy1 !! 1 = Some true
      /\ queueOf busy1 1 = []
      /\ (fun w => queueOf (chats w) 1) <$> proceed (atRest busy1) photoThenText
         = Some [lit "second"; lit "first"]
      /\ sentPrompts
           <$> (calls <$> proceed (atRest busy1)
                            (photoThenText ++ [Arrives (handleSessionIdle 1)]))
         = Some [withImageUrl "second"]).
Proof.
  conjuncts; vm_compute; reflexivity.
Qed.

(** Run alone, the handlers keep the order: two prompts sent to the busy
    chat 1 are queued in the order of their arrival, and each of the two
    idle events that follow sends the head of the queue. *)
Example prompts_alone_in_order :
  let cs1 := (alone allGood (onMessage cfg 0 (textMessage 1 "task2"))
                    busy1).1.1 in
  let cs2 := (alone allGood (onMessage cfg 0 (textMessage 1 "task3"))
                    cs1).1.1 in
  let idle1 := alone allGood (handleSessionIdle 1) cs2 in
  let idle2 := alone allGood (handleSessionIdle 1) idle1.1.1 in
  queueOf cs2 1 = [lit "task2"; lit "task3"]
  /\ idle1.1.2 = [SessionSend 7 (lit "task2")]
  /\ idle2.1.2 = [SessionSend 7 (lit "task3")].
Proof. cbv zeta. conjuncts; vm_compute; reflexivity. Qed.

End IdleSpec.

(** ** Sends that fail and messages that are not delivered *)

Module FailureSpec.
Import Utils Index Async Scenario AsyncScenario AloneSpec StartMoreSpec.

(** C6 at a failure of [session.send] whose report is not delivered.
    Chat 1 has a session and is neither busy nor resetting. Its prompt
    "task1" is accepted and [session.send] rejects; the handler awaits
    the message that reports the error, which Telegram rejects too. The
    handler throws there, before the assignments of lines 1908-1910, and
    nothing catches what it throws: the chat stays busy with "task1" as
    its current prompt, though no turn is running. The next prompt that
    the bot handles for the chat is queued. When the report
    is delivered, the same failure leaves the chat not busy. And when
    the send succeeds, the prompt goes out with the images of the chat
    listed below it, at turn one. *)
Theorem unreported_send_failure_stays_busy :
  let msg := textMessage 1 "task1" in
  let failure := alone sendAndReportFail (onMessage cfg 0 msg) started1 in
  (started1 !! 1 = Some state1 /\ liveSession state1
   /\ resetting state1 = false /\ busy state1 = false)
  /\ failure
     = (<[1 := accepted msg state1]> started1,
        [SessionSend 7 (lit "task1");
         BotSendMessage 1
           (TxtSendError (ErrorMessage (lit "session closed")))],
        Thrown (ErrorMessage (lit "ETELEGRAM: 429 Too Many Requests")))
  /\ busy <$> failure.1.1 !! 1 = Some true
  /\ currentPrompt <$> failure.1.1 !! 1 = Some (Some (lit "task1"))
  /\ alone allGood (onMessage cfg 0 (textMessage 1 "task2")) failure.1.1
     = (<[1 := set_queue [lit "task2"] (accepted msg state1)]> started1,
        [BotSendMessage 1 TxtQueued], Returned)
  /\ alone sendFails (onMessage cfg 0 msg) started1
     = (<[1 := rolledBack msg state1]> started1,
        [SessionSend 7 (lit "task1");
         BotSendMessage 1
           (TxtSendError (ErrorMessage (lit "session closed")))],
        Returned)
  /\ busy (rolledBack msg state1) = false
  /\ currentPrompt (rolledBack msg state1) = None
  /\ alone allGood (onMessage cfg 0 msg) idleWithImage
     = (<[1 := accepted msg (set_images (Some [imageUrl]) state1)]> started1,
        [SessionSend 7 (withImageUrl "task1")], Returned)
  /\ turnCount (accepted msg (set_images (Some [imageUrl]) state1))
     = Some 1.
Proof.
  cbv zeta. split; [split; [vm_compute; reflexivity|]|].
  - split; [split; [by eexists | reflexivity]|]. by split.
  - conjuncts; vm_compute; reflexivity.
Qed.

(** What an idle chat does with a prompt: lines 1885-1912 for a text
    message.  The prompt is sent with the images of the chat; if the
    send fails and the report of the error is delivered, the chat is
    rolled back. *)
Lemma idle_chat_sends_prompt msg (cs : gmap Z ChatState) st s :
  isPrompt msg = true ->
  cs !! msg_chat_id msg = Some st ->
  session st = Some s -> truthy (dir st) = true ->
  resetting st = false -> busy st = false ->
  exists k,
    advance (dispatchPrompt msg) cs
    = (<[msg_chat_id msg := accepted msg st]> cs, [],
       Await (SessionSend s (appendImagesToPrompt (promptText msg)
                                                  (images st))) k)
    /\ k Resolves = Return
    /\ forall err,
         k (Rejects err)
         = await (BotSendMessage (msg_chat_id msg) (TxtSendError err))
                 (modify (msg_chat_id msg) rollBack Return) Throw.
Proof.
  intros Hp Hst Hs Hd Hr Hb. unfold isPrompt in Hp.
  apply andb_true_iff in Hp as [Ht Hc]. apply negb_true_iff in Hc.
  unfold dispatchPrompt. rewrite Ht, Hc. simpl.
  rewrite Hst, Hs, Hd, Hr, Hb. simpl.
  eexists. split; [reflexivity|]. by split.
Qed.

(** X17. The reset button, run alone on a chat with a session and a
    directory, first empties the queue, sets [resetting], clears [busy]
    and sets the turn count to zero, and then awaits the delivery of its
    notice.  If the notice is rejected the handler throws there: the
    chat is left resetting, its session untouched.  If the notice is
    delivered, [resetting] is cleared on every path, and the chat is left
    with an empty queue, not busy, at turn zero, its model unchanged;
    and if the old session cannot be destroyed the reset stops there:
    the chat keeps that session and its client, and no client is
    started. *)
Theorem reset_button_by_notice cfg env o (cs : gmap Z ChatState) chatId
    st s :
  let result := alone o (onResetButton cfg env chatId) cs in
  let prepared :=
    set_turnCount (Some 0)
      (set_busy false (set_resetting true (set_queue [] st))) in
  cs !! chatId = Some st -> session st = Some s ->
  truthy (dir st) = true ->
  answersAs o env ->
  answerCall o BotAnswerCallbackQuery = Resolves ->
  match answerCall o (BotSendMessage chatId TxtCbResetStarting) with
  | Rejects err =>
      result
      = (<[chatId := prepared]> cs,
         [BotAnswerCallbackQuery; BotSendMessage chatId TxtCbResetStarting],
         Thrown err)
  | Resolves =>
      exists st',
        result.1.1 !! chatId = Some st'
        /\ resetting st' = false /\ queue st' = [] /\ busy st' = false
        /\ turnCount st' = Some 0 /\ model st' = model st
        /\ forall err,
             answerCall o (SessionDestroy s) = Rejects err ->
             session st' = Some s /\ client st' = client st
             /\ forall c, ClientStart c ∉ result.1.2
  end.
Proof.
  intros result prepared Hst Hs Hd [Hstart Hcreate] Hanswer. subst result.
  unfold onResetButton. rewrite alone_await, Hanswer.
  cbn [alone]. rewrite Hst, Hs, Hd. cbn [alone]. fold prepared.
  rewrite alone_await.
  destruct (answerCall o (BotSendMessage chatId TxtCbResetStarting))
    as [|err0]; [|reflexivity].
  cbn [alone]. rewrite lookup_insert_eq.
  assert (Hs' : session prepared = Some s) by (by destruct st).
  cbn [mbind option_bind]. rewrite Hs', alone_await.
  assert (Hstay : forall (cs1 : gmap Z ChatState) st1 t,
            cs1 !! chatId = Some st1 ->
            exists st2,
              (alone o (modify chatId (set_resetting false) (say chatId t))
                     cs1).1.1 !! chatId = Some st2
              /\ st2 = set_resetting false st1).
  { intros cs1 st1 t Hst1. rewrite alone_modify, Hst1.
    unfold say. rewrite alone_await.
    destruct (answerCall o (BotSendMessage chatId t)); simpl;
      rewrite lookup_insert_eq; by eexists. }
  destruct (answerCall o (SessionDestroy s)) as [|err] eqn:Hdestroy.
  - rewrite alone_modify, lookup_insert_eq, insert_insert_eq.
    rewrite (alone_startSession o cfg env chatId _ _ _ _ _ Hstart Hcreate).
    unfold sequel.
    assert (Hm : model (set_session None prepared) = model st)
      by (by destruct st).
    destruct (startSession_outcome cfg env
                (<[chatId := set_session None prepared]> cs) chatId
                (default [] (dir st)) (model st) (set_session None prepared)
                (lookup_insert_eq _ _ _) Hm)
      as (st' & Hst' & Hm' & _ & Ht' & _ & Hout).
    assert (Htc : turnCount (set_session None prepared) = Some 0)
      by (by destruct st).
    assert (Hqb : queue (set_session None prepared) = []
                  /\ busy (set_session None prepared) = false)
      by (by destruct st).
    destruct Hqb as [Hq0 Hb0].
    destruct (Index.startSession _ _ _ _ _ _) as [[cs' effs] completion].
    cbn [fst snd] in Hst', Hout.
    assert (Hqb' : queue st' = [] /\ busy st' = false).
    { destruct completion; destruct Hout as (_ & _ & -> & -> & _); done. }
    destruct Hqb' as [Hq' Hb'].
    assert (Hfinal : forall (r : gmap Z ChatState * list Effect * Completion)
                            st2,
              r.1.1 !! chatId = Some st2 -> st2 = set_resetting false st' ->
              exists st3,
                r.1.1 !! chatId = Some st3
                /\ resetting st3 = false /\ queue st3 = []
                /\ busy st3 = false /\ turnCount st3 = Some 0
                /\ model st3 = model st
                /\ forall err,
                     Resolves = Rejects err ->
                     session st3 = Some s /\ client st3 = client st
                     /\ forall c, ClientStart c ∉ r.1.2).
    { intros r st2 Hst2 ->. eexists. split; [exact Hst2|].
      destruct st'. simpl in *. repeat split; try congruence. }
    destruct completion as [|err]; unfold after.
    + rewrite alone_modify, Hst', alone_await.
      destruct (answerCall o (BotSendMessage chatId TxtCbResetDone)).
      * cbn [alone].
        apply (Hfinal (_, _, _) (set_resetting false st'));
          [apply lookup_insert_eq | reflexivity].
      * destruct (Hstay (<[chatId := set_resetting false st']> cs')
                        (set_resetting false st') (TxtCbResetFailed err)
                        (lookup_insert_eq _ _ _))
          as (st2 & Hst2 & ->).
        destruct (alone o _ _) as [[cs2 effs2] c2]. cbn [fst] in Hst2.
        apply (Hfinal (_, _, _) _ Hst2). by destruct st'.
    + destruct (Hstay cs' st' (TxtCbResetFailed err) Hst')
        as (st2 & Hst2 & ->).
      destruct (alone o _ _) as [[cs2 effs2] c2]. cbn [fst] in Hst2.
      apply (Hfinal (_, _, _) _ Hst2). reflexivity.
  - destruct (Hstay (<[chatId := prepared]> cs) prepared
                    (TxtCbResetFailed err) (lookup_insert_eq _ _ _))
      as (st2 & Hst2 & ->).
    rewrite alone_modify, lookup_insert_eq in Hst2 |- *.
    unfold say in Hst2 |- *. rewrite alone_await in Hst2 |- *.
    exists (set_resetting false prepared).
    destruct (answerCall o (BotSendMessage chatId (TxtCbResetFailed err)));
      cbn [alone fst snd] in Hst2 |- *;
      (split; [exact Hst2|]); destruct st; simpl in *;
      (do 5 (split; [done|])); intros e _;
      (split; [done|]); (split; [done|]); intros c Hin;
      repeat (apply elem_of_cons in Hin as [Hin | Hin]; [done|]);
      by apply elem_of_nil in Hin.
Qed.

(** The theorem on chat 1, busy with two prompts waiting: when Telegram
    rejects the notice the chat is left resetting, and when every call
    succeeds it is not. *)
Lemma reset_button_by_notice_witness :
  alone chatUnreachable (onResetButton cfg startOk 1) twoWaiting
  = (<[1 := set_turnCount (Some 0)
              (set_busy false
                 (set_resetting true
                    (set_queue []
                       (set_queue [lit "task2"; lit "task3"] busyState1))))]>
       twoWaiting,
     [BotAnswerCallbackQuery; BotSendMessage 1 TxtCbResetStarting],
     Thrown (ErrorMessage (lit "ETELEGRAM: 429 Too Many Requests")))
  /\ exists st',
       (alone allGood (onResetButton cfg startOk 1) twoWaiting).1.1 !! 1
       = Some st'
       /\ resetting st' = false /\ queue st' = [] /\ busy st' = false.
Proof.
  assert (Hst : twoWaiting !! 1
                = Some (set_queue [lit "task2"; lit "task3"] busyState1))
    by (vm_compute; reflexivity).
  split.
  - exact (reset_button_by_notice cfg startOk chatUnreachable twoWaiting 1
             _ 7%nat Hst eq_refl eq_refl
             (conj eq_refl (fun _ => eq_refl)) eq_refl).
  - destruct (reset_button_by_notice cfg startOk allGood twoWaiting 1
                _ 7%nat Hst eq_refl eq_refl
                (conj eq_refl (fun _ => eq_refl)) eq_refl)
      as (st' & Hst' & Hr & Hq & Hb & _).
    exists st'. by repeat split.
Defined.

(** X18. When the send of a queued prompt fails, that prompt is lost: it
    has left the queue, and the handler of the idle event reports the
    error.  If the report is delivered, the chat is no longer busy and
    has no current prompt, while the prompts behind the lost one stay
    queued: the next prompt of the user is sent at once, ahead of them.
    If the report is rejected, the handler throws before it clears
    [busy]: the chat stays busy with the lost prompt as its current
    prompt, and the next prompt of the user is queued at the end.  Each
    handler is run alone. *)
Theorem failed_queued_send_by_report cfg rnd o o' (cs : gmap Z ChatState)
    st s p rest err msg :
  let chatId := msg_chat_id msg in
  let idle := alone o (handleSessionIdle chatId) cs in
  let next := alone o' (onMessage cfg rnd msg) idle.1.1 in
  cs !! chatId = Some st -> session st = Some s ->
  truthy (dir st) = true -> resetting st = false ->
  queue st = p :: rest -> p <> [] ->
  isOwner cfg chatId = true ->
  isPrompt msg = true -> hasImage msg = false ->
  answerCall o (SessionSend s (appendImagesToPrompt p (images st)))
  = Rejects err ->
  idle.1.2 = [SessionSend s (appendImagesToPrompt p (images st));
              BotSendMessage chatId (TxtQueuedSendError err)]
  /\ match answerCall o (BotSendMessage chatId (TxtQueuedSendError err)) with
     | Resolves =>
         idle.2 = Returned
         /\ busy <$> idle.1.1 !! chatId = Some false
         /\ currentPrompt <$> idle.1.1 !! chatId = Some None
         /\ queueOf idle.1.1 chatId = rest
         /\ take 1 next.1.2
            = [SessionSend s (appendImagesToPrompt (promptText msg)
                                                   (images st))]
         /\ queueOf next.1.1 chatId = rest
     | Rejects failure =>
         idle.2 = Thrown failure
         /\ busy <$> idle.1.1 !! chatId = Some true
         /\ currentPrompt <$> idle.1.1 !! chatId = Some (Some p)
         /\ queueOf idle.1.1 chatId = rest
         /\ next.1.2 = [BotSendMessage chatId TxtQueued]
         /\ queueOf next.1.1 chatId = rest ++ [promptText msg]
     end.
Proof.
  intros chatId idle next Hst Hs Hd Hr Hq Hp Hown Hprompt Himg Hsend.
  pose proof Hprompt as Hprompt'. unfold isPrompt in Hprompt'.
  apply andb_true_iff in Hprompt' as [Ht Hc]. apply negb_true_iff in Hc.
  assert (Hnext : forall (cs1 : gmap Z ChatState),
            alone o' (onMessage cfg rnd msg) cs1
            = alone o' (dispatchPrompt msg) cs1).
  { intros cs1. unfold onMessage. fold chatId. rewrite Hown.
    unfold hasImage in Himg. by rewrite Himg. }
  subst next. rewrite Hnext. clear Hnext.
  subst idle. unfold handleSessionIdle, sendNext. cbn [alone].
  rewrite Hst.
  destruct st as [c s0 d m b q r i e cp af pc eq pe om tc].
  simpl in Hs, Hd, Hr, Hq, Hsend. subst s0 r q. simpl queue. cbv iota zeta.
  cbn [alone]. rewrite lookup_insert_eq. simpl queue. cbv iota zeta.
  destruct p as [|u p]; [done|]. simpl truthy. simpl session. cbv iota.
  cbn [alone]. rewrite alone_await. simpl images. rewrite Hsend.
  rewrite alone_await. simpl images in *.
  destruct (answerCall o (BotSendMessage chatId (TxtQueuedSendError err)))
    as [|failure].
  - rewrite alone_modify, lookup_insert_eq, !insert_insert_eq.
    cbn [alone fst snd]. unfold queueOf. rewrite lookup_insert_eq.
    split; [done|]. do 4 (split; [done|]).
    unfold dispatchPrompt. fold chatId. rewrite Ht, Hc. cbn [negb alone].
    rewrite lookup_insert_eq. simpl. rewrite Hd. simpl.
    destruct (answerCall o' _) as [|err'] eqn:Hsend'; simpl.
    + split; [done|]. by rewrite lookup_insert_eq.
    + destruct (answerCall o' (BotSendMessage _ _)); simpl;
        rewrite ?lookup_insert_eq; simpl; rewrite ?lookup_insert_eq;
        by split.
  - rewrite !insert_insert_eq. cbn [alone fst snd]. unfold queueOf.
    rewrite lookup_insert_eq.
    split; [done|]. do 4 (split; [done|]).
    unfold dispatchPrompt, say. fold chatId. rewrite Ht, Hc.
    cbn [negb alone]. rewrite lookup_insert_eq. simpl. rewrite Hd. simpl.
    destruct (answerCall o' (BotSendMessage chatId TxtQueued)); simpl;
      rewrite lookup_insert_eq; by split.
Qed.

(** The theorem on chat 1, busy with "task2" and "task3" waiting, when
    the session rejects "task2": with the report delivered, the next
    prompt "task4" is sent ahead of "task3"; with the report rejected,
    the chat stays busy and "task4" is queued behind "task3". *)
Lemma failed_queued_send_by_report_witness :
  (let idle := alone sendFails (handleSessionIdle 1) twoWaiting in
   let next :=
     alone allGood (onMessage cfg 0 (textMessage 1 "task4")) idle.1.1 in
   busy <$> idle.1.1 !! 1 = Some false
   /\ take 1 next.1.2 = [SessionSend 7 (lit "task4")]
   /\ queueOf next.1.1 1 = [lit "task3"])
  /\ (let idle := alone sendAndReportFail (handleSessionIdle 1) twoWaiting in
      let next :=
        alone allGood (onMessage cfg 0 (textMessage 1 "task4")) idle.1.1 in
      busy <$> idle.1.1 !! 1 = Some true
      /\ next.1.2 = [BotSendMessage 1 TxtQueued]
      /\ queueOf next.1.1 1 = [lit "task3"; lit "task4"]).
Proof.
  assert (Hst : twoWaiting !! 1
                = Some (set_queue [lit "task2"; lit "task3"] busyState1))
    by (vm_compute; reflexivity).
  assert (Hp : lit "task2" <> []) by done.
  split.
  - destruct (failed_queued_send_by_report cfg 0 sendFails allGood
                twoWaiting _ 7%nat (lit "task2") [lit "task3"]
                (ErrorMessage (lit "session closed"))
                (textMessage 1 "task4")
                Hst eq_refl eq_refl eq_refl eq_refl Hp
                eq_refl eq_refl eq_refl eq_refl)
      as (_ & _ & Hb & _ & _ & Hn & Hq).
    cbv zeta. split; [exact Hb|]. split; [exact Hn | exact Hq].
  - destruct (failed_queued_send_by_report cfg 0 sendAndReportFail allGood
                twoWaiting _ 7%nat (lit "task2") [lit "task3"]
                (ErrorMessage (lit "session closed"))
                (textMessage 1 "task4")
                Hst eq_refl eq_refl eq_refl eq_refl Hp
                eq_refl eq_refl eq_refl eq_refl)
      as (_ & _ & Hb & _ & _ & Hn & Hq).
    cbv zeta. split; [exact Hb|]. split; [exact Hn | exact Hq].
Defined.

End FailureSpec.
